(** * cxmod: the ticket and feedback data-access hooks

    A shallow embedding of the data-access layer of the support dashboard
    (hooks [useTickets] and [useFeedback], the Notion adapter
    [ticketService]) together with the part of the JavaScript runtime the
    hooks rely on (strings as UTF-16 code units, [trim], [JSON.stringify] on
    string arrays, [JSON.parse], [Number]/[parseFloat]/[parseInt] on strings,
    32-bit integer operators). *)

From Stdlib Require Import ZArith NArith List Bool String Ascii Lia.
Import ListNotations.

Local Open Scope N_scope.
Local Set Warnings "-register-all".

(** ** The JavaScript runtime *)

Module JS.

(** A JavaScript string is a sequence of UTF-16 code units. *)
Definition jsstring := list N.

(** Code units of an ASCII literal. *)
Definition u16 (s : string) : jsstring :=
  map N_of_ascii (list_ascii_of_string s).

Fixpoint str_eqb (a b : jsstring) : bool :=
  match a, b with
  | [], [] => true
  | x :: a', y :: b' => (x =? y) && str_eqb a' b'
  | _, _ => false
  end.

(** Order of strings by code units, as [<=] and the default [sort] compare
    them. *)
Fixpoint str_leb (a b : jsstring) : bool :=
  match a, b with
  | [], _ => true
  | _ :: _, [] => false
  | x :: a', y :: b' => (x <? y) || ((x =? y) && str_leb a' b')
  end.

Fixpoint insert_sorted (x : jsstring) (l : list jsstring) : list jsstring :=
  match l with
  | [] => [x]
  | y :: r => if str_leb x y then x :: l else y :: insert_sorted x r
  end.

(** [arr.sort()] on strings. *)
Definition Array_sort (l : list jsstring) : list jsstring :=
  fold_right insert_sorted [] l.

(** Thrown values: whether [err instanceof Error] holds, and [err.message]. *)
Record JSError := mkError { instanceof_Error : bool; message : jsstring }.

Definition SyntaxError : JSError := mkError true (u16 "Unexpected token in JSON").
Definition TypeError : JSError := mkError true (u16 "not a function").

(** Completion of an evaluation: a value or a thrown exception. *)
Inductive result (A : Type) : Type :=
| Ok (a : A)
| Throw (e : JSError).
Arguments Ok {A} a.
Arguments Throw {A} e.

Definition bind {A B} (m : result A) (k : A -> result B) : result B :=
  match m with
  | Ok a => k a
  | Throw e => Throw e
  end.

(** [try { m } catch { h }] *)
Definition try_catch {A} (m : result A) (h : JSError -> result A) : result A :=
  match m with
  | Ok a => Ok a
  | Throw e => h e
  end.

Declare Scope js_scope.
Delimit Scope js_scope with js.
Notation "x <- m ;; k" := (bind m (fun x => k))
  (at level 61, m at next level, right associativity) : js_scope.

(** Runtime values. A number is kept as its decimal source text. *)
Inductive JSValue : Type :=
| JUndefined
| JNull
| JBool (b : bool)
| JNum (lexeme : jsstring)
| JStr (s : jsstring)
| JArr (items : list JSValue)
| JObj (members : list (jsstring * JSValue)).

Definition typeof_string (v : JSValue) : bool :=
  match v with JStr _ => true | _ => false end.

Definition Array_isArray (v : JSValue) : bool :=
  match v with JArr _ => true | _ => false end.

Definition is_digit (c : N) : bool := (48 <=? c) && (c <=? 57).

(** The mantissa of a decimal lexeme denotes zero: every digit before the
    exponent marker is [0]. *)
Fixpoint mantissa_zero (l : jsstring) : bool :=
  match l with
  | [] => true
  | c :: r =>
      if (c =? 101) || (c =? 69) then true
      else if is_digit c then (c =? 48) && mantissa_zero r
      else mantissa_zero r
  end.

(** ToBoolean. *)
Definition truthy (v : JSValue) : bool :=
  match v with
  | JUndefined | JNull => false
  | JBool b => b
  | JNum l => negb (mantissa_zero l)
  | JStr s => match s with [] => false | _ => true end
  | JArr _ | JObj _ => true
  end.

(** *** Whitespace and [String.prototype.trim] *)

(** WhiteSpace and LineTerminator code points. *)
Definition is_ws (c : N) : bool :=
  ((9 <=? c) && (c <=? 13)) || (c =? 32) || (c =? 160) || (c =? 5760)
  || ((8192 <=? c) && (c <=? 8202)) || (c =? 8232) || (c =? 8233)
  || (c =? 8239) || (c =? 8287) || (c =? 12288) || (c =? 65279).

Fixpoint trimStart (s : jsstring) : jsstring :=
  match s with
  | [] => []
  | c :: r => if is_ws c then trimStart r else s
  end.

Definition trimEnd (s : jsstring) : jsstring := rev (trimStart (rev s)).

Definition trim (s : jsstring) : jsstring := trimEnd (trimStart s).

(** A string has a character that [trim] does not remove. *)
Definition has_non_ws (s : jsstring) : Prop :=
  exists c, In c s /\ is_ws c = false.

(** Truthiness of a string. *)
Definition nonempty (s : jsstring) : bool :=
  match s with [] => false | _ => true end.

(** [v.trim()] on an arbitrary value: only strings have the method. *)
Definition method_trim (v : JSValue) : result jsstring :=
  match v with
  | JStr s => Ok (trim s)
  | _ => Throw TypeError
  end.

(** [Array.prototype.filter] with a callback that may throw. *)
Fixpoint filterM {A} (p : A -> result bool) (l : list A) : result (list A) :=
  match l with
  | [] => Ok []
  | x :: r =>
      bind (p x) (fun b =>
      bind (filterM p r) (fun r' =>
      Ok (if b then x :: r' else r')))
  end.

(** *** [JSON.stringify] on an array of strings *)

Definition hex_digit (d : N) : N := if d <? 10 then 48 + d else 87 + d.

(** UnicodeEscape: backslash, [u], four lowercase hexadecimal digits. *)
Definition unicode_escape (c : N) : jsstring :=
  [92; 117; hex_digit ((c / 4096) mod 16); hex_digit ((c / 256) mod 16);
   hex_digit ((c / 16) mod 16); hex_digit (c mod 16)].

Definition is_leading_surrogate (c : N) : bool := (55296 <=? c) && (c <=? 56319).
Definition is_trailing_surrogate (c : N) : bool := (56320 <=? c) && (c <=? 57343).

(** One code point that is not a surrogate pair. *)
Definition quote_code_unit (c : N) : jsstring :=
  if c =? 8 then [92; 98]
  else if c =? 9 then [92; 116]
  else if c =? 10 then [92; 110]
  else if c =? 12 then [92; 102]
  else if c =? 13 then [92; 114]
  else if c =? 34 then [92; 34]
  else if c =? 92 then [92; 92]
  else if (c <? 32) || is_leading_surrogate c || is_trailing_surrogate c
       then unicode_escape c
  else [c].

Fixpoint quote_units (s : jsstring) : jsstring :=
  match s with
  | [] => []
  | c :: rest =>
      if is_leading_surrogate c then
        match rest with
        | d :: rest' =>
            if is_trailing_surrogate d then c :: d :: quote_units rest'
            else unicode_escape c ++ quote_units rest
        | [] => unicode_escape c
        end
      else quote_code_unit c ++ quote_units rest
  end.

(** QuoteJSONString *)
Definition QuoteJSONString (s : jsstring) : jsstring :=
  34 :: quote_units s ++ [34].

Fixpoint join_comma (l : list jsstring) : jsstring :=
  match l with
  | [] => []
  | [x] => x
  | x :: r => x ++ 44 :: join_comma r
  end.

Definition JSON_stringify (array : list jsstring) : jsstring :=
  91 :: join_comma (map QuoteJSONString array) ++ [93].

(** *** [JSON.parse] *)

Definition is_json_ws (c : N) : bool :=
  (c =? 9) || (c =? 10) || (c =? 13) || (c =? 32).

Fixpoint skip_ws (s : jsstring) : jsstring :=
  match s with
  | [] => []
  | c :: r => if is_json_ws c then skip_ws r else s
  end.

Definition hex_val (c : N) : option N :=
  if is_digit c then Some (c - 48)
  else if (97 <=? c) && (c <=? 102) then Some (c - 87)
  else if (65 <=? c) && (c <=? 70) then Some (c - 55)
  else None.

Definition hex4 (h1 h2 h3 h4 : N) : option N :=
  match hex_val h1, hex_val h2, hex_val h3, hex_val h4 with
  | Some a, Some b, Some c, Some d => Some (((a * 16 + b) * 16 + c) * 16 + d)
  | _, _, _, _ => None
  end.

Definition simple_escape (e : N) : option N :=
  if e =? 34 then Some 34
  else if e =? 92 then Some 92
  else if e =? 47 then Some 47
  else if e =? 98 then Some 8
  else if e =? 102 then Some 12
  else if e =? 110 then Some 10
  else if e =? 114 then Some 13
  else if e =? 116 then Some 9
  else None.

Definition cons_fst {A B} (a : A) (r : option (list A * B)) : option (list A * B) :=
  match r with
  | Some (l, b) => Some (a :: l, b)
  | None => None
  end.

(** The characters of a string literal after its opening quote, up to and
    including the closing quote. *)
Fixpoint parse_string_body (s : jsstring) : option (jsstring * jsstring) :=
  match s with
  | [] => None
  | c :: rest =>
      if c =? 34 then Some ([], rest)
      else if c =? 92 then
        match rest with
        | [] => None
        | e :: rest1 =>
            if e =? 117 then
              match rest1 with
              | h1 :: h2 :: h3 :: h4 :: rest2 =>
                  match hex4 h1 h2 h3 h4 with
                  | Some u => cons_fst u (parse_string_body rest2)
                  | None => None
                  end
              | _ => None
              end
            else
              match simple_escape e with
              | Some u => cons_fst u (parse_string_body rest1)
              | None => None
              end
        end
      else if c <? 32 then None
      else cons_fst c (parse_string_body rest)
  end.

Fixpoint span_digits (s : jsstring) : jsstring * jsstring :=
  match s with
  | c :: r =>
      if is_digit c then let '(d, r') := span_digits r in (c :: d, r')
      else ([], s)
  | [] => ([], [])
  end.

(** One or more digits. *)
Definition digits1 (s : jsstring) : option (jsstring * jsstring) :=
  match span_digits s with
  | ([], _) => None
  | (d, r) => Some (d, r)
  end.

(** [0] or a digit sequence without a leading zero. *)
Definition json_int (s : jsstring) : option (jsstring * jsstring) :=
  match s with
  | c :: r => if c =? 48 then Some ([48], r) else digits1 s
  | [] => None
  end.

Definition json_frac (s : jsstring) : option (jsstring * jsstring) :=
  match s with
  | c :: r =>
      if c =? 46 then
        match digits1 r with
        | Some (d, r') => Some (46 :: d, r')
        | None => None
        end
      else Some ([], s)
  | [] => Some ([], [])
  end.

Definition json_exp (s : jsstring) : option (jsstring * jsstring) :=
  match s with
  | c :: r =>
      if (c =? 101) || (c =? 69) then
        match r with
        | sg :: r1 =>
            if (sg =? 43) || (sg =? 45) then
              match digits1 r1 with
              | Some (d, r') => Some (c :: sg :: d, r')
              | None => None
              end
            else
              match digits1 r with
              | Some (d, r') => Some (c :: d, r')
              | None => None
              end
        | [] => None
        end
      else Some ([], s)
  | [] => Some ([], [])
  end.

Definition json_unsigned (s : jsstring) : option (jsstring * jsstring) :=
  match json_int s with
  | Some (i, r1) =>
      match json_frac r1 with
      | Some (f, r2) =>
          match json_exp r2 with
          | Some (e, r3) => Some (i ++ f ++ e, r3)
          | None => None
          end
      | None => None
      end
  | None => None
  end.

Definition json_number (s : jsstring) : option (jsstring * jsstring) :=
  match s with
  | c :: r =>
      if c =? 45 then cons_fst 45 (json_unsigned r) else json_unsigned s
  | [] => None
  end.

Fixpoint strip_prefix (p s : jsstring) : option jsstring :=
  match p, s with
  | [], _ => Some s
  | x :: p', y :: s' => if x =? y then strip_prefix p' s' else None
  | _ :: _, [] => None
  end.

Fixpoint parse_value (fuel : nat) (s : jsstring) {struct fuel}
  : option (JSValue * jsstring) :=
  match fuel with
  | O => None
  | S fuel' =>
      match skip_ws s with
      | [] => None
      | c :: rest =>
          if c =? 34 then
            match parse_string_body rest with
            | Some (str, r) => Some (JStr str, r)
            | None => None
            end
          else if c =? 91 then
            match skip_ws rest with
            | d :: r =>
                if d =? 93 then Some (JArr [], r)
                else
                  match parse_elements fuel' rest with
                  | Some (items, r') => Some (JArr items, r')
                  | None => None
                  end
            | [] => None
            end
          else if c =? 123 then
            match skip_ws rest with
            | d :: r =>
                if d =? 125 then Some (JObj [], r)
                else
                  match parse_members fuel' rest with
                  | Some (ms, r') => Some (JObj ms, r')
                  | None => None
                  end
            | [] => None
            end
          else if c =? 116 then
            match strip_prefix (u16 "true") (c :: rest) with
            | Some r => Some (JBool true, r)
            | None => None
            end
          else if c =? 102 then
            match strip_prefix (u16 "false") (c :: rest) with
            | Some r => Some (JBool false, r)
            | None => None
            end
          else if c =? 110 then
            match strip_prefix (u16 "null") (c :: rest) with
            | Some r => Some (JNull, r)
            | None => None
            end
          else
            match json_number (c :: rest) with
            | Some (l, r) => Some (JNum l, r)
            | None => None
            end
      end
  end

with parse_elements (fuel : nat) (s : jsstring) {struct fuel}
  : option (list JSValue * jsstring) :=
  match fuel with
  | O => None
  | S fuel' =>
      match parse_value fuel' s with
      | Some (v, r) =>
          match skip_ws r with
          | d :: r' =>
              if d =? 44 then cons_fst v (parse_elements fuel' r')
              else if d =? 93 then Some ([v], r')
              else None
          | [] => None
          end
      | None => None
      end
  end

with parse_members (fuel : nat) (s : jsstring) {struct fuel}
  : option (list (jsstring * JSValue) * jsstring) :=
  match fuel with
  | O => None
  | S fuel' =>
      match skip_ws s with
      | q :: r0 =>
          if q =? 34 then
            match parse_string_body r0 with
            | Some (k, r1) =>
                match skip_ws r1 with
                | col :: r2 =>
                    if col =? 58 then
                      match parse_value fuel' r2 with
                      | Some (v, r3) =>
                          match skip_ws r3 with
                          | d :: r4 =>
                              if d =? 44 then
                                cons_fst (k, v) (parse_members fuel' r4)
                              else if d =? 125 then Some ([(k, v)], r4)
                              else None
                          | [] => None
                          end
                      | None => None
                      end
                    else None
                | [] => None
                end
            | None => None
            end
          else None
      | [] => None
      end
  end.

(** [JSON.parse(text)]: a value, or a SyntaxError. Every recursive call of
    the parser consumes input, so twice the length of the text is enough
    fuel. *)
Definition JSON_parse (text : jsstring) : result JSValue :=
  match parse_value (2 * List.length text + 2) text with
  | Some (v, r) =>
      match skip_ws r with
      | [] => Ok v
      | _ :: _ => Throw SyntaxError
      end
  | None => Throw SyntaxError
  end.

End JS.

(** ** Numbers: conversions between strings and numbers, 32-bit operators *)

Module JSNum.
Import JS.

(** A number that is an integer, [NaN], or an infinity. *)
Inductive number : Type :=
| NaN
| Int (z : Z)
| Infinity (negative : bool).

(** The Number value of a natural number below the overflow threshold: the
    nearest double, a tie going to the even significand. Up to 2^53 every
    integer is a double. *)
Definition round_to_double (a : Z) : Z :=
  if (a <? 2 ^ 53)%Z then a
  else
    let e := (Z.log2 a - 52)%Z in
    let q := Z.shiftr a e in
    let r := (a - Z.shiftl q e)%Z in
    let half := Z.shiftl 1 (e - 1) in
    let q' :=
      if (r <? half)%Z then q
      else if (half <? r)%Z then (q + 1)%Z
      else if Z.even q then q else (q + 1)%Z in
    Z.shiftl q' e.

(** The Number value of an integer. *)
Definition to_number (z : Z) : number :=
  let m := round_to_double (Z.abs z) in
  if (2 ^ 1024 <=? m)%Z then Infinity (z <? 0)%Z
  else Int (if (z <? 0)%Z then - m else m)%Z.

(** ToInt32: wrap into the signed 32-bit range. *)
Definition toInt32 (z : Z) : Z :=
  ((z + 2147483648) mod 4294967296 - 2147483648)%Z.

(** [a << n] *)
Definition shl (a n : Z) : Z := toInt32 (Z.shiftl (toInt32 a) (n mod 32)).

(** [a & b] *)
Definition band (a b : Z) : Z := toInt32 (Z.land (toInt32 a) (toInt32 b)).

Definition Math_abs (z : Z) : Z := Z.abs z.

(** ExponentPart, when a well-formed one starts the text; the text itself
    otherwise. *)
Definition skip_exponent (s : jsstring) : jsstring :=
  match s with
  | c :: r =>
      if (c =? 101) || (c =? 69) then
        match r with
        | sg :: r1 =>
            if (sg =? 43) || (sg =? 45) then
              match digits1 r1 with Some (_, r') => r' | None => s end
            else
              match digits1 r with Some (_, r') => r' | None => s end
        | [] => s
        end
      else s
  | [] => []
  end.

(** The text after the longest prefix that is a StrUnsignedDecimalLiteral. *)
Definition str_unsigned_decimal (s : jsstring) : option jsstring :=
  match strip_prefix (u16 "Infinity") s with
  | Some r => Some r
  | None =>
      match span_digits s with
      | ([], r1) =>
          match r1 with
          | c :: r2 =>
              if c =? 46 then
                match digits1 r2 with
                | Some (_, r3) => Some (skip_exponent r3)
                | None => None
                end
              else None
          | [] => None
          end
      | (_ :: _, r1) =>
          match r1 with
          | c :: r2 =>
              if c =? 46 then Some (skip_exponent (snd (span_digits r2)))
              else Some (skip_exponent r1)
          | [] => Some []
          end
      end
  end.

Definition strip_sign (s : jsstring) : jsstring :=
  match s with
  | c :: r => if (c =? 43) || (c =? 45) then r else s
  | [] => []
  end.

Definition is_hex_digit (c : N) : bool :=
  match hex_val c with Some _ => true | None => false end.
Definition is_octal_digit (c : N) : bool := (48 <=? c) && (c <=? 55).
Definition is_binary_digit (c : N) : bool := (c =? 48) || (c =? 49).

(** NonDecimalIntegerLiteral: [0x], [0o] or [0b] and at least one digit. *)
Definition non_decimal_literal (s : jsstring) : bool :=
  match s with
  | z :: p :: d :: r =>
      (z =? 48) &&
      (if (p =? 120) || (p =? 88) then forallb is_hex_digit (d :: r)
       else if (p =? 111) || (p =? 79) then forallb is_octal_digit (d :: r)
       else if (p =? 98) || (p =? 66) then forallb is_binary_digit (d :: r)
       else false)
  | _ => false
  end.

(** [isNaN(Number(str))] *)
Definition Number_isNaN (str : jsstring) : bool :=
  match trim str with
  | [] => false
  | t =>
      negb (non_decimal_literal t
            || match str_unsigned_decimal (strip_sign t) with
               | Some [] => true
               | _ => false
               end)
  end.

(** [isNaN(parseFloat(str))] *)
Definition parseFloat_isNaN (str : jsstring) : bool :=
  match str_unsigned_decimal (strip_sign (trimStart str)) with
  | Some _ => false
  | None => true
  end.

Fixpoint take_while (p : N -> bool) (s : jsstring) : jsstring :=
  match s with
  | c :: r => if p c then c :: take_while p r else []
  | [] => []
  end.

Definition digits_value (radix : Z) (ds : jsstring) : Z :=
  fold_left
    (fun acc c => (acc * radix + match hex_val c with Some d => Z.of_N d | None => 0 end)%Z)
    ds 0%Z.

(** [parseInt(str)] without a radix: the Number value of the integer that
    the digits write. *)
Definition parseInt (str : jsstring) : number :=
  let t := trimStart str in
  let neg := match t with c :: _ => c =? 45 | [] => false end in
  let t1 := strip_sign t in
  let '(radix, t2) :=
    match t1 with
    | z :: x :: r =>
        if (z =? 48) && ((x =? 120) || (x =? 88)) then (16%Z, r) else (10%Z, t1)
    | _ => (10%Z, t1)
    end in
  let ds := take_while (if (radix =? 16)%Z then is_hex_digit else is_digit) t2 in
  match ds with
  | [] => NaN
  | _ => to_number (if neg then - digits_value radix ds else digits_value radix ds)
  end.

Fixpoint N_digits (fuel : nat) (n : N) (acc : jsstring) : jsstring :=
  match fuel with
  | O => acc
  | S f =>
      let acc' := (48 + n mod 10) :: acc in
      if n / 10 =? 0 then acc' else N_digits f (n / 10) acc'
  end.

(** The decimal digits of a natural number. *)
Definition decimal (m : N) : jsstring :=
  N_digits (S (N.to_nat (N.log2 m))) m [].

(** The better of the two [k]-digit candidates around [a]: [lo] and
    [lo + 1], times [10^j]. A candidate counts when its Number value is
    [a]; of two that count, the closer to [a], and the even one on a tie. *)
Definition candidate (a j lo : Z) : option Z :=
  let hi := (lo + 1)%Z in
  let ok_lo := (round_to_double (lo * 10 ^ j) =? a)%Z in
  let ok_hi := (round_to_double (hi * 10 ^ j) =? a)%Z in
  if ok_lo && ok_hi then
    let d_lo := (a - lo * 10 ^ j)%Z in
    let d_hi := (hi * 10 ^ j - a)%Z in
    if (d_lo <? d_hi)%Z then Some lo
    else if (d_hi <? d_lo)%Z then Some hi
    else if Z.even lo then Some lo else Some hi
  else if ok_lo then Some lo
  else if ok_hi then Some hi
  else None.

(** The integers [s], [k] and [n] of Number::toString for a double [a] of
    [n0] decimal digits: [s] has [k] digits, [s * 10^(n - k)] has the
    Number value [a], and [k] is as small as possible. [tries] counts the
    lengths still to try, from [k] on. *)
Fixpoint shortest (tries : nat) (a n0 k : Z) : Z * Z * Z :=
  match tries with
  | O => (a, n0, n0)
  | S tries' =>
      match candidate a (n0 - k) (a / 10 ^ (n0 - k)) with
      | Some s =>
          if (s =? 10 ^ k)%Z then (1, 1, n0 + 1)%Z else (s, k, n0)
      | None => shortest tries' a n0 (k + 1)%Z
      end
  end.

(** The text of a double [a >= 2^53]: the shortest digits that read back
    as [a], padded with zeros below 10^21 and in exponent notation from
    10^21 on. *)
Definition shortest_text (a : Z) : jsstring :=
  let n0 := Z.of_nat (List.length (decimal (Z.to_N a))) in
  let '(s, k, n) := shortest (Z.to_nat (Z.min n0 17)) a n0 1 in
  let digits := decimal (Z.to_N s) in
  if (n <=? 21)%Z then digits ++ repeat 48 (Z.to_nat (n - k))
  else
    let exponent := u16 "e+" ++ decimal (Z.to_N (n - 1)) in
    match digits with
    | d :: (_ :: _) as rest => d :: 46 :: rest ++ exponent
    | _ => digits ++ exponent
    end.

(** [n.toString()] of a number that is an integer or not finite. An
    integer below 2^53 is written digit by digit. *)
Definition toString (n : number) : jsstring :=
  match n with
  | NaN => u16 "NaN"
  | Int z =>
      let ds :=
        if (Z.abs z <? 2 ^ 53)%Z then decimal (Z.abs_N z)
        else shortest_text (Z.abs z) in
      if (z <? 0)%Z then 45 :: ds else ds
  | Infinity negative => if negative then u16 "-Infinity" else u16 "Infinity"
  end.

End JSNum.

(** ** Record types of the application ([types/ticket.ts], [types/feedback.ts]) *)

Module Types.
Import JS.

Inductive TicketStatus : Type :=
| Not_Started
| Reviewed_by_Dev
| Waiting_on_Mod
| Under_Review
| In_Dev
| In_QA
| Waiting_on_User
| Under_Review_Sumsub
| Under_Review_Provenance
| Under_Review_Rain
| Under_Review_Core_Team
| Resolved.

Definition status_eqb (a b : TicketStatus) : bool :=
  match a, b with
  | Not_Started, Not_Started | Reviewed_by_Dev, Reviewed_by_Dev
  | Waiting_on_Mod, Waiting_on_Mod | Under_Review, Under_Review
  | In_Dev, In_Dev | In_QA, In_QA | Waiting_on_User, Waiting_on_User
  | Under_Review_Sumsub, Under_Review_Sumsub
  | Under_Review_Provenance, Under_Review_Provenance
  | Under_Review_Rain, Under_Review_Rain
  | Under_Review_Core_Team, Under_Review_Core_Team
  | Resolved, Resolved => true
  | _, _ => false
  end.

Inductive Severity : Type := SEV_1 | SEV_2 | SEV_3 | SEV_4 | SEV_5.

Definition severity_eqb (a b : Severity) : bool :=
  match a, b with
  | SEV_1, SEV_1 | SEV_2, SEV_2 | SEV_3, SEV_3 | SEV_4, SEV_4 | SEV_5, SEV_5 => true
  | _, _ => false
  end.

Inductive Platform : Type := Intercom | Discord | X | Zoom_Analyst_Call.

(** [interface Ticket]. The tag arrays hold whatever the decoder returned. *)
Module Ticket.
Record t : Type := mk {
  id : jsstring;
  ticket_id : jsstring;
  status : TicketStatus;
  date_created : jsstring;
  date_resolved : option jsstring;
  core_team_comments : jsstring;
  issue_description : jsstring;
  contact_info : jsstring;
  product_tags : list JSValue;
  category_tags : list JSValue;
  severity : Severity;
  created_at : jsstring;
  updated_at : jsstring
}.
End Ticket.

(** [interface TicketFormData] *)
Module TicketFormData.
Record t : Type := mk {
  ticket_id : option jsstring;
  status : TicketStatus;
  core_team_comments : jsstring;
  issue_description : jsstring;
  contact_info : jsstring;
  product_tags : list jsstring;
  category_tags : list jsstring;
  severity : Severity
}.
End TicketFormData.

(** [Partial<TicketFormData>]: every field may be missing. *)
Module TicketUpdates.
Record t : Type := mk {
  ticket_id : option jsstring;
  status : option TicketStatus;
  core_team_comments : option jsstring;
  issue_description : option jsstring;
  contact_info : option jsstring;
  product_tags : option (list jsstring);
  category_tags : option (list jsstring);
  severity : option Severity
}.
End TicketUpdates.

(** [interface SearchFilters] *)
Module SearchFilters.
Record t : Type := mk {
  search_query : option jsstring;
  status : option (list TicketStatus);
  severity : option (list Severity);
  product_tags : option (list jsstring);
  category_tags : option (list jsstring);
  date_range_start : option jsstring;
  date_range_end : option jsstring
}.
End SearchFilters.

(** [interface Feedback] *)
Module Feedback.
Record t : Type := mk {
  id : jsstring;
  ticket_id : option Z;
  created_at : jsstring;
  platform : Platform;
  product : jsstring;
  description : jsstring;
  core_team_acknowledgement : option bool;
  shipped : option bool;
  shipping_date : option jsstring
}.
End Feedback.

(** [interface FeedbackFormData] and its [Partial]: the optional fields are
    options; [created_at] and [platform] are optional in an update only. *)
Module FeedbackFormData.
Record t : Type := mk {
  ticket_id : option jsstring;
  created_at : option jsstring;
  platform : option Platform;
  product : option jsstring;
  description : option jsstring;
  core_team_acknowledgement : option bool;
  shipped : option bool;
  shipping_date : option jsstring
}.
End FeedbackFormData.

(** A property of a request body: [undefined] (left out by the JSON
    serialisation), [null], or a value. *)
Inductive Field (A : Type) : Type :=
| Undefined
| Null
| Val (a : A).
Arguments Undefined {A}.
Arguments Null {A}.
Arguments Val {A} a.

Definition of_option {A} (o : option A) : Field A :=
  match o with Some a => Val a | None => Undefined end.

Definition or_null {A} (o : option A) : Field A :=
  match o with Some a => Val a | None => Null end.

(** [x || d] on a string that may be missing. *)
Definition or_default (x : option jsstring) (d : jsstring) : jsstring :=
  match x with
  | Some (c :: r) => c :: r
  | _ => d
  end.

(** [x || null] on a string that may be missing. *)
Definition or_none (x : option jsstring) : option jsstring :=
  match x with
  | Some (c :: r) => Some (c :: r)
  | _ => None
  end.

(** [arr.includes(s)] for a string [s]. *)
Definition includes (arr : list jsstring) (s : jsstring) : bool :=
  existsb (str_eqb s) arr.

(** [arr.includes(s)] on an array of arbitrary values. *)
Definition includes_value (arr : list JSValue) (s : jsstring) : bool :=
  existsb (fun v => match v with JStr x => str_eqb x s | _ => false end) arr.

(** [tags.some(tag => ticket_tags.includes(tag))] *)
Definition some_tag (tags : list jsstring) (ticket_tags : list JSValue) : bool :=
  existsb (fun tag => includes_value ticket_tags tag) tags.

(** [filters.x?.length]: the list when it is present and not empty. *)
Definition selected {A} (o : option (list A)) : option (list A) :=
  match o with
  | Some (x :: r) => Some (x :: r)
  | _ => None
  end.

(** A condition that is added to a query only when its criterion is set. *)
Definition when {A C} (o : option A) (f : A -> C) : list C :=
  match o with
  | Some a => [f a]
  | None => []
  end.

(** The clock: the value of [new Date().toISOString()]. *)
Record Clock : Type := mkClock { toISOString : jsstring }.

(** [s.split('T')[0]] *)
Fixpoint before_T (s : jsstring) : jsstring :=
  match s with
  | [] => []
  | c :: r => if c =? 84 then [] else c :: before_T r
  end.

(** [new Date().toISOString().split('T')[0]] *)
Definition today (clock : Clock) : jsstring := before_T (toISOString clock).

End Types.

(** ** The ticket hook ([useTickets]) *)

Module UseTickets.
Import JS JSNum Types.
Local Open Scope js_scope.

(** A row of the table [Active Issues] as the client receives it. The two
    tag columns are text columns whose legacy contents may be arrays or
    plain strings. *)
Module Row.
Record t : Type := mk {
  ticket_id : Z;
  status : option TicketStatus;
  issue_description : option jsstring;
  core_team_comment : option jsstring;
  wallet_address_safe_email : option jsstring;
  product : JSValue;
  category : JSValue;
  severity : option Severity;
  date_of_resolved : option jsstring;
  created_at : option jsstring
}.
End Row.

(** The three [useState] cells of the hook. *)
Record State : Type := mkState {
  tickets : list Ticket.t;
  loading : bool;
  error : option jsstring
}.

Definition setTickets (f : list Ticket.t -> list Ticket.t) (st : State) : State :=
  mkState (f (tickets st)) (loading st) (error st).
Definition setLoading (b : bool) (st : State) : State :=
  mkState (tickets st) b (error st).
Definition setError (e : option jsstring) (st : State) : State :=
  mkState (tickets st) (loading st) e.

(** [err instanceof Error ? err.message : fallback] *)
Definition error_text (err : JSError) (fallback : string) : jsstring :=
  if instanceof_Error err then message err else u16 fallback.

(** [typeof item === 'string' && item.trim()] *)
Definition nonblank_string (item : JSValue) : result bool :=
  if typeof_string item then (t <- method_trim item ;; Ok (nonempty t))
  else Ok false.

Definition safeJsonParse (jsonString : JSValue) : result (list JSValue) :=
  if negb (truthy jsonString) then Ok []
  else
    match jsonString with
    | JArr items => filterM nonblank_string items
    | JStr s =>
        try_catch
          (parsed <- JSON_parse s ;;
           match parsed with
           | JArr items => filterM nonblank_string items
           | _ =>
               b <- nonblank_string parsed ;;
               if b then (t <- method_trim parsed ;; Ok [JStr t]) else Ok []
           end)
          (fun _ => if nonempty (trim s) then Ok [JStr (trim s)] else Ok [])
    | _ => Ok []
    end.

(** The result is [null] ([None]) or a string. *)
Definition safeJsonStringify (array : list jsstring) : option jsstring :=
  match array with
  | [] => None
  | _ => Some (JSON_stringify array)
  end.

(** What a text column holding the encoder's result reads back as. *)
Definition column_value (stored : option jsstring) : JSValue :=
  match stored with
  | None => JNull
  | Some s => JStr s
  end.

Definition isNumeric (str : jsstring) : bool :=
  negb (Number_isNaN str) && negb (parseFloat_isNaN str).

(** The callback of the [reduce] over [split('')]. *)
Definition hash_step (a : Z) (b : N) : Z :=
  let a' := (shl a 5 - a + Z.of_N b)%Z in
  band a' a'.

(** The numeric id of a trimmed identifier, in [createTicket] and in
    [updateTicket]. *)
Definition numeric_ticket_id (trimmedTicketId : jsstring) : number :=
  if isNumeric trimmedTicketId then parseInt trimmedTicketId
  else Int (Math_abs (fold_left hash_step trimmedTicketId 0%Z)).

(** The body of the [insert]. *)
Module InsertPayload.
Record t : Type := mk {
  ticket_id : number;
  status : TicketStatus;
  issue_description : jsstring;
  core_team_comment : jsstring;
  wallet_address_safe_email : jsstring;
  product : option jsstring;
  category : option jsstring;
  severity : Severity;
  date_of_resolved : option jsstring;
  created_at : jsstring
}.
End InsertPayload.

(** The object [updateData]. *)
Module UpdatePayload.
Record t : Type := mk {
  status : Field TicketStatus;
  issue_description : Field jsstring;
  core_team_comment : Field jsstring;
  wallet_address_safe_email : Field jsstring;
  product : Field jsstring;
  category : Field jsstring;
  severity : Field Severity;
  ticket_id : Field number;
  date_of_resolved : Field jsstring
}.
End UpdatePayload.

(** The object [updateData] of the bulk status update. *)
Module BulkPayload.
Record t : Type := mk {
  status : TicketStatus;
  date_of_resolved : option jsstring
}.
End BulkPayload.

(** The mapping from a row to a [Ticket], shared by the fetch, the search
    and the insert. *)
Definition transform (clock : Clock) (item : Row.t) : result Ticket.t :=
  product_tags <- safeJsonParse (Row.product item) ;;
  category_tags <- safeJsonParse (Row.category item) ;;
  Ok (Ticket.mk
        (toString (Int (Row.ticket_id item)))
        (toString (Int (Row.ticket_id item)))
        (match Row.status item with Some s => s | None => Not_Started end)
        (or_default (Row.created_at item) (toISOString clock))
        (or_none (Row.date_of_resolved item))
        (or_default (Row.core_team_comment item) [])
        (or_default (Row.issue_description item) [])
        (or_default (Row.wallet_address_safe_email item) [])
        product_tags
        category_tags
        (match Row.severity item with Some s => s | None => SEV_3 end)
        (or_default (Row.created_at item) (toISOString clock))
        (or_default (Row.created_at item) (toISOString clock))).

(** [arr.map(f)] with a callback that may throw. *)
Fixpoint mapM {A B} (f : A -> result B) (l : list A) : result (list B) :=
  match l with
  | [] => Ok []
  | x :: r => y <- f x ;; r' <- mapM f r ;; Ok (y :: r')
  end.

(** The request of [createTicket]: the validation and the inserted row. *)
Definition createTicket_payload (clock : Clock) (data : TicketFormData.t)
  : result InsertPayload.t :=
  match TicketFormData.ticket_id data with
  | None => Throw (mkError true (u16 "Ticket ID is required and cannot be empty"))
  | Some raw =>
      if negb (nonempty raw) || negb (nonempty (trim raw)) then
        Throw (mkError true (u16 "Ticket ID is required and cannot be empty"))
      else
        let trimmedTicketId := trim raw in
        let ticketId := numeric_ticket_id trimmedTicketId in
        Ok (InsertPayload.mk
              ticketId
              (TicketFormData.status data)
              (TicketFormData.issue_description data)
              (TicketFormData.core_team_comments data)
              (TicketFormData.contact_info data)
              (safeJsonStringify (TicketFormData.product_tags data))
              (safeJsonStringify (TicketFormData.category_tags data))
              (TicketFormData.severity data)
              (if status_eqb (TicketFormData.status data) Resolved
               then Some (today clock) else None)
              (toISOString clock))
  end.

(** [createTicket]; [insert] is the call
    [supabase.from('Active Issues').insert([..]).select().single()] followed
    by [if (error) throw error]. *)
Definition createTicket (insert : InsertPayload.t -> result Row.t)
    (clock : Clock) (data : TicketFormData.t) (st : State)
  : State * result Ticket.t :=
  let st := setError None st in
  match (body <- createTicket_payload clock data ;;
         newTicket <- insert body ;;
         transform clock newTicket) with
  | Ok transformedTicket =>
      (setTickets (fun prev => transformedTicket :: prev) st, Ok transformedTicket)
  | Throw err =>
      (setError (Some (error_text err "Failed to create ticket")) st, Throw err)
  end.

(** The object [updateData] that [updateTicket] sends. *)
Definition updateTicket_payload (clock : Clock) (updates : TicketUpdates.t)
  : UpdatePayload.t :=
  let ticket_id :=
    match TicketUpdates.ticket_id updates with
    | Some raw =>
        if nonempty raw && nonempty (trim raw)
        then Val (numeric_ticket_id (trim raw)) else Undefined
    | None => Undefined
    end in
  let date_of_resolved :=
    match TicketUpdates.status updates with
    | Some s => if status_eqb s Resolved then Val (today clock) else Null
    | None => Undefined
    end in
  UpdatePayload.mk
    (of_option (TicketUpdates.status updates))
    (of_option (TicketUpdates.issue_description updates))
    (of_option (TicketUpdates.core_team_comments updates))
    (of_option (TicketUpdates.contact_info updates))
    (match TicketUpdates.product_tags updates with
     | Some tags => or_null (safeJsonStringify tags)
     | None => Null
     end)
    (match TicketUpdates.category_tags updates with
     | Some tags => or_null (safeJsonStringify tags)
     | None => Null
     end)
    (of_option (TicketUpdates.severity updates))
    ticket_id
    date_of_resolved.

(** The replacement of one ticket of the local list by the returned row. *)
Definition merge_row (data : Row.t) (ticket : Ticket.t) : result Ticket.t :=
  product_tags <- safeJsonParse (Row.product data) ;;
  category_tags <- safeJsonParse (Row.category data) ;;
  Ok (Ticket.mk
        (toString (Int (Row.ticket_id data)))
        (toString (Int (Row.ticket_id data)))
        (match Row.status data with Some s => s | None => Ticket.status ticket end)
        (Ticket.date_created ticket)
        (or_none (Row.date_of_resolved data))
        (or_default (Row.core_team_comment data) (Ticket.core_team_comments ticket))
        (or_default (Row.issue_description data) (Ticket.issue_description ticket))
        (or_default (Row.wallet_address_safe_email data) (Ticket.contact_info ticket))
        product_tags
        category_tags
        (match Row.severity data with Some s => s | None => Ticket.severity ticket end)
        (Ticket.created_at ticket)
        (Ticket.updated_at ticket)).

(** [updateTicket]; [update] is the call
    [.update(updateData).eq('ticket_id', parseInt(id)).select().single()].
    The decoder runs inside the state updater; it is evaluated here with the
    rest of the [try] block. *)
Definition updateTicket (update : UpdatePayload.t -> number -> result Row.t)
    (clock : Clock) (id : jsstring) (updates : TicketUpdates.t) (st : State)
  : State * result unit :=
  let st := setError None st in
  match (data <- update (updateTicket_payload clock updates) (parseInt id) ;;
         mapM (fun ticket =>
                 if str_eqb (Ticket.id ticket) id then merge_row data ticket
                 else Ok ticket)
              (tickets st)) with
  | Ok next => (setTickets (fun _ => next) st, Ok tt)
  | Throw err =>
      (setError (Some (error_text err "Failed to update ticket")) st, Throw err)
  end.

Definition deleteTicket (delete : number -> result unit)
    (id : jsstring) (st : State) : State * result unit :=
  let st := setError None st in
  match delete (parseInt id) with
  | Ok _ =>
      (setTickets (filter (fun ticket => negb (str_eqb (Ticket.id ticket) id))) st,
       Ok tt)
  | Throw err =>
      (setError (Some (error_text err "Failed to delete ticket")) st, Throw err)
  end.

Definition bulkDeleteTickets (delete_in : list number -> result unit)
    (ids : list jsstring) (st : State) : State * result unit :=
  let st := setError None st in
  let numericIds := map parseInt ids in
  match delete_in numericIds with
  | Ok _ =>
      (setTickets (filter (fun ticket => negb (includes ids (Ticket.id ticket)))) st,
       Ok tt)
  | Throw err =>
      (setError (Some (error_text err "Failed to delete tickets")) st, Throw err)
  end.

Definition bulkUpdateTicketStatus_payload (clock : Clock) (status : TicketStatus)
  : BulkPayload.t :=
  BulkPayload.mk status
    (if status_eqb status Resolved then Some (today clock) else None).

Definition set_status (clock : Clock) (status : TicketStatus) (ticket : Ticket.t)
  : Ticket.t :=
  Ticket.mk
    (Ticket.id ticket) (Ticket.ticket_id ticket)
    status
    (Ticket.date_created ticket)
    (if status_eqb status Resolved then Some (today clock) else None)
    (Ticket.core_team_comments ticket) (Ticket.issue_description ticket)
    (Ticket.contact_info ticket) (Ticket.product_tags ticket)
    (Ticket.category_tags ticket) (Ticket.severity ticket)
    (Ticket.created_at ticket) (Ticket.updated_at ticket).

Definition bulkUpdateTicketStatus
    (update_in : BulkPayload.t -> list number -> result unit)
    (clock : Clock) (ids : list jsstring) (status : TicketStatus) (st : State)
  : State * result unit :=
  let st := setError None st in
  let numericIds := map parseInt ids in
  match update_in (bulkUpdateTicketStatus_payload clock status) numericIds with
  | Ok _ =>
      (setTickets
         (map (fun ticket =>
                 if includes ids (Ticket.id ticket)
                 then set_status clock status ticket else ticket)) st,
       Ok tt)
  | Throw err =>
      (setError (Some (error_text err "Failed to update ticket status")) st,
       Throw err)
  end.

(** A query on [Active Issues]: [select('*')] ordered by [created_at],
    newest first, with the filters chained onto it. *)
Inductive Filter : Type :=
| in_status (values : list TicketStatus)
| in_severity (values : list Severity)
| or_ (expression : jsstring)
| gte_created_at (value : jsstring)
| lte_created_at (value : jsstring).

Definition Query := list Filter.

Definition fetchTickets (select : Query -> result (list Row.t))
    (clock : Clock) (st : State) : State * result unit :=
  let st := setError None (setLoading true st) in
  match (data <- select [] ;; mapM (transform clock) data) with
  | Ok transformedTickets =>
      (setLoading false (setTickets (fun _ => transformedTickets) st), Ok tt)
  | Throw err =>
      (setLoading false
         (setError (Some (error_text err "Failed to fetch tickets")) st), Ok tt)
  end.

(** The argument of [query.or(...)] for a search text. *)
Definition or_expression (searchQuery : jsstring) : jsstring :=
  let ilike column := column ++ u16 ".ilike.%" ++ searchQuery ++ u16 "%" in
  let text :=
    ilike (u16 "issue_description") ++ u16 ","
    ++ ilike (u16 "core_team_comment") ++ u16 ","
    ++ ilike (u16 "wallet_address_safe_email") in
  if isNumeric searchQuery
  then text ++ u16 ",ticket_id.eq." ++ searchQuery
  else text.

(** The query that [searchTickets] sends. *)
Definition searchTickets_query (filters : SearchFilters.t) : Query :=
  when (selected (SearchFilters.status filters)) in_status
  ++ when (selected (SearchFilters.severity filters)) in_severity
  ++ when (or_none (SearchFilters.search_query filters))
          (fun q => or_ (or_expression (trim q)))
  ++ when (or_none (SearchFilters.date_range_start filters)) gte_created_at
  ++ when (or_none (SearchFilters.date_range_end filters)) lte_created_at.

(** The two client-side filters of [searchTickets]. *)
Definition filter_by_tags (filters : SearchFilters.t) (l : list Ticket.t)
  : list Ticket.t :=
  let l1 :=
    match selected (SearchFilters.product_tags filters) with
    | Some tags => filter (fun ticket => some_tag tags (Ticket.product_tags ticket)) l
    | None => l
    end in
  match selected (SearchFilters.category_tags filters) with
  | Some tags => filter (fun ticket => some_tag tags (Ticket.category_tags ticket)) l1
  | None => l1
  end.

Definition searchTickets (select : Query -> result (list Row.t))
    (clock : Clock) (filters : SearchFilters.t) (st : State)
  : State * result unit :=
  let st := setError None (setLoading true st) in
  match (data <- select (searchTickets_query filters) ;;
         transformedTickets <- mapM (transform clock) data ;;
         Ok (filter_by_tags filters transformedTickets)) with
  | Ok transformedTickets =>
      (setLoading false (setTickets (fun _ => transformedTickets) st), Ok tt)
  | Throw err =>
      (setLoading false
         (setError (Some (error_text err "Failed to search tickets")) st), Ok tt)
  end.

(** [uniqueTags.add(x)] on a set kept in insertion order. *)
Definition Set_add (uniqueTags : list jsstring) (x : jsstring) : list jsstring :=
  if includes uniqueTags x then uniqueTags else uniqueTags ++ [x].

(** [arr.forEach(f)] with a callback that updates an accumulator and may
    throw. *)
Fixpoint forEachM {A B} (f : B -> A -> result B) (l : list A) (acc : B)
  : result B :=
  match l with
  | [] => Ok acc
  | x :: r => acc' <- f acc x ;; forEachM f r acc'
  end.

(** [if (tag && tag.trim()) uniqueTags.add(tag.trim())] *)
Definition add_tag (uniqueTags : list jsstring) (tag : JSValue)
  : result (list jsstring) :=
  if truthy tag then
    t <- method_trim tag ;;
    if nonempty t then Ok (Set_add uniqueTags t) else Ok uniqueTags
  else Ok uniqueTags.

(** The tags collected and sorted by [getUniqueTagsFromSupabase]. *)
Definition collect_tags (column : list JSValue) : result (list jsstring) :=
  uniqueTags <-
    forEachM (fun acc item => tags <- safeJsonParse item ;; forEachM add_tag tags acc)
             column [] ;;
  Ok (Array_sort uniqueTags).

(** [getUniqueTagsFromSupabase]; [select_column] is the call
    [.select(columnName).not(columnName, 'is', null)]. The hook state is not
    touched. *)
Definition getUniqueTagsFromSupabase (select_column : bool -> result (list JSValue))
    (product : bool) (st : State) : State * result (list jsstring) :=
  match (data <- select_column product ;; collect_tags data) with
  | Ok uniqueTags => (st, Ok uniqueTags)
  | Throw _ => (st, Ok [])
  end.

(** [getUniqueTagsFromMemory], on the tickets held by the hook. *)
Definition getUniqueTagsFromMemory (product : bool) (st : State)
  : result (list jsstring) :=
  uniqueTags <-
    forEachM
      (fun acc ticket =>
         forEachM add_tag
           (if product then Ticket.product_tags ticket
            else Ticket.category_tags ticket) acc)
      (tickets st) [] ;;
  Ok (Array_sort uniqueTags).

End UseTickets.

(** ** The feedback hook ([useFeedback]) and the form effect *)

Module UseFeedback.
Import JS JSNum Types.
Local Open Scope js_scope.

(** A row of the table [feedback_requests]. *)
Module Row.
Record t : Type := mk {
  id : Z;
  ticket_id : option Z;
  platform : option Platform;
  product : option jsstring;
  description : option jsstring;
  core_team_acknowledgement : option bool;
  shipped : option bool;
  shipping_date : option jsstring;
  created_at : option jsstring
}.
End Row.

Record State : Type := mkState {
  feedback : list Feedback.t;
  loading : bool;
  error : option jsstring
}.

Definition setFeedback (f : list Feedback.t -> list Feedback.t) (st : State) : State :=
  mkState (f (feedback st)) (loading st) (error st).
Definition setLoading (b : bool) (st : State) : State :=
  mkState (feedback st) b (error st).
Definition setError (e : option jsstring) (st : State) : State :=
  mkState (feedback st) (loading st) e.

Definition error_text (err : JSError) (fallback : string) : jsstring :=
  if instanceof_Error err then message err else u16 fallback.

(** The body of the [insert] and of the [update] ([created_at] is left out
    of an update). *)
Module Payload.
Record t : Type := mk {
  ticket_id : Field number;
  platform : Field Platform;
  product : Field jsstring;
  description : Field jsstring;
  core_team_acknowledgement : Field bool;
  shipped : Field bool;
  shipping_date : Field jsstring;
  created_at : Field jsstring
}.
End Payload.

(** [n || null] on a number that may be missing. *)
Definition nonzero (n : option Z) : option Z :=
  match n with
  | Some 0%Z => None
  | _ => n
  end.

Definition transform (clock : Clock) (item : Row.t) : Feedback.t :=
  Feedback.mk
    (toString (Int (Row.id item)))
    (nonzero (Row.ticket_id item))
    (or_default (Row.created_at item) (toISOString clock))
    (match Row.platform item with Some p => p | None => Intercom end)
    (or_default (Row.product item) [])
    (or_default (Row.description item) [])
    (Row.core_team_acknowledgement item)
    (Row.shipped item)
    (or_none (Row.shipping_date item)).

(** Truthiness of a flag that may be missing. *)
Definition is_true (b : option bool) : bool :=
  match b with Some true => true | _ => false end.

(** [data.ticket_id ? parseInt(data.ticket_id) : null] *)
Definition ticket_reference (ticket_id : option jsstring) : Field number :=
  match or_none ticket_id with
  | Some s => Val (parseInt s)
  | None => Null
  end.

(** [shipped && shipping_date ? shipping_date : null] *)
Definition shipping_date_or_null (shipped : option bool)
    (shipping_date : option jsstring) : Field jsstring :=
  if is_true shipped
  then or_null (or_none shipping_date)
  else Null.

(** The row that [createFeedback] inserts. *)
Definition createFeedback_payload (clock : Clock) (data : FeedbackFormData.t)
  : Payload.t :=
  Payload.mk
    (ticket_reference (FeedbackFormData.ticket_id data))
    (of_option (FeedbackFormData.platform data))
    (or_null (or_none (FeedbackFormData.product data)))
    (or_null (or_none (FeedbackFormData.description data)))
    (of_option (FeedbackFormData.core_team_acknowledgement data))
    (of_option (FeedbackFormData.shipped data))
    (shipping_date_or_null (FeedbackFormData.shipped data)
                           (FeedbackFormData.shipping_date data))
    (Val (or_default (FeedbackFormData.created_at data) (toISOString clock))).

Definition createFeedback (insert : Payload.t -> result Row.t)
    (clock : Clock) (data : FeedbackFormData.t) (st : State)
  : State * result Feedback.t :=
  let st := setError None st in
  match insert (createFeedback_payload clock data) with
  | Ok newFeedback =>
      let transformedFeedback := transform clock newFeedback in
      (setFeedback (fun prev => transformedFeedback :: prev) st,
       Ok transformedFeedback)
  | Throw err =>
      (setError (Some (error_text err "Failed to create feedback")) st, Throw err)
  end.

(** The object [updateData] that [updateFeedback] sends. *)
Definition updateFeedback_payload (clock : Clock) (updates : FeedbackFormData.t)
  : Payload.t :=
  let shipping_date :=
    if is_true (FeedbackFormData.shipped updates)
       && negb (match or_none (FeedbackFormData.shipping_date updates) with
                | Some _ => true
                | None => false
                end)
    then Val (today clock)
    else shipping_date_or_null (FeedbackFormData.shipped updates)
                               (FeedbackFormData.shipping_date updates) in
  Payload.mk
    (ticket_reference (FeedbackFormData.ticket_id updates))
    (of_option (FeedbackFormData.platform updates))
    (or_null (or_none (FeedbackFormData.product updates)))
    (or_null (or_none (FeedbackFormData.description updates)))
    (of_option (FeedbackFormData.core_team_acknowledgement updates))
    (of_option (FeedbackFormData.shipped updates))
    shipping_date
    Undefined.

Definition merge_row (data : Row.t) (item : Feedback.t) : Feedback.t :=
  Feedback.mk
    (Feedback.id item)
    (nonzero (Row.ticket_id data))
    (Feedback.created_at item)
    (match Row.platform data with Some p => p | None => Feedback.platform item end)
    (or_default (Row.product data) [])
    (or_default (Row.description data) [])
    (Row.core_team_acknowledgement data)
    (Row.shipped data)
    (or_none (Row.shipping_date data)).

Definition updateFeedback (update : Payload.t -> number -> result Row.t)
    (clock : Clock) (id : jsstring) (updates : FeedbackFormData.t) (st : State)
  : State * result unit :=
  let st := setError None st in
  match update (updateFeedback_payload clock updates) (parseInt id) with
  | Ok data =>
      (setFeedback
         (map (fun item => if str_eqb (Feedback.id item) id
                           then merge_row data item else item)) st,
       Ok tt)
  | Throw err =>
      (setError (Some (error_text err "Failed to update feedback")) st, Throw err)
  end.

Definition deleteFeedback (delete : number -> result unit)
    (id : jsstring) (st : State) : State * result unit :=
  let st := setError None st in
  match delete (parseInt id) with
  | Ok _ =>
      (setFeedback (filter (fun item => negb (str_eqb (Feedback.id item) id))) st,
       Ok tt)
  | Throw err =>
      (setError (Some (error_text err "Failed to delete feedback")) st, Throw err)
  end.

Definition bulkDeleteFeedback (delete_in : list number -> result unit)
    (ids : list jsstring) (st : State) : State * result unit :=
  let st := setError None st in
  let numericIds := map parseInt ids in
  match delete_in numericIds with
  | Ok _ =>
      (setFeedback (filter (fun item => negb (includes ids (Feedback.id item)))) st,
       Ok tt)
  | Throw err =>
      (setError (Some (error_text err "Failed to delete feedback")) st, Throw err)
  end.

(** [interface FeedbackSearchFilters] *)
Module SearchFilters.
Record t : Type := mk {
  search_query : option jsstring;
  platform : option (list Platform);
  product : option (list jsstring);
  core_team_acknowledgement : option bool;
  shipped : option bool;
  date_range_start : option jsstring;
  date_range_end : option jsstring
}.
End SearchFilters.

Inductive Filter : Type :=
| in_platform (values : list Platform)
| eq_core_team_acknowledgement (value : bool)
| eq_shipped (value : bool)
| or_ (expression : jsstring)
| ilike_description (pattern : jsstring)
| gte_created_at (value : jsstring)
| lte_created_at (value : jsstring).

Definition Query := list Filter.

Definition fetchFeedback (select : Query -> result (list Row.t))
    (clock : Clock) (st : State) : State * result unit :=
  let st := setError None (setLoading true st) in
  match select [] with
  | Ok data =>
      (setLoading false (setFeedback (fun _ => map (transform clock) data) st),
       Ok tt)
  | Throw err =>
      (setLoading false
         (setError (Some (error_text err "Failed to fetch feedback")) st), Ok tt)
  end.

Definition text_filter (searchQuery : jsstring) : Filter :=
  if negb (Number_isNaN searchQuery)
  then or_ (u16 "description.ilike.%" ++ searchQuery ++ u16 "%,ticket_id.eq."
            ++ searchQuery)
  else ilike_description (u16 "%" ++ searchQuery ++ u16 "%").

Definition searchFeedback_query (filters : SearchFilters.t) : Query :=
  when (selected (SearchFilters.platform filters)) in_platform
  ++ when (SearchFilters.core_team_acknowledgement filters)
          eq_core_team_acknowledgement
  ++ when (SearchFilters.shipped filters) eq_shipped
  ++ when (or_none (SearchFilters.search_query filters))
          (fun q => text_filter (trim q))
  ++ when (or_none (SearchFilters.date_range_start filters)) gte_created_at
  ++ when (or_none (SearchFilters.date_range_end filters)) lte_created_at.

Definition filter_by_product (filters : SearchFilters.t) (l : list Feedback.t)
  : list Feedback.t :=
  match selected (SearchFilters.product filters) with
  | Some products =>
      filter (fun item => existsb (str_eqb (Feedback.product item)) products) l
  | None => l
  end.

Definition searchFeedback (select : Query -> result (list Row.t))
    (clock : Clock) (filters : SearchFilters.t) (st : State)
  : State * result unit :=
  let st := setError None (setLoading true st) in
  match select (searchFeedback_query filters) with
  | Ok data =>
      (setLoading false
         (setFeedback
            (fun _ => filter_by_product filters (map (transform clock) data)) st),
       Ok tt)
  | Throw err =>
      (setLoading false
         (setError (Some (error_text err "Failed to search feedback")) st), Ok tt)
  end.

(** The effect of [FeedbackForm] that runs when [formData.shipped] changes. *)
Definition shipped_effect (clock : Clock) (formData : FeedbackFormData.t)
  : FeedbackFormData.t :=
  let with_date d :=
    FeedbackFormData.mk
      (FeedbackFormData.ticket_id formData) (FeedbackFormData.created_at formData)
      (FeedbackFormData.platform formData) (FeedbackFormData.product formData)
      (FeedbackFormData.description formData)
      (FeedbackFormData.core_team_acknowledgement formData)
      (FeedbackFormData.shipped formData) d in
  match FeedbackFormData.shipped formData with
  | Some true =>
      match or_none (FeedbackFormData.shipping_date formData) with
      | Some _ => formData
      | None => with_date (Some (today clock))
      end
  | Some false => with_date (Some [])
  | None => formData
  end.

End UseFeedback.

(** ** The Notion client ([services/notion.ts]) *)

Module NotionClient.
Import JS.

(** The value of [getNotionCredentials()]; a credential that is not set is
    the empty string. *)
Record Credentials : Type := mkCredentials {
  token : jsstring;
  databaseId : jsstring
}.

Definition new_Error (message : string) : JSError := mkError true (u16 message).

(** [createNotionClient()] *)
Definition createNotionClient (credentials : Credentials) : result unit :=
  if nonempty (token credentials) then Ok tt
  else Throw (new_Error
    "Notion token not configured. Please configure your Notion integration token in Settings.").

(** The [catch] block of every operation: an [Error] is thrown again,
    anything else is replaced by a new [Error]. *)
Definition rethrow {A} (fallback : string) (error : JSError) : result A :=
  if instanceof_Error error then Throw error else Throw (new_Error fallback).

End NotionClient.

(** ** The Notion adapter ([services/notion.ts]) *)

Module Notion.
Import JS JSNum Types.
Local Open Scope js_scope.

Fixpoint starts_with (p s : jsstring) : bool :=
  match p, s with
  | [], _ => true
  | x :: p', y :: s' => (x =? y) && starts_with p' s'
  | _ :: _, [] => false
  end.

(** [s.includes(q)] on strings. *)
Fixpoint str_includes (s q : jsstring) : bool :=
  starts_with q s
  || match s with
     | [] => false
     | _ :: s' => str_includes s' q
     end.

(** The properties of a page of the tickets database that the adapter reads
    or filters on; a property that is missing or empty is [None]. *)
Module Page.
Record t : Type := mk {
  id : jsstring;
  Ticket_ID : option jsstring;
  Status : option TicketStatus;
  Date_Created : option jsstring;
  Date_Resolved : option jsstring;
  Core_Team_Comments : option jsstring;
  Issue_Description : option jsstring;
  Wallet_Address_Safe_Cash_ID_Email : option jsstring;
  Contact_Info : option jsstring;
  Product_Tags : option (list jsstring);
  Category_Tags : option (list jsstring);
  Severity_ : option Severity;
  created_time : jsstring;
  last_edited_time : jsstring
}.
End Page.

Definition notionPageToTicket (clock : Clock) (page : Page.t) : Ticket.t :=
  Ticket.mk
    (Page.id page)
    (or_default (Page.Ticket_ID page) [])
    (match Page.Status page with Some s => s | None => Not_Started end)
    (or_default (Page.Date_Created page) (toISOString clock))
    (or_none (Page.Date_Resolved page))
    (or_default (Page.Core_Team_Comments page) [])
    (or_default (Page.Issue_Description page) [])
    (match or_none (Page.Wallet_Address_Safe_Cash_ID_Email page) with
     | Some s => s
     | None => or_default (Page.Contact_Info page) []
     end)
    (map JStr (match Page.Product_Tags page with Some l => l | None => [] end))
    (map JStr (match Page.Category_Tags page with Some l => l | None => [] end))
    (match Page.Severity_ page with Some s => s | None => SEV_3 end)
    (Page.created_time page)
    (Page.last_edited_time page).

(** The members of [filter.and]. *)
Inductive Condition : Type :=
| Status_equals (value : TicketStatus)
| Severity_equals (value : Severity)
| Date_Created_on_or_after (value : jsstring)
| Date_Created_on_or_before (value : jsstring).

(** [filters.x[0]] under the guard [filters.x?.length]. *)
Definition first {A} (o : option (list A)) : option A :=
  match o with
  | Some (x :: _) => Some x
  | _ => None
  end.

(** The filter that [searchTickets] sends with the database query. *)
Definition searchTickets_filter (filters : SearchFilters.t) : list Condition :=
  when (first (SearchFilters.status filters)) Status_equals
  ++ when (first (SearchFilters.severity filters)) Severity_equals
  ++ when (or_none (SearchFilters.date_range_start filters)) Date_Created_on_or_after
  ++ when (or_none (SearchFilters.date_range_end filters)) Date_Created_on_or_before.

Section Adapter.

(** [String.prototype.toLowerCase] *)
Variable toLowerCase : jsstring -> jsstring.

(** The callback of the text filter. *)
Definition text_matches (query : jsstring) (ticket : Ticket.t) : bool :=
  str_includes (toLowerCase (Ticket.issue_description ticket)) query
  || str_includes (toLowerCase (Ticket.core_team_comments ticket)) query
  || str_includes (toLowerCase (Ticket.contact_info ticket)) query
  || str_includes (toLowerCase (Ticket.ticket_id ticket)) query.

(** The client-side part of [searchTickets]. *)
Definition client_filters (filters : SearchFilters.t) (results : list Ticket.t)
  : list Ticket.t :=
  let r1 :=
    match or_none (SearchFilters.search_query filters) with
    | Some q => filter (text_matches (toLowerCase q)) results
    | None => results
    end in
  let r2 :=
    match selected (SearchFilters.product_tags filters) with
    | Some tags =>
        filter (fun ticket => some_tag tags (Ticket.product_tags ticket)) r1
    | None => r1
    end in
  match selected (SearchFilters.category_tags filters) with
  | Some tags =>
      filter (fun ticket => some_tag tags (Ticket.category_tags ticket)) r2
  | None => r2
  end.

(** [ticketService.searchTickets]; [databases_query] is the call
    [notion.databases.query] with the filter (sorted by [Date Created],
    newest first). The database id is checked first and the token second,
    before any call. An exception is logged and thrown again, a thrown
    value that is not an [Error] as a new [Error]. *)
Definition searchTickets (databases_query : list Condition -> result (list Page.t))
    (credentials : NotionClient.Credentials) (clock : Clock)
    (filters : SearchFilters.t) : result (list Ticket.t) :=
  try_catch
    (if negb (nonempty (NotionClient.databaseId credentials)) then
       Throw (NotionClient.new_Error
         "Notion database ID not configured. Please configure your database ID in Settings.")
     else
       _ <- NotionClient.createNotionClient credentials ;;
       response <- databases_query (searchTickets_filter filters) ;;
       Ok (client_filters filters (map (notionPageToTicket clock) response)))
    (NotionClient.rethrow "Failed to search tickets in Notion").

End Adapter.

End Notion.

(** ** Reference semantics of the two backends *)

Module Backend.
Import JS JSNum Types.

(** Lower-casing of the letters [A] to [Z]; an instance of [toLowerCase]
    for texts in that range. *)
Definition ascii_lower (s : jsstring) : jsstring :=
  map (fun c => if (65 <=? c) && (c <=? 90) then c + 32 else c) s.

(** On timestamps in one ISO-8601 format the code-unit order of strings is
    the order of time; an instance of the date comparison. *)
Definition iso_leb (a b : jsstring) : bool := str_leb a b.

(** What a write leaves in a column: an [undefined] property is not
    serialised and leaves the column as it was, [null] clears it, a value
    replaces it. *)
Definition assign {A} (f : Field A) (old : option A) : option A :=
  match f with
  | Undefined => old
  | Null => None
  | Val a => Some a
  end.

Definition assign_text (f : Field jsstring) (old : JSValue) : JSValue :=
  match f with
  | Undefined => old
  | Null => JNull
  | Val s => JStr s
  end.

(** The text before the first [sep] and the text after it. *)
Fixpoint cut_at (sep : N) (s : jsstring) : option (jsstring * jsstring) :=
  match s with
  | [] => None
  | c :: r =>
      if c =? sep then Some ([], r)
      else match cut_at sep r with
           | Some (a, b) => Some (c :: a, b)
           | None => None
           end
  end.

(** The pieces between the occurrences of [sep]. *)
Fixpoint split_at (sep : N) (s : jsstring) : list jsstring :=
  match s with
  | [] => [[]]
  | c :: r =>
      if c =? sep then [] :: split_at sep r
      else match split_at sep r with
           | piece :: pieces => (c :: piece) :: pieces
           | [] => [[c]]
           end
  end.

(** The integer a [bigint] column is compared with: an optional sign and
    decimal digits, within the range of the type. *)
Definition integer_literal (value : jsstring) : option Z :=
  let digits := strip_sign value in
  if nonempty digits && forallb is_digit digits then
    let magnitude := digits_value 10 digits in
    let z :=
      if match value with c :: _ => c =? 45 | [] => false end
      then (- magnitude)%Z else magnitude in
    if ((- 2 ^ 63 <=? z) && (z <? 2 ^ 63))%Z then Some z else None
  else None.

(** The row as the client receives it: the [bigint] id arrives as a JSON
    number and is read as a double. *)
Definition received (row : UseTickets.Row.t) : UseTickets.Row.t :=
  UseTickets.Row.mk
    (let id := UseTickets.Row.ticket_id row in
     if (id <? 0)%Z then (- round_to_double (- id))%Z else round_to_double id)
    (UseTickets.Row.status row)
    (UseTickets.Row.issue_description row)
    (UseTickets.Row.core_team_comment row)
    (UseTickets.Row.wallet_address_safe_email row)
    (UseTickets.Row.product row)
    (UseTickets.Row.category row)
    (UseTickets.Row.severity row)
    (UseTickets.Row.date_of_resolved row)
    (UseTickets.Row.created_at row).

Section Postgres.

(** The database's lower-casing of a character, and its comparison of a
    timestamp column ([None] is SQL NULL) with a bound. *)
Variable fold_case : N -> N.
Variable timestamp_leb : jsstring -> jsstring -> bool.

(** [text ILIKE pattern], for a pattern without the escape character: [%]
    (written [*] as well in a request) stands for any run of characters,
    [_] for any one character, and every other character for itself, the
    letter case aside. *)
Fixpoint ilike (pattern : jsstring) : jsstring -> bool :=
  match pattern with
  | [] => fun text => match text with [] => true | _ :: _ => false end
  | p :: pattern' =>
      if (p =? 37) || (p =? 42) then
        fix any_run (text : jsstring) : bool :=
          ilike pattern' text
          || match text with
             | [] => false
             | _ :: text' => any_run text'
             end
      else
        fun text =>
          match text with
          | [] => false
          | c :: text' =>
              ((p =? 95) || (fold_case p =? fold_case c)) && ilike pattern' text'
          end
  end.

(** The text columns of [Active Issues] that the search names. *)
Definition text_column (column : jsstring) (row : UseTickets.Row.t)
  : option (option jsstring) :=
  if str_eqb column (u16 "issue_description")
  then Some (UseTickets.Row.issue_description row)
  else if str_eqb column (u16 "core_team_comment")
  then Some (UseTickets.Row.core_team_comment row)
  else if str_eqb column (u16 "wallet_address_safe_email")
  then Some (UseTickets.Row.wallet_address_safe_email row)
  else None.

(** One condition [column.operator.value] of an [or=(...)] parameter, for
    the two operators the hook writes; a comparison with SQL NULL does not
    hold. *)
Definition condition_holds (condition : jsstring) (row : UseTickets.Row.t) : bool :=
  match cut_at 46 condition with
  | Some (column, rest) =>
      match cut_at 46 rest with
      | Some (operator, value) =>
          if str_eqb operator (u16 "ilike") then
            match text_column column row with
            | Some (Some text) => ilike value text
            | _ => false
            end
          else if str_eqb operator (u16 "eq") && str_eqb column (u16 "ticket_id") then
            match integer_literal value with
            | Some z => (UseTickets.Row.ticket_id row =? z)%Z
            | None => false
            end
          else false
      | None => false
      end
  | None => false
  end.

(** The database's evaluation of an [or=(...)] parameter on a row: the
    conditions are separated by commas, and one of them holds. *)
Definition or_holds (expression : jsstring) (row : UseTickets.Row.t) : bool :=
  existsb (fun condition => condition_holds condition row) (split_at 44 expression).

Definition holds (f : UseTickets.Filter) (row : UseTickets.Row.t) : bool :=
  match f with
  | UseTickets.in_status values =>
      match UseTickets.Row.status row with
      | Some s => existsb (status_eqb s) values
      | None => false
      end
  | UseTickets.in_severity values =>
      match UseTickets.Row.severity row with
      | Some s => existsb (severity_eqb s) values
      | None => false
      end
  | UseTickets.or_ expression => or_holds expression row
  | UseTickets.gte_created_at value =>
      match UseTickets.Row.created_at row with
      | Some d => timestamp_leb value d
      | None => false
      end
  | UseTickets.lte_created_at value =>
      match UseTickets.Row.created_at row with
      | Some d => timestamp_leb d value
      | None => false
      end
  end.

(** The rows a query returns from a table (kept in the requested order),
    as the client receives them. *)
Definition select (table : list UseTickets.Row.t) (query : UseTickets.Query)
  : list UseTickets.Row.t :=
  map received (filter (fun row => forallb (fun f => holds f row) query) table).

End Postgres.

(** The row of [Active Issues] after an update of it with the given body. *)
Definition updated (body : UseTickets.UpdatePayload.t) (row : UseTickets.Row.t)
  : UseTickets.Row.t :=
  UseTickets.Row.mk
    (match UseTickets.UpdatePayload.ticket_id body with
     | Val (Int z) => z
     | _ => UseTickets.Row.ticket_id row
     end)
    (assign (UseTickets.UpdatePayload.status body) (UseTickets.Row.status row))
    (assign (UseTickets.UpdatePayload.issue_description body)
            (UseTickets.Row.issue_description row))
    (assign (UseTickets.UpdatePayload.core_team_comment body)
            (UseTickets.Row.core_team_comment row))
    (assign (UseTickets.UpdatePayload.wallet_address_safe_email body)
            (UseTickets.Row.wallet_address_safe_email row))
    (assign_text (UseTickets.UpdatePayload.product body) (UseTickets.Row.product row))
    (assign_text (UseTickets.UpdatePayload.category body) (UseTickets.Row.category row))
    (assign (UseTickets.UpdatePayload.severity body) (UseTickets.Row.severity row))
    (assign (UseTickets.UpdatePayload.date_of_resolved body)
            (UseTickets.Row.date_of_resolved row))
    (UseTickets.Row.created_at row).

(** The row after the bulk status update. *)
Definition bulk_updated (body : UseTickets.BulkPayload.t) (row : UseTickets.Row.t)
  : UseTickets.Row.t :=
  UseTickets.Row.mk
    (UseTickets.Row.ticket_id row)
    (Some (UseTickets.BulkPayload.status body))
    (UseTickets.Row.issue_description row)
    (UseTickets.Row.core_team_comment row)
    (UseTickets.Row.wallet_address_safe_email row)
    (UseTickets.Row.product row)
    (UseTickets.Row.category row)
    (UseTickets.Row.severity row)
    (UseTickets.BulkPayload.date_of_resolved body)
    (UseTickets.Row.created_at row).

(** The row an insert creates, for an integer id. *)
Definition inserted (ticket_id : Z) (body : UseTickets.InsertPayload.t)
  : UseTickets.Row.t :=
  UseTickets.Row.mk
    ticket_id
    (Some (UseTickets.InsertPayload.status body))
    (Some (UseTickets.InsertPayload.issue_description body))
    (Some (UseTickets.InsertPayload.core_team_comment body))
    (Some (UseTickets.InsertPayload.wallet_address_safe_email body))
    (UseTickets.column_value (UseTickets.InsertPayload.product body))
    (UseTickets.column_value (UseTickets.InsertPayload.category body))
    (Some (UseTickets.InsertPayload.severity body))
    (UseTickets.InsertPayload.date_of_resolved body)
    (Some (UseTickets.InsertPayload.created_at body)).

(** The row of [feedback_requests] after a write of it with the given body
    ([insert] starts from the empty row). *)
Definition feedback_written (body : UseFeedback.Payload.t) (row : UseFeedback.Row.t)
  : UseFeedback.Row.t :=
  UseFeedback.Row.mk
    (UseFeedback.Row.id row)
    (match UseFeedback.Payload.ticket_id body with
     | Val (Int z) => Some z
     | Undefined => UseFeedback.Row.ticket_id row
     | _ => None
     end)
    (assign (UseFeedback.Payload.platform body) (UseFeedback.Row.platform row))
    (assign (UseFeedback.Payload.product body) (UseFeedback.Row.product row))
    (assign (UseFeedback.Payload.description body) (UseFeedback.Row.description row))
    (assign (UseFeedback.Payload.core_team_acknowledgement body)
            (UseFeedback.Row.core_team_acknowledgement row))
    (assign (UseFeedback.Payload.shipped body) (UseFeedback.Row.shipped row))
    (assign (UseFeedback.Payload.shipping_date body)
            (UseFeedback.Row.shipping_date row))
    (assign (UseFeedback.Payload.created_at body) (UseFeedback.Row.created_at row)).

Section NotionDatabase.

(** The order of dates the database filters with. *)
Variable date_leb : jsstring -> jsstring -> bool.

Definition satisfies (c : Notion.Condition) (page : Notion.Page.t) : bool :=
  match c with
  | Notion.Status_equals value =>
      match Notion.Page.Status page with
      | Some s => status_eqb s value
      | None => false
      end
  | Notion.Severity_equals value =>
      match Notion.Page.Severity_ page with
      | Some s => severity_eqb s value
      | None => false
      end
  | Notion.Date_Created_on_or_after value =>
      match Notion.Page.Date_Created page with
      | Some d => date_leb value d
      | None => false
      end
  | Notion.Date_Created_on_or_before value =>
      match Notion.Page.Date_Created page with
      | Some d => date_leb d value
      | None => false
      end
  end.

(** The pages a database query returns. *)
Definition query (pages : list Notion.Page.t) (conditions : list Notion.Condition)
  : list Notion.Page.t :=
  filter (fun page => forallb (fun c => satisfies c page) conditions) pages.

End NotionDatabase.

End Backend.

(** ** Vocabulary of the specification *)

Module Spec.
Import JS JSNum Types.

(** A non-blank string element: a string with a character that is not
    whitespace. *)
Definition nonblank (v : JSValue) : bool :=
  match v with
  | JStr s => nonempty (trim s)
  | _ => false
  end.

(** The list the tag decoder returns for a stored value, written without
    exceptions: by the shape of the value and, for a string, by the outcome
    of [JSON.parse]. *)
Definition decoded (stored : JSValue) : list JSValue :=
  match stored with
  | JArr items => filter nonblank items
  | JStr [] => []
  | JStr s =>
      match JSON_parse s with
      | Ok (JArr items) => filter nonblank items
      | Ok (JStr p) => if nonempty (trim p) then [JStr (trim p)] else []
      | Ok _ => []
      | Throw _ => if nonempty (trim s) then [JStr (trim s)] else []
      end
  | _ => []
  end.

(** A tag as the forms produce it: not empty and already trimmed. *)
Definition trimmed_tag (s : jsstring) : Prop := s <> [] /\ trim s = s.

(** Wrap-around of a 32-bit signed integer. *)
Definition wrap32 (z : Z) : Z :=
  ((z + 2 ^ 31) mod 2 ^ 32 - 2 ^ 31)%Z.

(** The multiply-shift accumulation of the specification:
    [h := wrap32 ((h << 5) - h + charCode)], from 0, over the characters. *)
Definition multiply_shift_hash (s : jsstring) : Z :=
  fold_left (fun h c => wrap32 (Z.shiftl h 5 - h + Z.of_N c)) s 0%Z.

(** The value a column holds after a write in which the caller's field is
    passed through: the supplied value, or the stored one when the field
    is omitted. *)
Definition supplied_or_kept {A} (supplied old : option A) : option A :=
  match supplied with
  | Some a => Some a
  | None => old
  end.

(** [l'] is [l] with precisely the tickets whose id is in [ids] removed,
    the others unchanged and in their original order. *)
Inductive removed (ids : list jsstring) : list Ticket.t -> list Ticket.t -> Prop :=
| removed_nil : removed ids [] []
| removed_drop t l l' :
    In (Ticket.id t) ids -> removed ids l l' -> removed ids (t :: l) l'
| removed_keep t l l' :
    ~ In (Ticket.id t) ids -> removed ids l l' -> removed ids (t :: l) (t :: l').

(** A failed operation of the ticket hook left the list as it was and the
    error string set from the exception. *)
Definition ticket_failure_reported (st st' : UseTickets.State) (err : JSError)
    (fallback : string) : Prop :=
  UseTickets.tickets st' = UseTickets.tickets st
  /\ UseTickets.error st'
     = Some (if instanceof_Error err then message err else u16 fallback).

(** The same for the feedback hook. *)
Definition feedback_failure_reported (st st' : UseFeedback.State) (err : JSError)
    (fallback : string) : Prop :=
  UseFeedback.feedback st' = UseFeedback.feedback st
  /\ UseFeedback.error st'
     = Some (if instanceof_Error err then message err else u16 fallback).

(** [q] occurs in [s] as a contiguous substring. *)
Definition substring (q s : jsstring) : Prop :=
  exists a b, s = a ++ q ++ b.

(** A selected tag appears in the ticket's tag list. *)
Definition any_tag (tags : list jsstring) (ticket_tags : list JSValue) : Prop :=
  exists tag, In tag tags /\ In (JStr tag) ticket_tags.

Definition listed {A} (o : option (list A)) : list A :=
  match o with
  | Some l => l
  | None => []
  end.

(** The characters with a meaning of their own in an [or=(...)] parameter
    or in a pattern: the quote, [%], the parentheses, [*], the comma, the
    backslash and [_]. *)
Definition reserved (c : N) : bool :=
  existsb (N.eqb c) [34; 37; 40; 41; 42; 44; 92; 95].

(** A search text the hook can pass on as it is: no reserved character,
    and, when it is numeric, the writing of a [bigint]. *)
Definition searchable (q : jsstring) : Prop :=
  Forall (fun c => reserved c = false) q
  /\ (UseTickets.isNumeric q = true -> Backend.integer_literal q <> None).

Section Search.

Variable toLowerCase : jsstring -> jsstring.
Variable date_leb : jsstring -> jsstring -> bool.

(** The search text is a case-insensitive substring of one of the text
    fields of the ticket. *)
Definition text_found (q : jsstring) (t : Ticket.t) : Prop :=
  exists field,
    In field [Ticket.issue_description t; Ticket.core_team_comments t;
              Ticket.contact_info t; Ticket.ticket_id t]
    /\ substring (toLowerCase q) (toLowerCase field).

(** The filter predicate as the specification words it: the conjunction of
    status membership, severity membership, an any-match on the product and
    on the category tags, the text search, and the inclusive date range. *)
Definition claimed_match (filters : SearchFilters.t) (t : Ticket.t) : Prop :=
  In (Ticket.status t) (listed (SearchFilters.status filters))
  /\ In (Ticket.severity t) (listed (SearchFilters.severity filters))
  /\ any_tag (listed (SearchFilters.product_tags filters)) (Ticket.product_tags t)
  /\ any_tag (listed (SearchFilters.category_tags filters)) (Ticket.category_tags t)
  /\ (forall q, SearchFilters.search_query filters = Some q -> text_found q t)
  /\ (forall d, SearchFilters.date_range_start filters = Some d ->
                date_leb d (Ticket.date_created t) = true)
  /\ (forall d, SearchFilters.date_range_end filters = Some d ->
                date_leb (Ticket.date_created t) d = true).

(** The two tag criteria, each applied only when tags are selected. *)
Definition tags_match (filters : SearchFilters.t) (t : Ticket.t) : Prop :=
  (forall tags, selected (SearchFilters.product_tags filters) = Some tags ->
                any_tag tags (Ticket.product_tags t))
  /\ (forall tags, selected (SearchFilters.category_tags filters) = Some tags ->
                   any_tag tags (Ticket.category_tags t)).

(** What the Notion adapter returns a page for: the first selected status
    and the first selected severity only, the date bounds, the text search
    and the tags; a criterion that is not selected does not constrain. *)
Definition notion_match (filters : SearchFilters.t) (page : Notion.Page.t)
    (t : Ticket.t) : Prop :=
  (forall s, Notion.first (SearchFilters.status filters) = Some s ->
             Notion.Page.Status page = Some s)
  /\ (forall s, Notion.first (SearchFilters.severity filters) = Some s ->
                Notion.Page.Severity_ page = Some s)
  /\ (forall d, or_none (SearchFilters.date_range_start filters) = Some d ->
                exists c, Notion.Page.Date_Created page = Some c
                          /\ date_leb d c = true)
  /\ (forall d, or_none (SearchFilters.date_range_end filters) = Some d ->
                exists c, Notion.Page.Date_Created page = Some c
                          /\ date_leb c d = true)
  /\ (forall q, or_none (SearchFilters.search_query filters) = Some q ->
                text_found q t)
  /\ tags_match filters t.

(** The database's lower-casing of a character. *)
Variable fold_case : N -> N.

(** A text column is not NULL and holds the search text, the letter case
    aside. *)
Definition column_holds (q : jsstring) (column : option jsstring) : Prop :=
  exists text,
    column = Some text /\ substring (map fold_case q) (map fold_case text).

(** The text criterion of the ticket hook: the search text occurs in one
    of the three text columns, or it is numeric and writes the ticket id. *)
Definition text_matched (q : jsstring) (row : UseTickets.Row.t) : Prop :=
  column_holds q (UseTickets.Row.issue_description row)
  \/ column_holds q (UseTickets.Row.core_team_comment row)
  \/ column_holds q (UseTickets.Row.wallet_address_safe_email row)
  \/ (UseTickets.isNumeric q = true
      /\ Backend.integer_literal q = Some (UseTickets.Row.ticket_id row)).

(** What the ticket hook keeps a stored row for: membership of the stored
    status and severity in the selected sets, the text criterion on the
    trimmed search text, the date bounds, and the tags; a criterion that is
    not selected does not constrain. *)
Definition hook_match (filters : SearchFilters.t) (row : UseTickets.Row.t)
    (t : Ticket.t) : Prop :=
  (forall l, selected (SearchFilters.status filters) = Some l ->
             exists s, UseTickets.Row.status row = Some s /\ In s l)
  /\ (forall l, selected (SearchFilters.severity filters) = Some l ->
                exists s, UseTickets.Row.severity row = Some s /\ In s l)
  /\ (forall q, or_none (SearchFilters.search_query filters) = Some q ->
                text_matched (trim q) row)
  /\ (forall d, or_none (SearchFilters.date_range_start filters) = Some d ->
                exists c, UseTickets.Row.created_at row = Some c
                          /\ date_leb d c = true)
  /\ (forall d, or_none (SearchFilters.date_range_end filters) = Some d ->
                exists c, UseTickets.Row.created_at row = Some c
                          /\ date_leb c d = true)
  /\ tags_match filters t.

End Search.

End Spec.

From Stdlib Require Import Sorted Permutation.

(** ** Vocabulary for the properties of the hooks *)

Module Props.
Import JS JSNum Types.

(** Every element is a string with a character that is not whitespace. *)
Definition clean_tags (l : list JSValue) : Prop :=
  Forall (fun x => exists s, x = JStr s /\ has_non_ws s) l.

(** The tag lists of every ticket held by the hook are clean. *)
Definition tags_invariant (st : UseTickets.State) : Prop :=
  Forall (fun t => clean_tags (Ticket.product_tags t)
                   /\ clean_tags (Ticket.category_tags t))
         (UseTickets.tickets st).

(** Two tickets agree on everything but the status and the resolution date. *)
Definition same_but_status (a b : Ticket.t) : Prop :=
  Ticket.id a = Ticket.id b
  /\ Ticket.ticket_id a = Ticket.ticket_id b
  /\ Ticket.date_created a = Ticket.date_created b
  /\ Ticket.core_team_comments a = Ticket.core_team_comments b
  /\ Ticket.issue_description a = Ticket.issue_description b
  /\ Ticket.contact_info a = Ticket.contact_info b
  /\ Ticket.product_tags a = Ticket.product_tags b
  /\ Ticket.category_tags a = Ticket.category_tags b
  /\ Ticket.severity a = Ticket.severity b
  /\ Ticket.created_at a = Ticket.created_at b
  /\ Ticket.updated_at a = Ticket.updated_at b.

(** [l'] is [l] without the feedback items whose id is in [ids], the others
    unchanged and in their original order. *)
Inductive feedback_removed (ids : list jsstring)
  : list Feedback.t -> list Feedback.t -> Prop :=
| feedback_removed_nil : feedback_removed ids [] []
| feedback_removed_drop x l l' :
    In (Feedback.id x) ids -> feedback_removed ids l l' ->
    feedback_removed ids (x :: l) l'
| feedback_removed_keep x l l' :
    ~ In (Feedback.id x) ids -> feedback_removed ids l l' ->
    feedback_removed ids (x :: l) (x :: l').

(** A list of strings in ascending code-unit order. *)
Definition ascending (l : list jsstring) : Prop :=
  StronglySorted (fun a b => str_leb a b = true) l.


(** A search with no criterion selected. *)
Definition no_criteria (filters : SearchFilters.t) : Prop :=
  or_none (SearchFilters.search_query filters) = None
  /\ selected (SearchFilters.status filters) = None
  /\ selected (SearchFilters.severity filters) = None
  /\ selected (SearchFilters.product_tags filters) = None
  /\ selected (SearchFilters.category_tags filters) = None
  /\ or_none (SearchFilters.date_range_start filters) = None
  /\ or_none (SearchFilters.date_range_end filters) = None.

End Props.

(** ** Suggestion lists of the feedback hook *)

Module FeedbackMemory.
Import JS JSNum Types.

(** [getUniqueProductsFromMemory], on the feedback held by the hook. *)
Definition getUniqueProductsFromMemory (st : UseFeedback.State) : list jsstring :=
  Array_sort
    (fold_left
       (fun uniqueProducts item =>
          if nonempty (Feedback.product item)
             && nonempty (trim (Feedback.product item))
          then UseTickets.Set_add uniqueProducts (trim (Feedback.product item))
          else uniqueProducts)
       (UseFeedback.feedback st) []).

End FeedbackMemory.

(** ** The tag input and the two forms *)

Module Forms.

(** One entry of an [errors] object: the key and the message. *)
Definition error_entry (key message : string) : list (string * string) :=
  [(key, message)].

End Forms.

Module TagInput.
Import JS JSNum Types.

(** [addTag]: the list passed to [onChange], or [None] when [onChange] is
    not called. *)
Definition addTag (value : list jsstring) (tag : jsstring) : option (list jsstring) :=
  if nonempty (trim tag) && negb (includes value (trim tag))
  then Some (value ++ [trim tag])
  else None.

End TagInput.

Module TicketForm.
Import JS JSNum Types.

(** The object [errors] of [validateForm]: the keys set, in order. *)
Definition validation_errors (formData : TicketFormData.t) : list (string * string) :=
  match TicketFormData.ticket_id formData with
   | Some raw =>
       if negb (nonempty raw) || negb (nonempty (trim raw))
       then Forms.error_entry "ticket_id" "Ticket ID is required" else []
   | None => Forms.error_entry "ticket_id" "Ticket ID is required"
   end
   ++ (if negb (nonempty (TicketFormData.issue_description formData))
          || negb (nonempty (trim (TicketFormData.issue_description formData)))
       then Forms.error_entry "issue_description" "Issue description is required"
       else [])
   ++ (if negb (nonempty (TicketFormData.contact_info formData))
          || negb (nonempty (trim (TicketFormData.contact_info formData)))
       then Forms.error_entry "contact_info" "Contact information is required"
       else []).

(** [validateForm]: [Object.keys(errors).length === 0]. *)
Definition validateForm (formData : TicketFormData.t) : bool :=
  match validation_errors formData with
  | [] => true
  | _ => false
  end.

(** [handleSubmit]: the data passed to [onSave], if it is called. *)
Definition handleSubmit (formData : TicketFormData.t) : option TicketFormData.t :=
  if negb (validateForm formData) then None else Some formData.

(** [addProductTag] and [addCategoryTag], on the tag list of the form. *)
Definition addTag (tags : list jsstring) (tag : jsstring) : list jsstring :=
  if nonempty tag && negb (includes tags tag) then tags ++ [tag] else tags.





End TicketForm.

Module FeedbackForm.
Import JS JSNum Types.

(** The object [errors] of [validateForm]. *)
Definition validation_errors (formData : FeedbackFormData.t) : list (string * string) :=
  match FeedbackFormData.platform formData with
   | Some _ => []
   | None => Forms.error_entry "platform" "Platform is required"
   end
   ++ match FeedbackFormData.platform formData with
      | Some Intercom =>
          match FeedbackFormData.ticket_id formData with
          | Some raw =>
              if negb (nonempty raw) || negb (nonempty (trim raw))
              then Forms.error_entry "ticket_id"
                     "Ticket ID is required for Intercom platform"
              else []
          | None =>
              Forms.error_entry "ticket_id"
                "Ticket ID is required for Intercom platform"
          end
      | _ => []
      end
   ++ match or_none (FeedbackFormData.created_at formData) with
      | Some _ => []
      | None => Forms.error_entry "created_at" "Date of feedback is required"
      end.

Definition validateForm (formData : FeedbackFormData.t) : bool :=
  match validation_errors formData with
  | [] => true
  | _ => false
  end.

Definition handleSubmit (formData : FeedbackFormData.t) : option FeedbackFormData.t :=
  if negb (validateForm formData) then None else Some formData.

End FeedbackForm.

(** ** The ticket gallery: pages and selection *)

Module TicketGallery.
Import JS JSNum Types.
Local Open Scope Z_scope.

Definition ITEMS_PER_PAGE : Z := 12.

(** The index [Array.prototype.slice] starts or ends at, in a list of
    length [len]. *)
Definition relative_index (len k : Z) : Z :=
  if k <? 0 then Z.max (len + k) 0 else Z.min k len.

(** [arr.slice(start, end)] *)
Definition Array_slice {A} (l : list A) (start end_ : Z) : list A :=
  let len := Z.of_nat (List.length l) in
  let from := relative_index len start in
  let to := relative_index len end_ in
  firstn (Z.to_nat (to - from)) (skipn (Z.to_nat from) l).

(** [Math.ceil(length / ITEMS_PER_PAGE)] *)
Definition totalPages {A} (processed : list A) : Z :=
  (Z.of_nat (List.length processed) + ITEMS_PER_PAGE - 1) / ITEMS_PER_PAGE.

Definition currentTickets {A} (processed : list A) (currentPage : Z) : list A :=
  let startIndex := (currentPage - 1) * ITEMS_PER_PAGE in
  let endIndex := startIndex + ITEMS_PER_PAGE in
  Array_slice processed startIndex endIndex.

(** The first and the last page number shown by [renderPagination], or
    [None] when it returns [null] and no page button is drawn. *)
Definition page_window (totalPages currentPage : Z) : option (Z * Z) :=
  if totalPages <=? 1 then None else
  let maxVisiblePages := 5 in
  let startPage := Z.max 1 (currentPage - maxVisiblePages / 2) in
  let endPage := Z.min totalPages (startPage + maxVisiblePages - 1) in
  let startPage :=
    if endPage - startPage + 1 <? maxVisiblePages
    then Z.max 1 (endPage - maxVisiblePages + 1)
    else startPage in
  Some (startPage, endPage).

(** The array [pages] of [renderPagination]: the numbers from [startPage]
    to [endPage]. *)
Definition pages (totalPages currentPage : Z) : option (list Z) :=
  match page_window totalPages currentPage with
  | Some (startPage, endPage) =>
      Some (map (fun i => startPage + Z.of_nat i)
                (seq 0 (Z.to_nat (endPage - startPage + 1))))
  | None => None
  end.

(** [new Set(arr)], kept in insertion order. *)
Definition new_Set (arr : list jsstring) : list jsstring :=
  fold_left UseTickets.Set_add arr [].

Definition handleSelectTicket (selectedTickets : list jsstring) (id : jsstring)
    (selected : bool) : list jsstring :=
  if selected then UseTickets.Set_add selectedTickets id
  else filter (fun x => negb (str_eqb x id)) selectedTickets.

Definition handleSelectAll (page : list Ticket.t) (checked : bool) : list jsstring :=
  if checked then new_Set (map Ticket.id page) else [].

Definition allCurrentSelected (page : list Ticket.t) (selectedTickets : list jsstring)
  : bool :=
  negb (Nat.eqb (List.length page) 0)
  && forallb (fun t => includes selectedTickets (Ticket.id t)) page.

(** [handleBulkDelete] wired to the hook by the application: the selected
    ids go to [bulkDeleteTickets], whose exception the application logs;
    the selection is cleared. *)
Definition handleBulkDelete (delete_in : list number -> result unit)
    (selectedTickets : list jsstring) (st : UseTickets.State)
  : UseTickets.State * list jsstring :=
  (fst (UseTickets.bulkDeleteTickets delete_in selectedTickets st), []).

End TicketGallery.

(** ** The search panel *)

Module SearchPanel.
Import JS JSNum Types.

(** [handleSearch]: the object [cleanFilters] passed to [onSearch]. An
    empty text and an empty list are dropped; the date range is an object
    and is passed on as it is. *)
Definition cleanFilters (filters : SearchFilters.t) : SearchFilters.t :=
  SearchFilters.mk
    (or_none (SearchFilters.search_query filters))
    (selected (SearchFilters.status filters))
    (selected (SearchFilters.severity filters))
    (selected (SearchFilters.product_tags filters))
    (selected (SearchFilters.category_tags filters))
    (SearchFilters.date_range_start filters)
    (SearchFilters.date_range_end filters).

End SearchPanel.

(** ** Writes of the Notion adapter *)

Module NotionWrite.
Import JS JSNum Types.
Local Open Scope js_scope.

(** The credentials, the client and the [catch] block of [NotionClient]. *)
Include NotionClient.

(** The object [properties] sent to Notion. [Ticket_ID] and [Date_Created]
    are keys that may be missing; [Date_Resolved] is always sent, as a date
    or as [null]. *)
Module Properties.
Record t : Type := mk {
  Status : option TicketStatus;
  Core_Team_Comments : jsstring;
  Issue_Description : jsstring;
  Wallet_Address_Safe_Cash_ID_Email : jsstring;
  Product_Tags : list jsstring;
  Category_Tags : list jsstring;
  Severity_ : option Severity;
  Ticket_ID : option jsstring;
  Date_Created : option jsstring;
  Date_Resolved : option jsstring
}.
End Properties.

(** The [TypeError] of reading [map] of [undefined]. *)
Definition map_of_undefined : JSError :=
  mkError true (u16 "Cannot read properties of undefined (reading 'map')").

(** [arr.map(f)] on a value that may be [undefined]. *)
Definition tags_or_throw (tags : option (list jsstring)) : result (list jsstring) :=
  match tags with
  | Some l => Ok l
  | None => Throw map_of_undefined
  end.

(** [ticketToNotionProperties(data, ticketId)], on the data as it is at run
    time: [updateTicket] passes a partial object. *)
Definition ticketToNotionProperties (clock : Clock) (data : TicketUpdates.t)
    (ticketId : option jsstring) : result Properties.t :=
  product_tags <- tags_or_throw (TicketUpdates.product_tags data) ;;
  category_tags <- tags_or_throw (TicketUpdates.category_tags data) ;;
  Ok (Properties.mk
        (TicketUpdates.status data)
        (or_default (TicketUpdates.core_team_comments data) [])
        (or_default (TicketUpdates.issue_description data) [])
        (or_default (TicketUpdates.contact_info data) [])
        product_tags
        category_tags
        (TicketUpdates.severity data)
        (or_none ticketId)
        (match or_none ticketId with
         | Some _ => Some (toISOString clock)
         | None => None
         end)
        (match TicketUpdates.status data with
         | Some Resolved => Some (toISOString clock)
         | _ => None
         end)).

(** The complete form data as a partial object. *)
Definition as_partial (data : TicketFormData.t) : TicketUpdates.t :=
  TicketUpdates.mk
    (TicketFormData.ticket_id data)
    (Some (TicketFormData.status data))
    (Some (TicketFormData.core_team_comments data))
    (Some (TicketFormData.issue_description data))
    (Some (TicketFormData.contact_info data))
    (Some (TicketFormData.product_tags data))
    (Some (TicketFormData.category_tags data))
    (Some (TicketFormData.severity data)).

(** [ticketService.createTicket]; [generated] is the value of
    [generateTicketId()], [pages_create] the call [notion.pages.create]. *)
Definition createTicket (pages_create : Properties.t -> result Notion.Page.t)
    (credentials : Credentials) (clock : Clock) (generated : jsstring)
    (data : TicketFormData.t) : result Ticket.t :=
  try_catch
    (if negb (nonempty (databaseId credentials)) then
       Throw (new_Error
         "Notion database ID not configured. Please configure your database ID in Settings.")
     else
       _ <- createNotionClient credentials ;;
       properties <- ticketToNotionProperties clock (as_partial data) (Some generated) ;;
       response <- pages_create properties ;;
       Ok (Notion.notionPageToTicket clock response))
    (rethrow "Failed to create ticket in Notion. Please check your configuration.").

(** [ticketService.updateTicket]; [pages_update] is the call
    [notion.pages.update]. *)
Definition updateTicket
    (pages_update : jsstring -> Properties.t -> result Notion.Page.t)
    (credentials : Credentials) (clock : Clock) (id : jsstring)
    (updates : TicketUpdates.t) : result Ticket.t :=
  try_catch
    (_ <- createNotionClient credentials ;;
     properties <- ticketToNotionProperties clock updates None ;;
     response <- pages_update id properties ;;
     Ok (Notion.notionPageToTicket clock response))
    (rethrow "Failed to update ticket in Notion").

End NotionWrite.

(** * Properties of the runtime model *)

Module JSFacts.
Import JS.

Lemma str_eqb_eq (a b : jsstring) : str_eqb a b = true <-> a = b.
Proof.
  revert b; induction a as [|x a IH]; intros [|y b]; simpl; split;
    try congruence; try reflexivity.
  - intros H. apply andb_true_iff in H as [Hx Hr].
    apply N.eqb_eq in Hx. apply IH in Hr. congruence.
  - intros H. injection H as -> ->. rewrite N.eqb_refl. simpl. now apply IH.
Qed.

Lemma str_eqb_refl (a : jsstring) : str_eqb a a = true.
Proof. now apply str_eqb_eq. Qed.

Lemma trimStart_head (s : jsstring) (c : N) (r : jsstring) :
  trimStart s = c :: r -> is_ws c = false.
Proof.
  induction s as [|x s IH]; simpl; [discriminate|].
  destruct (is_ws x) eqn:E; [exact IH|].
  intros H. injection H as -> _. exact E.
Qed.

Lemma trimStart_incl (s : jsstring) (c : N) : In c (trimStart s) -> In c s.
Proof.
  induction s as [|x s IH]; simpl; [tauto|].
  destruct (is_ws x); simpl; tauto.
Qed.

Lemma trimStart_non_ws (s : jsstring) :
  has_non_ws s -> trimStart s <> [].
Proof.
  intros [c [Hin Hc]]. induction s as [|x s IH]; simpl in *; [tauto|].
  destruct (is_ws x) eqn:E; [|discriminate].
  destruct Hin as [->|Hin]; [congruence|auto].
Qed.

Lemma non_empty_trimStart (s : jsstring) :
  trimStart s <> [] -> has_non_ws (trimStart s).
Proof.
  destruct (trimStart s) as [|c r] eqn:E; [congruence|].
  intros _. exists c. split; [now left|]. eapply trimStart_head; eauto.
Qed.

Lemma has_non_ws_rev (s : jsstring) : has_non_ws s -> has_non_ws (rev s).
Proof.
  intros [c [Hin Hc]]. exists c. split; [|exact Hc]. now apply in_rev in Hin.
Qed.

Lemma has_non_ws_trimStart_inv (s : jsstring) :
  has_non_ws (trimStart s) -> has_non_ws s.
Proof.
  intros [c [Hin Hc]]. exists c. split; [|exact Hc]. now apply trimStart_incl.
Qed.

(** [trim] leaves something exactly when the string is not blank. *)
Lemma trim_non_ws (s : jsstring) : has_non_ws s <-> trim s <> [].
Proof.
  unfold trim, trimEnd. split.
  - intros H. apply trimStart_non_ws, non_empty_trimStart, has_non_ws_rev in H.
    apply trimStart_non_ws in H.
    intros E. apply H. apply (f_equal (@rev N)) in E.
    rewrite rev_involutive in E. exact E.
  - intros H. apply has_non_ws_trimStart_inv.
    assert (H1 : trimStart (rev (trimStart s)) <> []).
    { intros E. apply H. now rewrite E. }
    apply non_empty_trimStart, has_non_ws_trimStart_inv, has_non_ws_rev in H1.
    now rewrite rev_involutive in H1.
Qed.

Lemma trim_has_non_ws (s : jsstring) : trim s <> [] -> has_non_ws (trim s).
Proof.
  unfold trim, trimEnd. intros H.
  assert (H1 : trimStart (rev (trimStart s)) <> []).
  { intros E. apply H. now rewrite E. }
  now apply non_empty_trimStart, has_non_ws_rev in H1.
Qed.

Lemma nonempty_true (s : jsstring) : nonempty s = true <-> s <> [].
Proof. destruct s; simpl; split; congruence. Qed.

Lemma nonempty_trim (s : jsstring) : nonempty (trim s) = true <-> has_non_ws s.
Proof. rewrite nonempty_true. symmetry. apply trim_non_ws. Qed.

End JSFacts.

(** ** [JSON.parse] inverts [JSON.stringify] on string arrays *)

Module JSONFacts.
Import JS.

Lemma hex_val_hex_digit (d : N) : d < 16 -> hex_val (hex_digit d) = Some d.
Proof.
  intros H. unfold hex_digit.
  destruct (d <? 10) eqn:E.
  - apply N.ltb_lt in E. unfold hex_val, is_digit.
    replace (48 <=? 48 + d) with true by (symmetry; apply N.leb_le; lia).
    replace (48 + d <=? 57) with true by (symmetry; apply N.leb_le; lia).
    cbn [andb]. f_equal. lia.
  - apply N.ltb_ge in E. unfold hex_val, is_digit.
    replace (87 + d <=? 57) with false by (symmetry; apply N.leb_gt; lia).
    rewrite andb_false_r.
    replace (97 <=? 87 + d) with true by (symmetry; apply N.leb_le; lia).
    replace (87 + d <=? 102) with true by (symmetry; apply N.leb_le; lia).
    cbn [andb]. f_equal. lia.
Qed.

Lemma hex4_escape (c : N) :
  c < 65536 ->
  hex4 (hex_digit ((c / 4096) mod 16)) (hex_digit ((c / 256) mod 16))
       (hex_digit ((c / 16) mod 16)) (hex_digit (c mod 16)) = Some c.
Proof.
  intros H. unfold hex4.
  rewrite !hex_val_hex_digit by (apply N.mod_lt; discriminate).
  f_equal.
  zify. Z.to_euclidean_division_equations. lia.
Qed.

Lemma parse_escape (c : N) (rest : jsstring) :
  c < 65536 ->
  parse_string_body (unicode_escape c ++ rest)
  = cons_fst c (parse_string_body rest).
Proof.
  intros H. unfold unicode_escape.
  cbn [app parse_string_body N.eqb Pos.eqb].
  now rewrite hex4_escape.
Qed.

Lemma parse_raw (c : N) (rest : jsstring) :
  c <> 34 -> c <> 92 -> 32 <= c ->
  parse_string_body (c :: rest) = cons_fst c (parse_string_body rest).
Proof.
  intros H1 H2 H3. cbn [parse_string_body].
  rewrite (proj2 (N.eqb_neq c 34) H1), (proj2 (N.eqb_neq c 92) H2).
  now rewrite (proj2 (N.ltb_ge c 32) H3).
Qed.

Lemma surrogate_bounds (c : N) :
  is_leading_surrogate c = true \/ is_trailing_surrogate c = true ->
  55296 <= c < 65536.
Proof.
  unfold is_leading_surrogate, is_trailing_surrogate.
  intros [H|H]; apply andb_true_iff in H as [H1 H2];
    apply N.leb_le in H1, H2; lia.
Qed.

Lemma parse_quote_code_unit (c : N) (rest : jsstring) :
  parse_string_body (quote_code_unit c ++ rest)
  = cons_fst c (parse_string_body rest).
Proof.
  unfold quote_code_unit.
  destruct (c =? 8) eqn:E8; [apply N.eqb_eq in E8; now subst|].
  destruct (c =? 9) eqn:E9; [apply N.eqb_eq in E9; now subst|].
  destruct (c =? 10) eqn:E10; [apply N.eqb_eq in E10; now subst|].
  destruct (c =? 12) eqn:E12; [apply N.eqb_eq in E12; now subst|].
  destruct (c =? 13) eqn:E13; [apply N.eqb_eq in E13; now subst|].
  destruct (c =? 34) eqn:E34; [apply N.eqb_eq in E34; now subst|].
  destruct (c =? 92) eqn:E92; [apply N.eqb_eq in E92; now subst|].
  destruct ((c <? 32) || is_leading_surrogate c || is_trailing_surrogate c) eqn:E.
  - apply parse_escape.
    apply orb_true_iff in E as [E|E]; [apply orb_true_iff in E as [E|E]|].
    + apply N.ltb_lt in E. lia.
    + apply (surrogate_bounds c). now left.
    + apply (surrogate_bounds c). now right.
  - apply orb_false_iff in E as [E _]. apply orb_false_iff in E as [E _].
    apply N.ltb_ge in E. apply N.eqb_neq in E34, E92.
    now apply parse_raw.
Qed.

Lemma parse_quote_units_bounded (n : nat) :
  forall s tail, (List.length s <= n)%nat ->
  parse_string_body (quote_units s ++ 34 :: tail) = Some (s, tail).
Proof.
  induction n as [|n IH]; intros s tail Hlen.
  - destruct s; [reflexivity|simpl in Hlen; lia].
  - destruct s as [|c rest]; [reflexivity|].
    simpl in Hlen. cbn [quote_units].
    destruct (is_leading_surrogate c) eqn:Lc.
    + pose proof (surrogate_bounds c (or_introl Lc)) as Bc.
      destruct rest as [|d rest'].
      * rewrite parse_escape by lia. reflexivity.
      * destruct (is_trailing_surrogate d) eqn:Td.
        -- pose proof (surrogate_bounds d (or_intror Td)) as Bd.
           cbn [app]. rewrite !parse_raw by lia.
           rewrite IH by (simpl in Hlen; lia). reflexivity.
        -- rewrite <- app_assoc, parse_escape by lia.
           rewrite IH by lia. reflexivity.
    + rewrite <- app_assoc, parse_quote_code_unit.
      rewrite IH by lia. reflexivity.
Qed.

Lemma parse_quote_units (s tail : jsstring) :
  parse_string_body (quote_units s ++ 34 :: tail) = Some (s, tail).
Proof. now apply (parse_quote_units_bounded (List.length s)). Qed.

(** A quoted string is read back as that string, whatever follows. *)
Lemma parse_value_quoted (fuel : nat) (s tail : jsstring) :
  parse_value (S fuel) (QuoteJSONString s ++ tail) = Some (JStr s, tail).
Proof.
  unfold QuoteJSONString. cbn [app parse_value skip_ws is_json_ws N.eqb Pos.eqb orb].
  rewrite <- app_assoc. cbn [app].
  now rewrite parse_quote_units.
Qed.

Lemma parse_elements_step (fuel : nat) (s : jsstring) :
  parse_elements (S fuel) s
  = match parse_value fuel s with
    | Some (v, r) =>
        match skip_ws r with
        | d :: r' =>
            if d =? 44 then cons_fst v (parse_elements fuel r')
            else if d =? 93 then Some ([v], r')
            else None
        | [] => None
        end
    | None => None
    end.
Proof. reflexivity. Qed.

Lemma parse_elements_strings (l : list jsstring) :
  forall x fuel tail,
  (List.length l < fuel)%nat ->
  parse_elements (S fuel) (join_comma (map QuoteJSONString (x :: l)) ++ 93 :: tail)
  = Some (map JStr (x :: l), tail).
Proof.
  induction l as [|y l IH]; intros x fuel tail Hf.
  - destruct fuel as [|fuel]; [simpl in Hf; lia|].
    cbn [map join_comma]. rewrite parse_elements_step.
    rewrite parse_value_quoted. reflexivity.
  - destruct fuel as [|fuel]; [simpl in Hf; lia|].
    change (join_comma (map QuoteJSONString (x :: y :: l)))
      with (QuoteJSONString x ++ 44 :: join_comma (map QuoteJSONString (y :: l))).
    rewrite parse_elements_step. rewrite <- app_assoc.
    rewrite parse_value_quoted.
    cbn [app skip_ws is_json_ws N.eqb Pos.eqb orb].
    rewrite IH by (simpl in Hf; lia). reflexivity.
Qed.

Lemma join_comma_length (l : list jsstring) :
  (List.length l <= List.length (join_comma (map QuoteJSONString l)))%nat.
Proof.
  induction l as [|x l IH]; [simpl; lia|].
  destruct l as [|y l].
  - simpl. lia.
  - change (join_comma (map QuoteJSONString (x :: y :: l)))
      with (QuoteJSONString x ++ 44 :: join_comma (map QuoteJSONString (y :: l))).
    rewrite length_app. simpl List.length in *. lia.
Qed.

(** [JSON.parse(JSON.stringify(array))] is the array. *)
Lemma JSON_parse_stringify (x : jsstring) (l : list jsstring) :
  JSON_parse (JSON_stringify (x :: l)) = Ok (JArr (map JStr (x :: l))).
Proof.
  unfold JSON_parse, JSON_stringify.
  set (body := join_comma (map QuoteJSONString (x :: l))).
  assert (Hlen : (List.length (x :: l) <= List.length body)%nat)
    by apply join_comma_length.
  simpl List.length in Hlen.
  assert (Ht : List.length (91 :: body ++ [93]) = S (S (List.length body)))
    by (simpl List.length; rewrite length_app; simpl; lia).
  rewrite Ht.
  replace (2 * S (S (List.length body)) + 2)%nat
    with (S (S (2 * List.length body + 4)))%nat by lia.
  assert (Hhead : exists r, body ++ [93] = 34 :: r).
  { subst body. destruct l; simpl; eexists; reflexivity. }
  destruct Hhead as [r Hr].
  cbn [parse_value skip_ws is_json_ws N.eqb Pos.eqb orb].
  rewrite Hr. cbn [skip_ws is_json_ws N.eqb Pos.eqb orb].
  rewrite <- Hr. subst body.
  rewrite parse_elements_strings by lia.
  reflexivity.
Qed.

End JSONFacts.

(** ** The fuel of [JSON.parse] is enough *)

Module FuelFacts.
Import JS JSONFacts.

Lemma skip_ws_length (s : jsstring) :
  (List.length (skip_ws s) <= List.length s)%nat.
Proof.
  induction s as [|c s IH]; simpl; [lia|].
  destruct (is_json_ws c); simpl; lia.
Qed.

Lemma skip_ws_cons (s r : jsstring) (c : N) :
  skip_ws s = c :: r -> (List.length r < List.length s)%nat.
Proof.
  intros H. pose proof (skip_ws_length s) as L. rewrite H in L. simpl in L. lia.
Qed.

Lemma cons_fst_some {A B} (a : A) (o : option (list A * B)) (l : list A) (b : B) :
  cons_fst a o = Some (l, b) -> exists l', o = Some (l', b).
Proof.
  destruct o as [[l' b']|]; simpl; [|discriminate].
  intros H. injection H as _ <-. now exists l'.
Qed.

Lemma parse_string_body_bounded (n : nat) :
  forall s x r, (List.length s <= n)%nat ->
  parse_string_body s = Some (x, r) -> (List.length r < List.length s)%nat.
Proof.
  induction n as [|n IH]; intros s x r Hn H.
  - destruct s; [discriminate|simpl in Hn; lia].
  - destruct s as [|c rest]; [discriminate|].
    simpl in Hn. cbn [parse_string_body] in H.
    destruct (c =? 34).
    { injection H as _ <-. simpl. lia. }
    destruct (c =? 92).
    + destruct rest as [|e rest1]; [discriminate|].
      destruct (e =? 117).
      * destruct rest1 as [|h1 [|h2 [|h3 [|h4 rest2]]]]; try discriminate.
        destruct (hex4 h1 h2 h3 h4); [|discriminate].
        apply cons_fst_some in H as [l' H].
        apply IH in H; simpl in *; lia.
      * destruct (simple_escape e); [|discriminate].
        apply cons_fst_some in H as [l' H].
        apply IH in H; simpl in *; lia.
    + destruct (c <? 32); [discriminate|].
      apply cons_fst_some in H as [l' H].
      apply IH in H; simpl in *; lia.
Qed.

Lemma parse_string_body_length (s x r : jsstring) :
  parse_string_body s = Some (x, r) -> (List.length r < List.length s)%nat.
Proof. now apply (parse_string_body_bounded (List.length s)). Qed.

Lemma span_digits_length (s : jsstring) :
  (List.length (fst (span_digits s)) + List.length (snd (span_digits s))
   = List.length s)%nat.
Proof.
  induction s as [|c s IH]; [reflexivity|].
  cbn [span_digits]. destruct (is_digit c); [|reflexivity].
  destruct (span_digits s) as [d r]. simpl in *. lia.
Qed.

Lemma digits1_length (s d r : jsstring) :
  digits1 s = Some (d, r) -> (List.length r < List.length s)%nat.
Proof.
  unfold digits1. pose proof (span_digits_length s) as L.
  destruct (span_digits s) as [[|x d'] r']; [discriminate|].
  intros H. injection H as _ <-. simpl in L. lia.
Qed.

Lemma json_int_length (s d r : jsstring) :
  json_int s = Some (d, r) -> (List.length r < List.length s)%nat.
Proof.
  destruct s as [|c s]; [discriminate|]. cbn [json_int].
  destruct (c =? 48).
  - intros H. injection H as _ <-. simpl. lia.
  - apply digits1_length.
Qed.

Lemma json_frac_length (s d r : jsstring) :
  json_frac s = Some (d, r) -> (List.length r <= List.length s)%nat.
Proof.
  destruct s as [|c s]; cbn [json_frac].
  - intros H. injection H as _ <-. simpl. lia.
  - destruct (c =? 46).
    + destruct (digits1 s) as [[d' r']|] eqn:E; [|discriminate].
      intros H. injection H as _ <-. apply digits1_length in E. simpl. lia.
    + intros H. injection H as _ <-. lia.
Qed.

Lemma json_exp_length (s d r : jsstring) :
  json_exp s = Some (d, r) -> (List.length r <= List.length s)%nat.
Proof.
  destruct s as [|c s]; cbn [json_exp].
  - intros H. injection H as _ <-. simpl. lia.
  - destruct ((c =? 101) || (c =? 69)).
    + destruct s as [|sg r1]; [discriminate|].
      destruct ((sg =? 43) || (sg =? 45)).
      * destruct (digits1 r1) as [[d' r']|] eqn:E; [|discriminate].
        intros H. injection H as _ <-. apply digits1_length in E. simpl. lia.
      * destruct (digits1 (sg :: r1)) as [[d' r']|] eqn:E; [|discriminate].
        intros H. injection H as _ <-. apply digits1_length in E. simpl in *. lia.
    + intros H. injection H as _ <-. lia.
Qed.

Lemma json_unsigned_length (s d r : jsstring) :
  json_unsigned s = Some (d, r) -> (List.length r < List.length s)%nat.
Proof.
  unfold json_unsigned.
  destruct (json_int s) as [[i r1]|] eqn:E1; [|discriminate].
  destruct (json_frac r1) as [[f r2]|] eqn:E2; [|discriminate].
  destruct (json_exp r2) as [[e r3]|] eqn:E3; [|discriminate].
  intros H. injection H as _ <-.
  apply json_int_length in E1. apply json_frac_length in E2.
  apply json_exp_length in E3. lia.
Qed.

Lemma json_number_length (s d r : jsstring) :
  json_number s = Some (d, r) -> (List.length r < List.length s)%nat.
Proof.
  destruct s as [|c s]; [discriminate|]. cbn [json_number].
  destruct (c =? 45).
  - intros H. apply cons_fst_some in H as [l' H].
    apply json_unsigned_length in H. simpl. lia.
  - apply json_unsigned_length.
Qed.

Lemma strip_prefix_length (p s r : jsstring) :
  strip_prefix p s = Some r -> (List.length r + List.length p = List.length s)%nat.
Proof.
  revert s. induction p as [|x p IH]; intros s; simpl.
  - intros H. injection H as <-. lia.
  - destruct s as [|y s]; [discriminate|].
    destruct (x =? y); [|discriminate].
    intros H. apply IH in H. simpl. lia.
Qed.

Lemma parse_value_step (fuel : nat) (s : jsstring) :
  parse_value (S fuel) s
  = match skip_ws s with
    | [] => None
    | c :: rest =>
        if c =? 34 then
          match parse_string_body rest with
          | Some (str, r) => Some (JStr str, r)
          | None => None
          end
        else if c =? 91 then
          match skip_ws rest with
          | d :: r =>
              if d =? 93 then Some (JArr [], r)
              else
                match parse_elements fuel rest with
                | Some (items, r') => Some (JArr items, r')
                | None => None
                end
          | [] => None
          end
        else if c =? 123 then
          match skip_ws rest with
          | d :: r =>
              if d =? 125 then Some (JObj [], r)
              else
                match parse_members fuel rest with
                | Some (ms, r') => Some (JObj ms, r')
                | None => None
                end
          | [] => None
          end
        else if c =? 116 then
          match strip_prefix (u16 "true") (c :: rest) with
          | Some r => Some (JBool true, r)
          | None => None
          end
        else if c =? 102 then
          match strip_prefix (u16 "false") (c :: rest) with
          | Some r => Some (JBool false, r)
          | None => None
          end
        else if c =? 110 then
          match strip_prefix (u16 "null") (c :: rest) with
          | Some r => Some (JNull, r)
          | None => None
          end
        else
          match json_number (c :: rest) with
          | Some (l, r) => Some (JNum l, r)
          | None => None
          end
    end.
Proof. reflexivity. Qed.

Lemma parse_members_unfold (fuel : nat) (s : jsstring) :
  parse_members (S fuel) s
  = match skip_ws s with
    | q :: r0 =>
        if q =? 34 then
          match parse_string_body r0 with
          | Some (k, r1) =>
              match skip_ws r1 with
              | col :: r2 =>
                  if col =? 58 then
                    match parse_value fuel r2 with
                    | Some (v, r3) =>
                        match skip_ws r3 with
                        | d :: r4 =>
                            if d =? 44 then
                              cons_fst (k, v) (parse_members fuel r4)
                            else if d =? 125 then Some ([(k, v)], r4)
                            else None
                        | [] => None
                        end
                    | None => None
                    end
                  else None
              | [] => None
              end
          | None => None
          end
        else None
    | [] => None
    end.
Proof. reflexivity. Qed.

(** Every successful call consumes input. *)
Lemma parse_consumes (fuel : nat) :
  (forall s v r, parse_value fuel s = Some (v, r) ->
                 (List.length r < List.length s)%nat)
  /\ (forall s l r, parse_elements fuel s = Some (l, r) ->
                    (List.length r < List.length s)%nat)
  /\ (forall s l r, parse_members fuel s = Some (l, r) ->
                    (List.length r < List.length s)%nat).
Proof.
  induction fuel as [|fuel (IHv & IHe & IHm)];
    [repeat split; intros; discriminate|].
  repeat apply conj.
  - intros s v r. rewrite parse_value_step.
    destruct (skip_ws s) as [|c rest] eqn:Es; [discriminate|].
    apply skip_ws_cons in Es.
    destruct (c =? 34).
    { destruct (parse_string_body rest) as [[x r']|] eqn:E; [|discriminate].
      intros H. injection H as _ <-. apply parse_string_body_length in E. lia. }
    destruct (c =? 91).
    { destruct (skip_ws rest) as [|d r'] eqn:Er; [discriminate|].
      apply skip_ws_cons in Er.
      destruct (d =? 93); [intros H; injection H as _ <-; lia|].
      destruct (parse_elements fuel rest) as [[items r'']|] eqn:E; [|discriminate].
      intros H. injection H as _ <-. apply IHe in E. lia. }
    destruct (c =? 123).
    { destruct (skip_ws rest) as [|d r'] eqn:Er; [discriminate|].
      apply skip_ws_cons in Er.
      destruct (d =? 125); [intros H; injection H as _ <-; lia|].
      destruct (parse_members fuel rest) as [[ms r'']|] eqn:E; [|discriminate].
      intros H. injection H as _ <-. apply IHm in E. lia. }
    destruct (c =? 116).
    { destruct (strip_prefix (u16 "true") (c :: rest)) as [r'|] eqn:E; [|discriminate].
      intros H. injection H as _ <-. apply strip_prefix_length in E.
      simpl in E. lia. }
    destruct (c =? 102).
    { destruct (strip_prefix (u16 "false") (c :: rest)) as [r'|] eqn:E; [|discriminate].
      intros H. injection H as _ <-. apply strip_prefix_length in E.
      simpl in E. lia. }
    destruct (c =? 110).
    { destruct (strip_prefix (u16 "null") (c :: rest)) as [r'|] eqn:E; [|discriminate].
      intros H. injection H as _ <-. apply strip_prefix_length in E.
      simpl in E. lia. }
    destruct (json_number (c :: rest)) as [[l r']|] eqn:E; [|discriminate].
    intros H. injection H as _ <-. apply json_number_length in E. simpl in E. lia.
  - intros s l r. rewrite parse_elements_step.
    destruct (parse_value fuel s) as [[v r1]|] eqn:Ev; [|discriminate].
    apply IHv in Ev.
    destruct (skip_ws r1) as [|d r'] eqn:Er; [discriminate|].
    apply skip_ws_cons in Er.
    destruct (d =? 44).
    { intros H. apply cons_fst_some in H as [l' H]. apply IHe in H. lia. }
    destruct (d =? 93); [|discriminate].
    intros H. injection H as _ <-. lia.
  - intros s l r. rewrite parse_members_unfold.
    destruct (skip_ws s) as [|q r0] eqn:Es; [discriminate|].
    apply skip_ws_cons in Es.
    destruct (q =? 34); [|discriminate].
    destruct (parse_string_body r0) as [[k r1]|] eqn:Ek; [|discriminate].
    apply parse_string_body_length in Ek.
    destruct (skip_ws r1) as [|col r2] eqn:Er1; [discriminate|].
    apply skip_ws_cons in Er1.
    destruct (col =? 58); [|discriminate].
    destruct (parse_value fuel r2) as [[v r3]|] eqn:Ev; [|discriminate].
    apply IHv in Ev.
    destruct (skip_ws r3) as [|d r4] eqn:Er3; [discriminate|].
    apply skip_ws_cons in Er3.
    destruct (d =? 44).
    { intros H. apply cons_fst_some in H as [l' H]. apply IHm in H. lia. }
    destruct (d =? 125); [|discriminate].
    intros H. injection H as _ <-. lia.
Qed.

(** Above twice the length of the input, more fuel changes nothing. *)
Lemma parse_fuel_stable (fuel : nat) :
  (forall s fuel', (2 * List.length s + 1 <= fuel)%nat -> (fuel <= fuel')%nat ->
                   parse_value fuel' s = parse_value fuel s)
  /\ (forall s fuel', (2 * List.length s + 2 <= fuel)%nat -> (fuel <= fuel')%nat ->
                      parse_elements fuel' s = parse_elements fuel s)
  /\ (forall s fuel', (2 * List.length s + 2 <= fuel)%nat -> (fuel <= fuel')%nat ->
                      parse_members fuel' s = parse_members fuel s).
Proof.
  induction fuel as [|fuel (IHv & IHe & IHm)];
    [repeat split; intros; lia|].
  repeat apply conj.
  - intros s [|fuel'] Hs Hf; [lia|].
    rewrite !parse_value_step.
    destruct (skip_ws s) as [|c rest] eqn:Es; [reflexivity|].
    apply skip_ws_cons in Es.
    rewrite (IHe rest fuel') by lia. rewrite (IHm rest fuel') by lia.
    reflexivity.
  - intros s [|fuel'] Hs Hf; [lia|].
    rewrite !parse_elements_step.
    rewrite (IHv s fuel') by lia.
    destruct (parse_value fuel s) as [[v r1]|] eqn:Ev; [|reflexivity].
    apply (proj1 (parse_consumes fuel)) in Ev.
    destruct (skip_ws r1) as [|d r'] eqn:Er; [reflexivity|].
    apply skip_ws_cons in Er.
    rewrite (IHe r' fuel') by lia. reflexivity.
  - intros s [|fuel'] Hs Hf; [lia|].
    rewrite !parse_members_unfold.
    destruct (skip_ws s) as [|q r0] eqn:Es; [reflexivity|].
    apply skip_ws_cons in Es.
    destruct (q =? 34); [|reflexivity].
    destruct (parse_string_body r0) as [[k r1]|] eqn:Ek; [|reflexivity].
    apply parse_string_body_length in Ek.
    destruct (skip_ws r1) as [|col r2] eqn:Er1; [reflexivity|].
    apply skip_ws_cons in Er1.
    destruct (col =? 58); [|reflexivity].
    rewrite (IHv r2 fuel') by lia.
    destruct (parse_value fuel r2) as [[v r3]|] eqn:Ev; [|reflexivity].
    apply (proj1 (parse_consumes fuel)) in Ev.
    destruct (skip_ws r3) as [|d r4] eqn:Er3; [reflexivity|].
    apply skip_ws_cons in Er3.
    rewrite (IHm r4 fuel') by lia. reflexivity.
Qed.

(** The result of [JSON.parse] does not depend on the fuel: any larger
    amount gives the same value or the same rejection. *)
Lemma JSON_parse_fuel (text : jsstring) (fuel : nat) :
  (2 * List.length text + 2 <= fuel)%nat ->
  parse_value fuel text = parse_value (2 * List.length text + 2) text.
Proof.
  intros H. apply (proj1 (parse_fuel_stable (2 * List.length text + 2))); lia.
Qed.

End FuelFacts.

(** * The tag codec *)

Module CodecFacts.
Import JS JSNum Types UseTickets Spec JSFacts JSONFacts.

Lemma nonblank_string_spec (v : JSValue) : nonblank_string v = Ok (nonblank v).
Proof. destruct v; reflexivity. Qed.

Lemma filterM_nonblank (items : list JSValue) :
  filterM nonblank_string items = Ok (filter nonblank items).
Proof.
  induction items as [|v items IH]; [reflexivity|].
  cbn [filterM filter]. rewrite nonblank_string_spec, IH. reflexivity.
Qed.

Lemma nonblank_has_non_ws (v : JSValue) :
  nonblank v = true -> exists s, v = JStr s /\ has_non_ws s.
Proof.
  destruct v; try discriminate. simpl. intros H.
  eexists; split; [reflexivity|]. now apply nonempty_trim.
Qed.

Lemma filter_nonblank_strings (items : list JSValue) :
  Forall (fun x => exists s, x = JStr s /\ has_non_ws s) (filter nonblank items).
Proof.
  apply Forall_forall. intros x Hx. apply filter_In in Hx as [_ Hx].
  now apply nonblank_has_non_ws.
Qed.

Lemma trimmed_singleton (s : jsstring) :
  nonempty (trim s) = true ->
  Forall (fun x => exists t, x = JStr t /\ has_non_ws t) [JStr (trim s)].
Proof.
  intros H. constructor; [|constructor].
  eexists; split; [reflexivity|].
  apply trim_has_non_ws. now apply nonempty_true.
Qed.

(** The decoder on a string, by the outcome of [JSON.parse]. *)
Lemma safeJsonParse_string (s : jsstring) :
  s <> [] ->
  safeJsonParse (JStr s)
  = match JSON_parse s with
    | Ok (JArr items) => Ok (filter nonblank items)
    | Ok (JStr p) => if nonempty (trim p) then Ok [JStr (trim p)] else Ok []
    | Ok _ => Ok []
    | Throw _ => if nonempty (trim s) then Ok [JStr (trim s)] else Ok []
    end.
Proof.
  intros Hs. unfold safeJsonParse.
  destruct s as [|c s]; [congruence|]. cbn [truthy negb].
  destruct (JSON_parse (c :: s)) as [v|e]; [|reflexivity].
  destruct v; try reflexivity.
  - cbn [bind try_catch nonblank_string typeof_string method_trim].
    destruct (nonempty (trim s0)); reflexivity.
  - cbn [bind]. rewrite filterM_nonblank. reflexivity.
Qed.

Lemma filter_nonblank_tags (l : list jsstring) :
  Forall (fun s => nonempty (trim s) = true) l ->
  filter nonblank (map JStr l) = map JStr l.
Proof.
  induction 1 as [|s l Hs _ IH]; [reflexivity|].
  cbn [map filter nonblank]. rewrite Hs, IH. reflexivity.
Qed.

(** The decoder never throws; its result is [decoded]. *)
Lemma safeJsonParse_decoded (jsonString : JSValue) :
  safeJsonParse jsonString = Ok (decoded jsonString).
Proof.
  destruct jsonString as [| |b|n|s|items|ms]; try reflexivity.
  - unfold safeJsonParse. now destruct (negb (truthy (JBool b))).
  - unfold safeJsonParse. now destruct (negb (truthy (JNum n))).
  - destruct s as [|c s]; [reflexivity|].
    rewrite safeJsonParse_string by discriminate.
    cbn [decoded].
    destruct (JSON_parse (c :: s)) as [v|e].
    + destruct v; try reflexivity. now destruct (nonempty (trim s0)).
    + now destruct (nonempty (trim (c :: s))).
  - unfold safeJsonParse. cbn [truthy negb]. apply filterM_nonblank.
Qed.

(** C9: the tag decoder is total. On every input value [safeJsonParse]
    completes normally (it never throws), and every element of the list it
    returns is a string with at least one non-whitespace character. *)
Theorem safeJsonParse_total (jsonString : JSValue) :
  exists tags,
    safeJsonParse jsonString = Ok tags
    /\ Forall (fun x => exists s, x = JStr s /\ has_non_ws s) tags.
Proof.
  exists (decoded jsonString). split; [apply safeJsonParse_decoded|].
  destruct jsonString as [| |b|n|s|items|ms]; try constructor.
  - destruct s as [|c s]; [constructor|].
    cbn [decoded].
    destruct (JSON_parse (c :: s)) as [v|e].
    + destruct v; try constructor.
      * destruct (nonempty (trim s0)) eqn:E; [|constructor].
        now apply trimmed_singleton.
      * apply filter_nonblank_strings.
    + destruct (nonempty (trim (c :: s))) eqn:E; [|constructor].
      now apply trimmed_singleton.
  - apply filter_nonblank_strings.
Qed.

(** C1: tag serialise/deserialise round trip. [safeJsonStringify] returns
    [null] exactly when the list is empty and the JSON encoding of the array
    otherwise; for every list of non-empty trimmed strings, decoding the
    stored encoding with [safeJsonParse] returns the original list, and
    [safeJsonParse(null)] is the empty list. *)
Theorem tag_round_trip (tags : list jsstring) :
  (safeJsonStringify tags = None <-> tags = [])
  /\ (tags <> [] -> safeJsonStringify tags = Some (JSON_stringify tags))
  /\ (Forall trimmed_tag tags ->
      safeJsonParse (column_value (safeJsonStringify tags)) = Ok (map JStr tags))
  /\ safeJsonParse JNull = Ok [].
Proof.
  split; [|split; [|split]].
  - destruct tags; simpl; split; congruence.
  - destruct tags; [congruence|reflexivity].
  - intros Htags. destruct tags as [|x l]; [reflexivity|].
    cbn [safeJsonStringify column_value].
    rewrite safeJsonParse_string by (unfold JSON_stringify; discriminate).
    rewrite JSON_parse_stringify.
    rewrite filter_nonblank_tags; [reflexivity|].
    eapply Forall_impl; [|exact Htags].
    intros s [Hne Htrim]. rewrite Htrim. now apply nonempty_true.
  - reflexivity.
Qed.

(** The round trip on the tags [Cash] and [Liquid Vaults]. *)
Lemma tag_round_trip_witness :
  let tags := [u16 "Cash"; u16 "Liquid Vaults"] in
  Forall trimmed_tag tags
  /\ safeJsonParse (column_value (safeJsonStringify tags)) = Ok (map JStr tags).
Proof.
  intros tags.
  assert (H : Forall trimmed_tag tags).
  { repeat constructor; discriminate. }
  split; [exact H|].
  exact (proj1 (proj2 (proj2 (tag_round_trip tags))) H).
Defined.

(** C5, as stated, fails: the stored value [123] is a plain string that is
    not a JSON array and has non-whitespace content, yet the decoder returns
    the empty list and not the singleton holding the string. *)
Lemma plain_numeric_string_dropped :
  let stored := u16 "123" in
  (forall items, JSON_parse stored <> Ok (JArr items))
  /\ has_non_ws stored
  /\ safeJsonParse (JStr stored) = Ok []
  /\ safeJsonParse (JStr stored) <> Ok [JStr (trim stored)].
Proof.
  intros stored. split; [|split; [|split]].
  - intros items. vm_compute. discriminate.
  - exists 49. split; [now left|reflexivity].
  - vm_compute. reflexivity.
  - vm_compute. discriminate.
Qed.

(** C5, amended: a stored array decodes to its non-blank string elements; a
    stored string with non-whitespace content that is not valid JSON decodes
    to the singleton holding the string trimmed; a stored string that is
    valid JSON is decoded from the parsed value instead (an array to its
    non-blank string elements, a JSON string to its trimmed content when
    that is not blank, anything else to the empty list). *)
Theorem safeJsonParse_legacy :
  (forall items, safeJsonParse (JArr items) = Ok (filter nonblank items))
  /\ (forall s e,
        has_non_ws s -> JSON_parse s = Throw e ->
        safeJsonParse (JStr s) = Ok [JStr (trim s)])
  /\ (forall s parsed,
        JSON_parse s = Ok parsed ->
        safeJsonParse (JStr s)
        = Ok match parsed with
             | JArr items => filter nonblank items
             | JStr p => if nonempty (trim p) then [JStr (trim p)] else []
             | _ => []
             end).
Proof.
  split; [|split].
  - intros items. unfold safeJsonParse. cbn [truthy negb]. apply filterM_nonblank.
  - intros s e Hs He.
    assert (Hne : s <> []) by (destruct Hs as [c [Hin _]]; now destruct s).
    rewrite safeJsonParse_string, He by exact Hne.
    now rewrite (proj2 (nonempty_trim s) Hs).
  - intros s parsed Hp.
    assert (Hne : s <> []) by (intros ->; vm_compute in Hp; discriminate).
    rewrite safeJsonParse_string, Hp by exact Hne.
    destruct parsed; try reflexivity.
    now destruct (nonempty (trim s0)).
Qed.

(** The legacy plain string [ Cash ] and the JSON text [123]. *)
Lemma safeJsonParse_legacy_witness :
  safeJsonParse (JStr (u16 " Cash ")) = Ok [JStr (u16 "Cash")]
  /\ safeJsonParse (JStr (u16 "123")) = Ok [].
Proof.
  split.
  - refine (proj1 (proj2 safeJsonParse_legacy) (u16 " Cash ") SyntaxError _ _).
    + exists 67. split; [right; now left|reflexivity].
    + reflexivity.
  - refine (proj2 (proj2 safeJsonParse_legacy) (u16 "123") (JNum (u16 "123")) _).
    reflexivity.
Defined.

End CodecFacts.

(** * The numeric surrogate of a ticket identifier *)

Module IdFacts.
Import JS JSNum Types UseTickets Spec JSFacts.
Local Open Scope Z_scope.

Lemma toInt32_wrap32 (z : Z) : toInt32 z = wrap32 z.
Proof. reflexivity. Qed.

Lemma wrap32_range (z : Z) : - 2 ^ 31 <= wrap32 z < 2 ^ 31.
Proof.
  unfold wrap32.
  pose proof (Z.mod_pos_bound (z + 2 ^ 31) (2 ^ 32) ltac:(lia)). lia.
Qed.

Lemma wrap32_small (z : Z) : - 2 ^ 31 <= z < 2 ^ 31 -> wrap32 z = z.
Proof.
  intros H. unfold wrap32. rewrite Z.mod_small by lia. lia.
Qed.

Lemma wrap32_idem (z : Z) : wrap32 (wrap32 z) = wrap32 z.
Proof. apply wrap32_small, wrap32_range. Qed.

(** [wrap32] only depends on its argument modulo 2^32. *)
Lemma wrap32_congr (a b : Z) :
  (a mod 2 ^ 32 = b mod 2 ^ 32) -> wrap32 a = wrap32 b.
Proof.
  intros H. unfold wrap32.
  rewrite <- (Zplus_mod_idemp_l a), <- (Zplus_mod_idemp_l b), H.
  reflexivity.
Qed.

Lemma wrap32_mod (z : Z) : wrap32 z mod 2 ^ 32 = z mod 2 ^ 32.
Proof.
  unfold wrap32.
  rewrite Zminus_mod, Z.mod_mod by lia.
  rewrite <- Zminus_mod.
  f_equal. lia.
Qed.

(** One step of the reduction over the characters is one step of the
    multiply-shift accumulation. *)
Lemma hash_step_spec (a : Z) (b : N) :
  hash_step a b = wrap32 (Z.shiftl a 5 - a + Z.of_N b).
Proof.
  unfold hash_step, band, shl. rewrite !toInt32_wrap32.
  rewrite Z.land_diag, wrap32_idem.
  apply wrap32_congr.
  change (5 mod 32) with 5. rewrite !Z.shiftl_mul_pow2 by lia.
  rewrite (Zplus_mod (wrap32 (wrap32 a * 2 ^ 5) - a)).
  rewrite (Zminus_mod (wrap32 (wrap32 a * 2 ^ 5))).
  rewrite wrap32_mod.
  rewrite (Zmult_mod (wrap32 a)), wrap32_mod, <- Zmult_mod.
  rewrite <- Zminus_mod, <- Zplus_mod.
  reflexivity.
Qed.

Lemma fold_hash_step (s : jsstring) :
  forall h,
  fold_left hash_step s h
  = fold_left (fun h c => wrap32 (Z.shiftl h 5 - h + Z.of_N c)) s h.
Proof.
  induction s as [|c s IH]; intros h; [reflexivity|].
  cbn [fold_left]. rewrite hash_step_spec. apply IH.
Qed.

Lemma numeric_ticket_id_fallback (t : jsstring) :
  isNumeric t = false ->
  numeric_ticket_id t = Int (Z.abs (multiply_shift_hash t)).
Proof.
  intros H. unfold numeric_ticket_id, multiply_shift_hash, Math_abs.
  rewrite H, fold_hash_step. reflexivity.
Qed.

(** C6: for an identifier that is not numeric, [createTicket] and
    [updateTicket] send as numeric id the absolute value of the 32-bit
    wrapped multiply-shift accumulation over the characters of the
    identifier, started from 0; and that mapping is not injective: distinct
    non-numeric identifiers exist whose numeric ids coincide. *)
Theorem ticket_id_fallback :
  (forall clock data raw,
     TicketFormData.ticket_id data = Some raw ->
     has_non_ws raw ->
     isNumeric (trim raw) = false ->
     exists body,
       createTicket_payload clock data = Ok body
       /\ InsertPayload.ticket_id body
          = Int (Z.abs (multiply_shift_hash (trim raw))))
  /\ (forall clock updates raw,
        TicketUpdates.ticket_id updates = Some raw ->
        has_non_ws raw ->
        isNumeric (trim raw) = false ->
        UpdatePayload.ticket_id (updateTicket_payload clock updates)
        = Val (Int (Z.abs (multiply_shift_hash (trim raw)))))
  /\ (exists a b,
        a <> b
        /\ has_non_ws a /\ has_non_ws b
        /\ isNumeric (trim a) = false /\ isNumeric (trim b) = false
        /\ numeric_ticket_id (trim a) = numeric_ticket_id (trim b)).
Proof.
  split; [|split].
  - intros clock data raw Hid Hws Hnum.
    assert (Hraw : nonempty raw = true).
    { destruct Hws as [c [Hin _]]. now destruct raw. }
    unfold createTicket_payload. rewrite Hid.
    rewrite Hraw, (proj2 (nonempty_trim raw) Hws). cbn [negb orb].
    eexists. split; [reflexivity|].
    cbn [InsertPayload.ticket_id]. now apply numeric_ticket_id_fallback.
  - intros clock updates raw Hid Hws Hnum.
    assert (Hraw : nonempty raw = true).
    { destruct Hws as [c [Hin _]]. now destruct raw. }
    unfold updateTicket_payload. cbn [UpdatePayload.ticket_id].
    rewrite Hid, Hraw, (proj2 (nonempty_trim raw) Hws). cbn [andb].
    now rewrite numeric_ticket_id_fallback.
  - exists (u16 "Aa"), (u16 "BB").
    split; [discriminate|].
    split; [exists 65%N; split; [now left|reflexivity]|].
    split; [exists 66%N; split; [now left|reflexivity]|].
    repeat split; reflexivity.
Qed.

(** The identifier [TKT-7] in a new ticket. *)
Lemma ticket_id_fallback_witness :
  let data :=
    TicketFormData.mk (Some (u16 " TKT-7 ")) In_Dev [] (u16 "login fails") []
                      [] [] SEV_2 in
  exists body,
    createTicket_payload (mkClock (u16 "2024-05-01T10:00:00.000Z")) data = Ok body
    /\ InsertPayload.ticket_id body = Int 79892263.
Proof.
  intros data.
  refine (proj1 ticket_id_fallback
            (mkClock (u16 "2024-05-01T10:00:00.000Z")) data (u16 " TKT-7 ") _ _ _).
  - reflexivity.
  - exists 84%N. split; [right; now left|reflexivity].
  - reflexivity.
Defined.

End IdFacts.

(** * The write paths *)

Module WriteFacts.
Import JS JSNum Types Spec JSFacts.

Lemma status_eqb_eq (a b : TicketStatus) : status_eqb a b = true <-> a = b.
Proof. destruct a, b; simpl; split; congruence. Qed.

Lemma severity_eqb_eq (a b : Severity) : severity_eqb a b = true <-> a = b.
Proof. destruct a, b; simpl; split; congruence. Qed.

Lemma resolved_date (s : TicketStatus) (d : jsstring) :
  (if status_eqb s Resolved then Some d else None) <> None <-> s = Resolved.
Proof.
  destruct (status_eqb s Resolved) eqn:E.
  - apply status_eqb_eq in E. split; [auto|discriminate].
  - split; [congruence|]. intros H. apply status_eqb_eq in H. congruence.
Qed.

Lemma createTicket_payload_fields (clock : Clock) (data : TicketFormData.t)
    (body : UseTickets.InsertPayload.t) :
  UseTickets.createTicket_payload clock data = Ok body ->
  UseTickets.InsertPayload.status body = TicketFormData.status data
  /\ UseTickets.InsertPayload.date_of_resolved body
     = (if status_eqb (TicketFormData.status data) Resolved
        then Some (today clock) else None).
Proof.
  unfold UseTickets.createTicket_payload.
  destruct (TicketFormData.ticket_id data) as [raw|]; [|discriminate].
  destruct (negb (nonempty raw) || negb (nonempty (trim raw))); [discriminate|].
  intros H. injection H as <-. split; reflexivity.
Qed.

(** C3: the resolution-date invariant on the write paths. In the row that
    [createTicket] inserts, in the update that [updateTicket] sends when a
    status is supplied, and in the update of [bulkUpdateTicketStatus], the
    resolution date written with the status is non-null if and only if the
    status is [Resolved]; so it is in the stored row after the write. *)
Theorem resolution_date_invariant :
  (forall clock data body ticket_id,
     UseTickets.createTicket_payload clock data = Ok body ->
     (UseTickets.InsertPayload.date_of_resolved body <> None
      <-> UseTickets.InsertPayload.status body = Resolved)
     /\ let row := Backend.inserted ticket_id body in
        (UseTickets.Row.date_of_resolved row <> None
         <-> UseTickets.Row.status row = Some Resolved))
  /\ (forall clock updates s row,
        TicketUpdates.status updates = Some s ->
        let body := UseTickets.updateTicket_payload clock updates in
        let row' := Backend.updated body row in
        UseTickets.UpdatePayload.status body = Val s
        /\ ((exists d, UseTickets.UpdatePayload.date_of_resolved body = Val d)
            <-> s = Resolved)
        /\ (UseTickets.UpdatePayload.date_of_resolved body = Null
            <-> s <> Resolved)
        /\ UseTickets.Row.status row' = Some s
        /\ (UseTickets.Row.date_of_resolved row' <> None <-> s = Resolved))
  /\ (forall clock status row,
        let body := UseTickets.bulkUpdateTicketStatus_payload clock status in
        let row' := Backend.bulk_updated body row in
        UseTickets.BulkPayload.status body = status
        /\ (UseTickets.BulkPayload.date_of_resolved body <> None
            <-> status = Resolved)
        /\ UseTickets.Row.status row' = Some status
        /\ (UseTickets.Row.date_of_resolved row' <> None <-> status = Resolved)).
Proof.
  split; [|split].
  - intros clock data body ticket_id Hbody.
    destruct (createTicket_payload_fields _ _ _ Hbody) as [Hs Hd].
    cbn [Backend.inserted UseTickets.Row.date_of_resolved UseTickets.Row.status].
    rewrite Hd, Hs. split.
    + apply resolved_date.
    + rewrite resolved_date. split; congruence.
  - intros clock updates s row Hs.
    cbn [UseTickets.updateTicket_payload UseTickets.UpdatePayload.status
         UseTickets.UpdatePayload.date_of_resolved Backend.updated
         UseTickets.Row.status UseTickets.Row.date_of_resolved].
    rewrite Hs. cbn [of_option Backend.assign].
    destruct (status_eqb s Resolved) eqn:E.
    + apply status_eqb_eq in E. subst s.
      repeat split; try congruence; try discriminate; eauto.
    + assert (Hne : s <> Resolved).
      { intros H. apply status_eqb_eq in H. congruence. }
      repeat split; try congruence; try tauto.
      intros [d Hd]. discriminate.
  - intros clock status row.
    cbn [UseTickets.bulkUpdateTicketStatus_payload UseTickets.BulkPayload.status
         UseTickets.BulkPayload.date_of_resolved Backend.bulk_updated
         UseTickets.Row.status UseTickets.Row.date_of_resolved].
    repeat split; try apply resolved_date.
Qed.

(** A ticket updated to [Resolved], and one created as [In Dev]. *)
Lemma resolution_date_invariant_witness :
  let clock := mkClock (u16 "2024-05-01T10:00:00.000Z") in
  let updates :=
    TicketUpdates.mk None (Some Resolved) None None None None None None in
  let row :=
    UseTickets.Row.mk 7 (Some In_Dev) None None None JNull JNull None None None in
  let data := TicketFormData.mk (Some (u16 "41")) In_Dev [] [] [] [] [] SEV_3 in
  (TicketUpdates.status updates = Some Resolved
   /\ (UseTickets.Row.date_of_resolved
         (Backend.updated (UseTickets.updateTicket_payload clock updates) row)
       <> None <-> Resolved = Resolved))
  /\ exists body,
       UseTickets.createTicket_payload clock data = Ok body
       /\ (UseTickets.InsertPayload.date_of_resolved body <> None
           <-> UseTickets.InsertPayload.status body = Resolved).
Proof.
  intros clock updates row data. split.
  - split; [reflexivity|].
    exact (proj2 (proj2 (proj2 (proj2
             (proj1 (proj2 resolution_date_invariant)
                    clock updates Resolved row eq_refl))))).
  - eexists. split; [reflexivity|].
    exact (proj1 (proj1 resolution_date_invariant clock data _ 41%Z eq_refl)).
Defined.

End WriteFacts.

(** * What an update overwrites *)

Module OverwriteFacts.
Import JS JSNum Types Spec JSFacts WriteFacts.

Lemma assign_of_option {A} (supplied old : option A) :
  Backend.assign (of_option supplied) old = supplied_or_kept supplied old.
Proof. now destruct supplied. Qed.

Lemma assign_or_null {A} (supplied old : option A) :
  Backend.assign (or_null supplied) old = supplied.
Proof. now destruct supplied. Qed.

Lemma assign_text_tags (tags : option (list jsstring)) (old : JSValue) :
  Backend.assign_text
    (match tags with
     | Some l => or_null (UseTickets.safeJsonStringify l)
     | None => Null
     end) old
  = UseTickets.column_value
      (match tags with
       | Some l => UseTickets.safeJsonStringify l
       | None => None
       end).
Proof.
  destruct tags as [l|]; [|reflexivity].
  now destruct (UseTickets.safeJsonStringify l).
Qed.

(** C8, as stated, fails: an update that supplies only a status, and no tag
    list at all, sends [product: null] and [category: null]; the stored
    product tags of the ticket are cleared although the caller did not
    supply them as empty, and the payload has no [ticket_id] and no
    [created_at]. *)
Lemma update_without_tags_clears_tags :
  let clock := mkClock (u16 "2024-05-01T10:00:00.000Z") in
  let updates :=
    TicketUpdates.mk None (Some In_Dev) None None None None None None in
  let row :=
    UseTickets.Row.mk 7 (Some Not_Started) (Some (u16 "login fails")) None None
      (JStr (JSON_stringify [u16 "Cash"])) JNull (Some SEV_2) None
      (Some (u16 "2024-04-30T08:00:00.000Z")) in
  let body := UseTickets.updateTicket_payload clock updates in
  TicketUpdates.product_tags updates = None
  /\ UseTickets.safeJsonParse (UseTickets.Row.product row) = Ok [JStr (u16 "Cash")]
  /\ UseTickets.UpdatePayload.product body = Null
  /\ UseTickets.Row.product (Backend.updated body row) = JNull
  /\ UseTickets.UpdatePayload.ticket_id body = Undefined
  /\ UseTickets.UpdatePayload.issue_description body = Undefined.
Proof. repeat split; vm_compute; reflexivity. Qed.

(** C8, amended: [updateTicket] and [updateFeedback] send one body per
    update, and the stored record after it is as follows. A supplied status,
    description, comment, contact or severity (feedback: platform,
    acknowledgement, shipped flag) takes the supplied value, and is left as
    stored when the caller omits it. The two tag columns (feedback: product
    and description) are written by every update: the encoding of the
    supplied list when it is not empty, and [null] both when the caller
    supplies an empty list and when the caller omits the field. The
    resolution date is written when a status is supplied, the ticket id
    when a non-blank identifier is supplied, and the creation timestamp
    never. *)
Theorem update_overwrite :
  (forall clock updates row,
     let row' :=
       Backend.updated (UseTickets.updateTicket_payload clock updates) row in
     UseTickets.Row.status row'
     = supplied_or_kept (TicketUpdates.status updates) (UseTickets.Row.status row)
     /\ UseTickets.Row.issue_description row'
        = supplied_or_kept (TicketUpdates.issue_description updates)
                           (UseTickets.Row.issue_description row)
     /\ UseTickets.Row.core_team_comment row'
        = supplied_or_kept (TicketUpdates.core_team_comments updates)
                           (UseTickets.Row.core_team_comment row)
     /\ UseTickets.Row.wallet_address_safe_email row'
        = supplied_or_kept (TicketUpdates.contact_info updates)
                           (UseTickets.Row.wallet_address_safe_email row)
     /\ UseTickets.Row.severity row'
        = supplied_or_kept (TicketUpdates.severity updates)
                           (UseTickets.Row.severity row)
     /\ UseTickets.Row.product row'
        = UseTickets.column_value
            (match TicketUpdates.product_tags updates with
             | Some (x :: l) => Some (JSON_stringify (x :: l))
             | _ => None
             end)
     /\ UseTickets.Row.category row'
        = UseTickets.column_value
            (match TicketUpdates.category_tags updates with
             | Some (x :: l) => Some (JSON_stringify (x :: l))
             | _ => None
             end)
     /\ UseTickets.Row.date_of_resolved row'
        = match TicketUpdates.status updates with
          | Some s => if status_eqb s Resolved then Some (today clock) else None
          | None => UseTickets.Row.date_of_resolved row
          end
     /\ (UseTickets.UpdatePayload.ticket_id
           (UseTickets.updateTicket_payload clock updates) = Undefined
         \/ exists raw,
              TicketUpdates.ticket_id updates = Some raw /\ has_non_ws raw
              /\ UseTickets.UpdatePayload.ticket_id
                   (UseTickets.updateTicket_payload clock updates)
                 = Val (UseTickets.numeric_ticket_id (trim raw)))
     /\ UseTickets.Row.created_at row' = UseTickets.Row.created_at row)
  /\ (forall clock updates row,
        let row' :=
          Backend.feedback_written
            (UseFeedback.updateFeedback_payload clock updates) row in
        UseFeedback.Row.platform row'
        = supplied_or_kept (FeedbackFormData.platform updates)
                           (UseFeedback.Row.platform row)
        /\ UseFeedback.Row.core_team_acknowledgement row'
           = supplied_or_kept (FeedbackFormData.core_team_acknowledgement updates)
                              (UseFeedback.Row.core_team_acknowledgement row)
        /\ UseFeedback.Row.shipped row'
           = supplied_or_kept (FeedbackFormData.shipped updates)
                              (UseFeedback.Row.shipped row)
        /\ UseFeedback.Row.product row' = or_none (FeedbackFormData.product updates)
        /\ UseFeedback.Row.description row'
           = or_none (FeedbackFormData.description updates)
        /\ UseFeedback.Row.created_at row' = UseFeedback.Row.created_at row).
Proof.
  split.
  - intros clock updates row.
    cbn [Backend.updated UseTickets.updateTicket_payload
         UseTickets.UpdatePayload.status UseTickets.UpdatePayload.issue_description
         UseTickets.UpdatePayload.core_team_comment
         UseTickets.UpdatePayload.wallet_address_safe_email
         UseTickets.UpdatePayload.product UseTickets.UpdatePayload.category
         UseTickets.UpdatePayload.severity
         UseTickets.UpdatePayload.date_of_resolved
         UseTickets.UpdatePayload.ticket_id UseTickets.Row.date_of_resolved
         UseTickets.Row.status UseTickets.Row.issue_description
         UseTickets.Row.core_team_comment UseTickets.Row.wallet_address_safe_email
         UseTickets.Row.product UseTickets.Row.category UseTickets.Row.severity
         UseTickets.Row.created_at].
    rewrite !assign_of_option, !assign_text_tags.
    repeat apply conj; try reflexivity.
    + now destruct (TicketUpdates.product_tags updates) as [[|x l]|].
    + now destruct (TicketUpdates.category_tags updates) as [[|x l]|].
    + destruct (TicketUpdates.status updates) as [s|]; [|reflexivity].
      now destruct (status_eqb s Resolved).
    + destruct (TicketUpdates.ticket_id updates) as [raw|]; [|now left].
      destruct (nonempty raw && nonempty (trim raw)) eqn:E; [|now left].
      right. exists raw. apply andb_true_iff in E as [_ E].
      apply nonempty_trim in E. auto.
  - intros clock updates row.
    cbn [Backend.feedback_written UseFeedback.updateFeedback_payload
         UseFeedback.Payload.platform UseFeedback.Payload.product
         UseFeedback.Payload.description
         UseFeedback.Payload.core_team_acknowledgement
         UseFeedback.Payload.shipped UseFeedback.Payload.created_at
         UseFeedback.Row.platform UseFeedback.Row.product
         UseFeedback.Row.description UseFeedback.Row.core_team_acknowledgement
         UseFeedback.Row.shipped UseFeedback.Row.created_at].
    rewrite !assign_of_option, !assign_or_null.
    repeat split.
Qed.

(** C4 at the input where the code departs from it: for a form with
    [shipped] true and an empty shipping date, [createFeedback] writes
    [shipping_date: null] next to [shipped: true], where [updateFeedback]
    writes the current date for the same form. *)
Theorem createFeedback_no_auto_date (clock : Clock) :
  let data :=
    FeedbackFormData.mk None (Some (u16 "2024-05-01")) (Some Discord)
      (Some (u16 "Cash")) (Some (u16 "faster card top-up")) None
      (Some true) (Some []) in
  UseFeedback.Payload.shipped (UseFeedback.createFeedback_payload clock data)
  = Val true
  /\ UseFeedback.Payload.shipping_date (UseFeedback.createFeedback_payload clock data)
     = Null
  /\ UseFeedback.Payload.shipping_date (UseFeedback.updateFeedback_payload clock data)
     = Val (today clock).
Proof. repeat split. Qed.

(** The parts of the shipping-date rule that every path keeps: an update
    with [shipped] true and no date writes the current date; with [shipped]
    false, [createFeedback] and [updateFeedback] write [null], and the form
    effect empties the field; the form effect fills the current date in when
    [shipped] turns true on an empty date. *)
Lemma shipping_date_rule (clock : Clock) (data : FeedbackFormData.t) :
  (FeedbackFormData.shipped data = Some true ->
   or_none (FeedbackFormData.shipping_date data) = None ->
   UseFeedback.Payload.shipping_date (UseFeedback.updateFeedback_payload clock data)
   = Val (today clock)
   /\ FeedbackFormData.shipping_date (UseFeedback.shipped_effect clock data)
      = Some (today clock))
  /\ (FeedbackFormData.shipped data = Some false ->
      UseFeedback.Payload.shipping_date (UseFeedback.createFeedback_payload clock data)
      = Null
      /\ UseFeedback.Payload.shipping_date
           (UseFeedback.updateFeedback_payload clock data) = Null
      /\ FeedbackFormData.shipping_date (UseFeedback.shipped_effect clock data)
         = Some []).
Proof.
  split.
  - intros Hs Hd.
    unfold UseFeedback.updateFeedback_payload, UseFeedback.shipped_effect.
    cbn [UseFeedback.Payload.shipping_date].
    rewrite Hs, Hd. split; reflexivity.
  - intros Hs.
    unfold UseFeedback.updateFeedback_payload, UseFeedback.createFeedback_payload,
      UseFeedback.shipped_effect, UseFeedback.shipping_date_or_null.
    cbn [UseFeedback.Payload.shipping_date].
    rewrite Hs. repeat split.
Qed.

End OverwriteFacts.

(** * The local state of the hooks *)

Module StateFacts.
Import JS JSNum Types Spec JSFacts.

Lemma includes_In (ids : list jsstring) (x : jsstring) :
  includes ids x = true <-> In x ids.
Proof.
  unfold includes. rewrite existsb_exists. split.
  - intros [y [Hin Hy]]. apply str_eqb_eq in Hy. now subst.
  - intros H. exists x. split; [exact H|apply str_eqb_refl].
Qed.

Lemma removed_filter (ids : list jsstring) (l : list Ticket.t) :
  removed ids l
    (filter (fun ticket => negb (includes ids (Ticket.id ticket))) l).
Proof.
  induction l as [|t l IH]; [constructor|].
  cbn [filter]. destruct (includes ids (Ticket.id t)) eqn:E; cbn [negb].
  - apply removed_drop; [now apply includes_In|exact IH].
  - apply removed_keep; [|exact IH].
    intros H. apply includes_In in H. congruence.
Qed.

Lemma removed_functional (ids : list jsstring) (l l1 l2 : list Ticket.t) :
  removed ids l l1 -> removed ids l l2 -> l1 = l2.
Proof.
  intros H1. revert l2.
  induction H1 as [|t l l' Hin _ IH|t l l' Hout _ IH]; intros l2 H2;
    inversion H2; subst; try tauto; auto.
  f_equal. auto.
Qed.

(** C10: bulk delete removes exactly the selected records. When the backend
    delete succeeds, the local ticket list after [bulkDeleteTickets] is the
    previous list with precisely the tickets whose id is in the given list
    removed, every other ticket unchanged and in its original order. *)
Theorem bulkDeleteTickets_exact
    (delete_in : list number -> result unit) (ids : list jsstring)
    (st : UseTickets.State) (u : unit) :
  delete_in (map parseInt ids) = Ok u ->
  let out := UseTickets.bulkDeleteTickets delete_in ids st in
  snd out = Ok tt
  /\ (forall l', removed ids (UseTickets.tickets st) l'
                 <-> l' = UseTickets.tickets (fst out))
  /\ (forall t, In t (UseTickets.tickets (fst out))
                <-> In t (UseTickets.tickets st) /\ ~ In (Ticket.id t) ids).
Proof.
  intros Hok. unfold UseTickets.bulkDeleteTickets. rewrite Hok.
  cbn [fst snd UseTickets.setTickets UseTickets.setError UseTickets.tickets].
  split; [reflexivity|split].
  - intros l'. split.
    + intros H. eapply removed_functional; [exact H|apply removed_filter].
    + intros ->. apply removed_filter.
  - intros t. rewrite filter_In, negb_true_iff.
    split; intros [H1 H2]; (split; [exact H1|]).
    + intros H. apply includes_In in H. congruence.
    + destruct (includes ids (Ticket.id t)) eqn:E; [|reflexivity].
      apply includes_In in E. tauto.
Qed.

(** Three tickets, the first and the last selected. *)
Lemma bulkDeleteTickets_exact_witness :
  let ticket id :=
    Ticket.mk id id In_Dev [] None [] [] [] [] [] SEV_3 [] [] in
  let st :=
    UseTickets.mkState [ticket (u16 "11"); ticket (u16 "12"); ticket (u16 "13")]
                       false None in
  let out :=
    UseTickets.bulkDeleteTickets (fun _ => Ok tt) [u16 "13"; u16 "11"] st in
  snd out = Ok tt /\ UseTickets.tickets (fst out) = [ticket (u16 "12")].
Proof.
  intros ticket st out.
  pose proof (bulkDeleteTickets_exact (fun _ => Ok tt) [u16 "13"; u16 "11"] st tt
                eq_refl) as [Hres _].
  split; [exact Hres|reflexivity].
Defined.

(** C7, as stated, fails for one operation of the ticket hook: when the
    backend call of [getUniqueTagsFromSupabase] fails, the exception is
    caught, but no error string is set; the operation returns an empty
    list. *)
Lemma getUniqueTags_failure_not_displayed :
  let st := UseTickets.mkState [] false None in
  let err := mkError true (u16 "network unreachable") in
  let out := UseTickets.getUniqueTagsFromSupabase (fun _ => Throw err) true st in
  snd out = Ok [] /\ UseTickets.error (fst out) = None.
Proof. split; reflexivity. Qed.

(** C7, amended: for every operation of the two hooks that loads or changes
    the record list (fetch, search, create, update, delete, bulk delete and
    bulk status update of tickets; fetch, search, create, update, delete and
    bulk delete of feedback), when the backend call fails the exception is
    caught and the error string is set from it (the message of an [Error],
    a fixed text otherwise), the mutating operations throw the exception
    again, the fetches and searches complete normally, and the local list is
    as before. [getUniqueTagsFromSupabase] catches the failure too, returns
    the empty list and leaves the error string and the list untouched. *)
Theorem backend_failure_handling (err : JSError) :
  (forall select clock st,
     select [] = Throw err ->
     let out := UseTickets.fetchTickets select clock st in
     snd out = Ok tt
     /\ ticket_failure_reported st (fst out) err "Failed to fetch tickets")
  /\ (forall select clock filters st,
        select (UseTickets.searchTickets_query filters) = Throw err ->
        let out := UseTickets.searchTickets select clock filters st in
        snd out = Ok tt
        /\ ticket_failure_reported st (fst out) err "Failed to search tickets")
  /\ (forall insert clock data body st,
        UseTickets.createTicket_payload clock data = Ok body ->
        insert body = Throw err ->
        let out := UseTickets.createTicket insert clock data st in
        snd out = Throw err
        /\ ticket_failure_reported st (fst out) err "Failed to create ticket")
  /\ (forall update clock id updates st,
        update (UseTickets.updateTicket_payload clock updates) (parseInt id)
        = Throw err ->
        let out := UseTickets.updateTicket update clock id updates st in
        snd out = Throw err
        /\ ticket_failure_reported st (fst out) err "Failed to update ticket")
  /\ (forall delete id st,
        delete (parseInt id) = Throw err ->
        let out := UseTickets.deleteTicket delete id st in
        snd out = Throw err
        /\ ticket_failure_reported st (fst out) err "Failed to delete ticket")
  /\ (forall delete_in ids st,
        delete_in (map parseInt ids) = Throw err ->
        let out := UseTickets.bulkDeleteTickets delete_in ids st in
        snd out = Throw err
        /\ ticket_failure_reported st (fst out) err "Failed to delete tickets")
  /\ (forall update_in clock ids status st,
        update_in (UseTickets.bulkUpdateTicketStatus_payload clock status)
                  (map parseInt ids) = Throw err ->
        let out := UseTickets.bulkUpdateTicketStatus update_in clock ids status st in
        snd out = Throw err
        /\ ticket_failure_reported st (fst out) err
             "Failed to update ticket status")
  /\ (forall select_column product st,
        select_column product = Throw err ->
        UseTickets.getUniqueTagsFromSupabase select_column product st
        = (st, Ok []))
  /\ (forall select clock st,
        select [] = Throw err ->
        let out := UseFeedback.fetchFeedback select clock st in
        snd out = Ok tt
        /\ feedback_failure_reported st (fst out) err "Failed to fetch feedback")
  /\ (forall select clock filters st,
        select (UseFeedback.searchFeedback_query filters) = Throw err ->
        let out := UseFeedback.searchFeedback select clock filters st in
        snd out = Ok tt
        /\ feedback_failure_reported st (fst out) err "Failed to search feedback")
  /\ (forall insert clock data st,
        insert (UseFeedback.createFeedback_payload clock data) = Throw err ->
        let out := UseFeedback.createFeedback insert clock data st in
        snd out = Throw err
        /\ feedback_failure_reported st (fst out) err "Failed to create feedback")
  /\ (forall update clock id updates st,
        update (UseFeedback.updateFeedback_payload clock updates) (parseInt id)
        = Throw err ->
        let out := UseFeedback.updateFeedback update clock id updates st in
        snd out = Throw err
        /\ feedback_failure_reported st (fst out) err "Failed to update feedback")
  /\ (forall delete id st,
        delete (parseInt id) = Throw err ->
        let out := UseFeedback.deleteFeedback delete id st in
        snd out = Throw err
        /\ feedback_failure_reported st (fst out) err "Failed to delete feedback")
  /\ (forall delete_in ids st,
        delete_in (map parseInt ids) = Throw err ->
        let out := UseFeedback.bulkDeleteFeedback delete_in ids st in
        snd out = Throw err
        /\ feedback_failure_reported st (fst out) err "Failed to delete feedback").
Proof.
  repeat apply conj.
  - intros select clock st H. unfold UseTickets.fetchTickets.
    rewrite H. repeat split.
  - intros select clock filters st H. unfold UseTickets.searchTickets.
    rewrite H. repeat split.
  - intros insert clock data body st Hb H. unfold UseTickets.createTicket.
    rewrite Hb. cbn [bind]. rewrite H. repeat split.
  - intros update clock id updates st H. unfold UseTickets.updateTicket.
    rewrite H. repeat split.
  - intros delete id st H. unfold UseTickets.deleteTicket.
    rewrite H. repeat split.
  - intros delete_in ids st H. unfold UseTickets.bulkDeleteTickets.
    rewrite H. repeat split.
  - intros update_in clock ids status st H.
    unfold UseTickets.bulkUpdateTicketStatus. rewrite H. repeat split.
  - intros select_column product st H.
    unfold UseTickets.getUniqueTagsFromSupabase. now rewrite H.
  - intros select clock st H. unfold UseFeedback.fetchFeedback.
    rewrite H. repeat split.
  - intros select clock filters st H. unfold UseFeedback.searchFeedback.
    rewrite H. repeat split.
  - intros insert clock data st H. unfold UseFeedback.createFeedback.
    rewrite H. repeat split.
  - intros update clock id updates st H. unfold UseFeedback.updateFeedback.
    rewrite H. repeat split.
  - intros delete id st H. unfold UseFeedback.deleteFeedback.
    rewrite H. repeat split.
  - intros delete_in ids st H. unfold UseFeedback.bulkDeleteFeedback.
    rewrite H. repeat split.
Qed.

(** A failed delete of a ticket, with a rejection that is not an [Error]. *)
Lemma backend_failure_handling_witness :
  let err := mkError false [] in
  let ticket :=
    Ticket.mk (u16 "11") (u16 "11") In_Dev [] None [] [] [] [] [] SEV_3 [] [] in
  let st := UseTickets.mkState [ticket] false None in
  let out := UseTickets.deleteTicket (fun _ => Throw err) (u16 "11") st in
  snd out = Throw err
  /\ UseTickets.tickets (fst out) = [ticket]
  /\ UseTickets.error (fst out) = Some (u16 "Failed to delete ticket").
Proof.
  intros err ticket st out.
  destruct (backend_failure_handling err)
    as (_ & _ & _ & _ & Hdelete & _).
  destruct (Hdelete (fun _ => Throw err) (u16 "11") st eq_refl) as [Hres [Hl He]].
  split; [exact Hres|split; [exact Hl|exact He]].
Defined.

End StateFacts.

(** * Search *)

Module SearchFacts.
Import JS JSNum Types Spec JSFacts CodecFacts WriteFacts.

Lemma starts_with_app (q s : jsstring) :
  Notion.starts_with q s = true <-> exists b, s = q ++ b.
Proof.
  revert s. induction q as [|x q IH]; intros s.
  - simpl. split; [intros _; now exists s|reflexivity].
  - destruct s as [|y s]; simpl.
    + split; [discriminate|intros [b Hb]; discriminate].
    + rewrite andb_true_iff, N.eqb_eq, IH. split.
      * intros [-> [b ->]]. now exists b.
      * intros [b Hb]. injection Hb as -> ->. split; [reflexivity|now exists b].
Qed.

(** [includes] on strings decides the substring relation. *)
Lemma str_includes_substring (s q : jsstring) :
  Notion.str_includes s q = true <-> substring q s.
Proof.
  unfold substring. induction s as [|c s IH].
  - cbn [Notion.str_includes]. rewrite orb_false_r, starts_with_app. split.
    + intros [b Hb]. now exists [], b.
    + intros [a [b Hab]]. destruct a; [|discriminate]. now exists b.
  - cbn [Notion.str_includes]. rewrite orb_true_iff, starts_with_app, IH. split.
    + intros [[b Hb]|[a [b Hab]]].
      * now exists [], b.
      * exists (c :: a), b. simpl. now rewrite Hab.
    + intros [a [b Hab]]. destruct a as [|x a].
      * left. now exists b.
      * right. simpl in Hab. injection Hab as _ Hab. now exists a, b.
Qed.

Lemma includes_value_In (arr : list JSValue) (s : jsstring) :
  includes_value arr s = true <-> In (JStr s) arr.
Proof.
  unfold includes_value. rewrite existsb_exists. split.
  - intros [v [Hin Hv]]. destruct v; try discriminate.
    apply str_eqb_eq in Hv. now subst.
  - intros H. exists (JStr s). split; [exact H|apply str_eqb_refl].
Qed.

Lemma some_tag_any (tags : list jsstring) (ticket_tags : list JSValue) :
  some_tag tags ticket_tags = true <-> any_tag tags ticket_tags.
Proof.
  unfold some_tag, any_tag. rewrite existsb_exists.
  split; intros [tag [H1 H2]]; exists tag; (split; [exact H1|]);
    now apply includes_value_In.
Qed.

Lemma text_matches_found (toLowerCase : jsstring -> jsstring) (q : jsstring)
    (t : Ticket.t) :
  Notion.text_matches toLowerCase (toLowerCase q) t = true
  <-> text_found toLowerCase q t.
Proof.
  unfold Notion.text_matches, text_found.
  rewrite !orb_true_iff, !str_includes_substring. split.
  - intros [[[H|H]|H]|H]; eexists; (split; [|exact H]); simpl; tauto.
  - intros [field [Hin H]]. simpl in Hin.
    destruct Hin as [<-|[<-|[<-|[<-|[]]]]]; tauto.
Qed.

Lemma existsb_status (s : TicketStatus) (l : list TicketStatus) :
  existsb (status_eqb s) l = true <-> In s l.
Proof.
  rewrite existsb_exists. split.
  - intros [x [Hin Hx]]. apply status_eqb_eq in Hx. now subst.
  - intros H. exists s. split; [exact H|now apply status_eqb_eq].
Qed.

Lemma existsb_severity (s : Severity) (l : list Severity) :
  existsb (severity_eqb s) l = true <-> In s l.
Proof.
  rewrite existsb_exists. split.
  - intros [x [Hin Hx]]. apply severity_eqb_eq in Hx. now subst.
  - intros H. exists s. split; [exact H|now apply severity_eqb_eq].
Qed.

(** A criterion that is sent only when it is selected. *)
Lemma forallb_option {A C} (o : option A) (f : A -> C) (p : C -> bool) :
  forallb p (match o with Some a => [f a] | None => [] end) = true
  <-> (forall a, o = Some a -> p (f a) = true).
Proof.
  destruct o as [a|]; simpl.
  - rewrite andb_true_r. split.
    + intros H b Hb. now injection Hb as <-.
    + intros H. now apply H.
  - split; [discriminate|reflexivity].
Qed.

Lemma filter_option {A B} (o : option B) (p : B -> A -> bool) (l : list A) (x : A) :
  In x (match o with Some b => filter (p b) l | None => l end)
  <-> In x l /\ (forall b, o = Some b -> p b x = true).
Proof.
  destruct o as [b|].
  - rewrite filter_In. split.
    + intros [H1 H2]. split; [exact H1|]. intros b' Hb. now injection Hb as <-.
    + intros [H1 H2]. split; [exact H1|now apply H2].
  - split; [intros H; split; [exact H|discriminate]|tauto].
Qed.

Lemma cut_at_app (sep : N) (a b : jsstring) :
  forallb (fun c => negb (c =? sep)) a = true ->
  Backend.cut_at sep (a ++ sep :: b) = Some (a, b).
Proof.
  induction a as [|c a IH]; cbn [forallb app Backend.cut_at].
  - now rewrite N.eqb_refl.
  - rewrite andb_true_iff, negb_true_iff. intros [Hc Ha].
    now rewrite Hc, (IH Ha).
Qed.

Lemma split_at_last (sep : N) (a : jsstring) :
  forallb (fun c => negb (c =? sep)) a = true -> Backend.split_at sep a = [a].
Proof.
  induction a as [|c a IH]; cbn [forallb Backend.split_at]; [reflexivity|].
  rewrite andb_true_iff, negb_true_iff. intros [Hc Ha].
  now rewrite Hc, (IH Ha).
Qed.

Lemma split_at_app (sep : N) (a b : jsstring) :
  forallb (fun c => negb (c =? sep)) a = true ->
  Backend.split_at sep (a ++ sep :: b) = a :: Backend.split_at sep b.
Proof.
  induction a as [|c a IH]; cbn [forallb app Backend.split_at].
  - now rewrite N.eqb_refl.
  - rewrite andb_true_iff, negb_true_iff. intros [Hc Ha].
    now rewrite Hc, (IH Ha).
Qed.

(** A search text without reserved characters has no comma and none of
    the three wildcards. *)
Lemma searchable_plain (q : jsstring) :
  Forall (fun c => reserved c = false) q ->
  forallb (fun c => negb (c =? 44)) q = true
  /\ Forall (fun c => (c =? 37) || (c =? 42) = false /\ (c =? 95) = false) q.
Proof.
  induction 1 as [|c q Hc _ [IH1 IH2]]; [split; constructor|].
  unfold reserved in Hc. cbn [existsb] in Hc.
  repeat (apply orb_false_iff in Hc; destruct Hc as [? Hc]).
  split.
  - cbn [forallb]. rewrite IH1. now replace (c =? 44) with false.
  - constructor; [|exact IH2].
    replace (c =? 37) with false. replace (c =? 42) with false.
    now replace (c =? 95) with false.
Qed.

Section Notion.

Variable toLowerCase : jsstring -> jsstring.
Variable date_leb : jsstring -> jsstring -> bool.

Lemma query_In (pages : list Notion.Page.t) (filters : SearchFilters.t)
    (page : Notion.Page.t) :
  In page (Backend.query date_leb pages (Notion.searchTickets_filter filters))
  <-> In page pages
      /\ (forall s, Notion.first (SearchFilters.status filters) = Some s ->
                    Notion.Page.Status page = Some s)
      /\ (forall s, Notion.first (SearchFilters.severity filters) = Some s ->
                    Notion.Page.Severity_ page = Some s)
      /\ (forall d, or_none (SearchFilters.date_range_start filters) = Some d ->
                    exists c, Notion.Page.Date_Created page = Some c
                              /\ date_leb d c = true)
      /\ (forall d, or_none (SearchFilters.date_range_end filters) = Some d ->
                    exists c, Notion.Page.Date_Created page = Some c
                              /\ date_leb c d = true).
Proof.
  unfold Backend.query, Notion.searchTickets_filter, when.
  rewrite filter_In, !forallb_app, !andb_true_iff, !forallb_option.
  cbn [Backend.satisfies].
  split; intros (Hin & H1 & H2 & H3 & H4); (split; [exact Hin|]);
    repeat apply conj.
  - intros s Hs. specialize (H1 s Hs).
    destruct (Notion.Page.Status page) as [s'|]; [|discriminate].
    apply status_eqb_eq in H1. now subst.
  - intros s Hs. specialize (H2 s Hs).
    destruct (Notion.Page.Severity_ page) as [s'|]; [|discriminate].
    apply severity_eqb_eq in H2. now subst.
  - intros d Hd. specialize (H3 d Hd).
    destruct (Notion.Page.Date_Created page) as [c|]; [|discriminate]. eauto.
  - intros d Hd. specialize (H4 d Hd).
    destruct (Notion.Page.Date_Created page) as [c|]; [|discriminate]. eauto.
  - intros s Hs. rewrite (H1 s Hs). now apply status_eqb_eq.
  - intros s Hs. rewrite (H2 s Hs). now apply severity_eqb_eq.
  - intros d Hd. destruct (H3 d Hd) as [c [-> Hc]]. exact Hc.
  - intros d Hd. destruct (H4 d Hd) as [c [-> Hc]]. exact Hc.
Qed.

Lemma client_filters_In (filters : SearchFilters.t) (l : list Ticket.t)
    (t : Ticket.t) :
  In t (Notion.client_filters toLowerCase filters l)
  <-> In t l
      /\ (forall q, or_none (SearchFilters.search_query filters) = Some q ->
                    text_found toLowerCase q t)
      /\ tags_match filters t.
Proof.
  unfold Notion.client_filters, tags_match.
  rewrite (filter_option _
             (fun tags ticket => some_tag tags (Ticket.category_tags ticket))).
  rewrite (filter_option _
             (fun tags ticket => some_tag tags (Ticket.product_tags ticket))).
  rewrite (filter_option _
             (fun q => Notion.text_matches toLowerCase (toLowerCase q))).
  split.
  - intros [[[Hin Hq] Hp] Hc]. split; [exact Hin|]. repeat apply conj.
    + intros q Hq'. now apply text_matches_found, Hq.
    + intros tags Ht. now apply some_tag_any, Hp.
    + intros tags Ht. now apply some_tag_any, Hc.
  - intros (Hin & Hq & Hp & Hc). repeat apply conj.
    + exact Hin.
    + intros q Hq'. now apply text_matches_found, Hq.
    + intros tags Ht. now apply some_tag_any, Hp.
    + intros tags Ht. now apply some_tag_any, Hc.
Qed.

(** With both credentials configured the two checks pass and the search
    is the database query followed by the client-side filters. *)
Lemma notion_searchTickets_configured
    (databases_query : list Notion.Condition -> result (list Notion.Page.t))
    (credentials : NotionClient.Credentials) (clock : Clock)
    (filters : SearchFilters.t) (response : list Notion.Page.t) :
  NotionClient.token credentials <> [] ->
  NotionClient.databaseId credentials <> [] ->
  databases_query (Notion.searchTickets_filter filters) = Ok response ->
  Notion.searchTickets toLowerCase databases_query credentials clock filters
  = Ok (Notion.client_filters toLowerCase filters
          (map (Notion.notionPageToTicket clock) response)).
Proof.
  intros Ht Hd Hq. apply nonempty_true in Ht. apply nonempty_true in Hd.
  unfold Notion.searchTickets, NotionClient.createNotionClient.
  rewrite Ht, Hd. cbn [negb bind]. rewrite Hq. reflexivity.
Qed.

(** Without one of the credentials the search throws before any query. *)
Lemma notion_searchTickets_unconfigured
    (databases_query : list Notion.Condition -> result (list Notion.Page.t))
    (credentials : NotionClient.Credentials) (clock : Clock)
    (filters : SearchFilters.t) :
  NotionClient.token credentials = [] \/ NotionClient.databaseId credentials = [] ->
  Notion.searchTickets toLowerCase databases_query credentials clock filters
  = Throw (NotionClient.new_Error
             (if nonempty (NotionClient.databaseId credentials)
              then "Notion token not configured. Please configure your Notion integration token in Settings."
              else "Notion database ID not configured. Please configure your database ID in Settings.")).
Proof.
  intros H. unfold Notion.searchTickets, NotionClient.createNotionClient.
  destruct (nonempty (NotionClient.databaseId credentials)) eqn:Ed;
    cbn [negb]; [|reflexivity].
  destruct H as [H|H]; [rewrite H; reflexivity|].
  rewrite H in Ed. discriminate.
Qed.

Lemma notion_searchTickets_In (credentials : NotionClient.Credentials)
    (pages : list Notion.Page.t) (clock : Clock) (filters : SearchFilters.t) :
  NotionClient.token credentials <> [] ->
  NotionClient.databaseId credentials <> [] ->
  exists results,
    Notion.searchTickets toLowerCase
      (fun c => Ok (Backend.query date_leb pages c)) credentials clock filters
    = Ok results
    /\ forall t,
         In t results
         <-> exists page,
               In page pages /\ t = Notion.notionPageToTicket clock page
               /\ notion_match toLowerCase date_leb filters page t.
Proof.
  intros Ht Hd. eexists. split.
  { now apply notion_searchTickets_configured. }
  intros t. rewrite client_filters_In, in_map_iff. unfold notion_match. split.
  - intros ([page [<- Hpage]] & Hq & Htags).
    apply query_In in Hpage as (Hin & H1 & H2 & H3 & H4).
    exists page. repeat apply conj; auto; apply Htags.
  - intros (page & Hin & -> & H1 & H2 & H3 & H4 & Hq & Htags).
    repeat apply conj; auto; try apply Htags.
    exists page. split; [reflexivity|]. apply query_In. auto.
Qed.

End Notion.

Section Hook.

Variable date_leb : jsstring -> jsstring -> bool.
Variable fold_case : N -> N.

(** A leading [%] lets the rest of the pattern start anywhere. *)
Lemma ilike_any_run (pattern text : jsstring) :
  Backend.ilike fold_case (37 :: pattern) text = true
  <-> exists a b, text = a ++ b /\ Backend.ilike fold_case pattern b = true.
Proof.
  induction text as [|c text IH].
  - change (Backend.ilike fold_case (37 :: pattern) [])
      with (Backend.ilike fold_case pattern [] || false).
    rewrite orb_false_r. split.
    + intros H. now exists [], [].
    + intros (a & b & Hab & H). symmetry in Hab.
      apply app_eq_nil in Hab as [-> ->]. exact H.
  - change (Backend.ilike fold_case (37 :: pattern) (c :: text))
      with (Backend.ilike fold_case pattern (c :: text)
            || Backend.ilike fold_case (37 :: pattern) text).
    rewrite orb_true_iff, IH. split.
    + intros [H|(a & b & -> & H)].
      * now exists [], (c :: text).
      * now exists (c :: a), b.
    + intros (a & b & Hab & H). destruct a as [|x a].
      * left. simpl in Hab. now subst b.
      * right. simpl in Hab. injection Hab as -> ->. now exists a, b.
Qed.

(** Characters that are no wildcards match themselves, the case aside. *)
Lemma ilike_literal (q pattern : jsstring) :
  Forall (fun c => (c =? 37) || (c =? 42) = false /\ (c =? 95) = false) q ->
  forall text,
  Backend.ilike fold_case (q ++ pattern) text = true
  <-> exists m b,
        text = m ++ b /\ map fold_case m = map fold_case q
        /\ Backend.ilike fold_case pattern b = true.
Proof.
  induction 1 as [|c q [Hc1 Hc2] _ IH]; intros text.
  - cbn [app]. split.
    + intros H. now exists [], text.
    + intros (m & b & -> & Hm & H). now destruct m.
  - cbn [app Backend.ilike]. rewrite Hc1, Hc2. cbn [orb].
    destruct text as [|x text].
    + split; [discriminate|]. intros (m & b & Hmb & Hm & _).
      destruct m; [discriminate|discriminate].
    + rewrite andb_true_iff, N.eqb_eq, IH. split.
      * intros (Hx & m & b & -> & Hm & H).
        exists (x :: m), b. cbn [app map]. now rewrite Hm, Hx.
      * intros (m & b & Hmb & Hm & H). destruct m as [|y m]; [discriminate|].
        cbn [app map] in Hmb, Hm. injection Hmb as -> ->.
        injection Hm as Hy Hm. split; [now symmetry|]. now exists m, b.
Qed.

(** The pattern [%q%] of the hook finds the texts that contain [q]. *)
Lemma ilike_contains (q text : jsstring) :
  Forall (fun c => (c =? 37) || (c =? 42) = false /\ (c =? 95) = false) q ->
  Backend.ilike fold_case (37 :: q ++ [37]) text = true
  <-> substring (map fold_case q) (map fold_case text).
Proof.
  intros Hq. rewrite ilike_any_run. unfold substring. split.
  - intros (a & b & -> & H). apply (ilike_literal q [37] Hq) in H.
    destruct H as (m & c & -> & Hm & _).
    exists (map fold_case a), (map fold_case c).
    now rewrite !map_app, Hm.
  - intros (a' & b' & H). apply map_eq_app in H as (a & rest & -> & _ & H).
    apply map_eq_app in H as (m & c & -> & Hm & _).
    exists a, (m ++ c). split; [reflexivity|].
    apply (ilike_literal q [37] Hq). exists m, c.
    split; [reflexivity|]. split; [exact Hm|].
    apply ilike_any_run. exists c, []. now rewrite app_nil_r.
Qed.

(** One [ilike] condition of the expression, on a column the search names. *)
Lemma condition_ilike (column q : jsstring) (row : UseTickets.Row.t)
    (stored : option jsstring) :
  forallb (fun c => negb (c =? 46)) column = true ->
  Backend.text_column column row = Some stored ->
  Forall (fun c => (c =? 37) || (c =? 42) = false /\ (c =? 95) = false) q ->
  Backend.condition_holds fold_case (column ++ u16 ".ilike.%" ++ q ++ u16 "%") row
  = true
  <-> column_holds fold_case q stored.
Proof.
  intros Hc Hcol Hq. unfold Backend.condition_holds, column_holds.
  change (column ++ u16 ".ilike.%" ++ q ++ u16 "%")
    with (column ++ 46 :: (u16 "ilike" ++ 46 :: (37 :: q ++ [37]))).
  rewrite (cut_at_app 46 column _ Hc).
  rewrite (cut_at_app 46 (u16 "ilike") _ eq_refl).
  change (str_eqb (u16 "ilike") (u16 "ilike")) with true. cbv iota.
  rewrite Hcol. destruct stored as [text|].
  - rewrite (ilike_contains q text Hq). split.
    + intros H. now exists text.
    + intros (text' & Ht & H). now injection Ht as <-.
  - split; [discriminate|]. intros (text & Ht & _). discriminate.
Qed.

(** The [eq] condition on the ticket id. *)
Lemma condition_eq (q : jsstring) (row : UseTickets.Row.t) :
  Backend.condition_holds fold_case (u16 "ticket_id.eq." ++ q) row = true
  <-> Backend.integer_literal q = Some (UseTickets.Row.ticket_id row).
Proof.
  unfold Backend.condition_holds.
  change (u16 "ticket_id.eq." ++ q)
    with (u16 "ticket_id" ++ 46 :: (u16 "eq" ++ 46 :: q)).
  rewrite (cut_at_app 46 (u16 "ticket_id") _ eq_refl).
  rewrite (cut_at_app 46 (u16 "eq") _ eq_refl).
  change (str_eqb (u16 "eq") (u16 "ilike")) with false.
  change (str_eqb (u16 "eq") (u16 "eq")) with true.
  change (str_eqb (u16 "ticket_id") (u16 "ticket_id")) with true.
  cbv iota. cbn [andb].
  destruct (Backend.integer_literal q) as [z|].
  - rewrite Z.eqb_eq. split; [intros ->; reflexivity|intros H; now injection H].
  - split; discriminate.
Qed.

Lemma pattern_no_comma (column q : jsstring) :
  forallb (fun c => negb (c =? 44)) column = true ->
  forallb (fun c => negb (c =? 44)) q = true ->
  forallb (fun c => negb (c =? 44)) (column ++ u16 ".ilike.%" ++ q ++ u16 "%")
  = true.
Proof.
  intros Hc Hq. rewrite !forallb_app, Hc, Hq. reflexivity.
Qed.

(** The conditions of the expression, separated by commas. *)
Lemma or_expression_conditions (q : jsstring) :
  UseTickets.or_expression q
  = (u16 "issue_description" ++ u16 ".ilike.%" ++ q ++ u16 "%")
    ++ 44 :: (u16 "core_team_comment" ++ u16 ".ilike.%" ++ q ++ u16 "%")
    ++ 44 :: (u16 "wallet_address_safe_email" ++ u16 ".ilike.%" ++ q ++ u16 "%")
    ++ (if UseTickets.isNumeric q then 44 :: (u16 "ticket_id.eq." ++ q) else []).
Proof.
  unfold UseTickets.or_expression. cbv zeta.
  destruct (UseTickets.isNumeric q).
  - repeat rewrite <- app_assoc. reflexivity.
  - rewrite app_nil_r. repeat rewrite <- app_assoc. reflexivity.
Qed.

(** The text criterion, as the database evaluates the expression that the
    hook builds from a searchable text. *)
Lemma or_expression_holds (q : jsstring) (row : UseTickets.Row.t) :
  searchable q ->
  Backend.or_holds fold_case (UseTickets.or_expression q) row = true
  <-> text_matched fold_case q row.
Proof.
  intros [Hplain Hnum].
  destruct (searchable_plain q Hplain) as [Hcomma Hwild].
  pose proof (pattern_no_comma (u16 "issue_description") q eq_refl Hcomma) as H1.
  pose proof (pattern_no_comma (u16 "core_team_comment") q eq_refl Hcomma) as H2.
  pose proof (pattern_no_comma (u16 "wallet_address_safe_email") q eq_refl Hcomma)
    as H3.
  pose proof (condition_ilike (u16 "issue_description") q row _ eq_refl eq_refl
                Hwild) as C1.
  pose proof (condition_ilike (u16 "core_team_comment") q row _ eq_refl eq_refl
                Hwild) as C2.
  pose proof (condition_ilike (u16 "wallet_address_safe_email") q row _ eq_refl
                eq_refl Hwild) as C3.
  unfold Backend.or_holds, text_matched.
  rewrite or_expression_conditions.
  rewrite (split_at_app 44 _ _ H1), (split_at_app 44 _ _ H2).
  destruct (UseTickets.isNumeric q) eqn:En.
  - rewrite (split_at_app 44 _ _ H3).
    rewrite split_at_last by (rewrite forallb_app, Hcomma; reflexivity).
    cbn [existsb]. rewrite orb_false_r, !orb_true_iff, C1, C2, C3, condition_eq.
    split.
    + intros [H|[H|[H|H]]]; auto.
    + intros [H|[H|[H|[_ H]]]]; auto.
  - rewrite app_nil_r, (split_at_last 44 _ H3).
    cbn [existsb]. rewrite orb_false_r, !orb_true_iff, C1, C2, C3.
    split.
    + intros [H|[H|H]]; auto.
    + intros [H|[H|[H|[H _]]]]; auto. discriminate.
Qed.

Lemma transform_total (clock : Clock) (row : UseTickets.Row.t) :
  exists t, UseTickets.transform clock row = Ok t.
Proof.
  unfold UseTickets.transform.
  rewrite !safeJsonParse_decoded.
  eexists. reflexivity.
Qed.

Lemma mapM_transform (clock : Clock) (rows : list UseTickets.Row.t) :
  exists ts,
    UseTickets.mapM (UseTickets.transform clock) rows = Ok ts
    /\ forall t, In t ts
                 <-> exists row, In row rows /\ UseTickets.transform clock row = Ok t.
Proof.
  induction rows as [|row rows [ts [Hts IH]]].
  - exists []. split; [reflexivity|]. intros t. split; [intros []|].
    intros [row [[] _]].
  - destruct (transform_total clock row) as [t0 Ht0].
    exists (t0 :: ts). split.
    + cbn [UseTickets.mapM]. rewrite Ht0. cbn [bind]. rewrite Hts. reflexivity.
    + intros t. cbn [In]. rewrite IH. split.
      * intros [<-|[r [Hr Ht]]]; [exists row; auto|exists r; auto].
      * intros [r [[<-|Hr] Ht]]; [left; congruence|right; eauto].
Qed.

Lemma select_In (table : list UseTickets.Row.t) (filters : SearchFilters.t)
    (answer : UseTickets.Row.t) :
  In answer (Backend.select fold_case date_leb table
               (UseTickets.searchTickets_query filters))
  <-> exists row,
      answer = Backend.received row
      /\ In row table
      /\ (forall l, selected (SearchFilters.status filters) = Some l ->
                    exists s, UseTickets.Row.status row = Some s /\ In s l)
      /\ (forall l, selected (SearchFilters.severity filters) = Some l ->
                    exists s, UseTickets.Row.severity row = Some s /\ In s l)
      /\ (forall q, or_none (SearchFilters.search_query filters) = Some q ->
                    Backend.or_holds fold_case (UseTickets.or_expression (trim q))
                      row = true)
      /\ (forall d, or_none (SearchFilters.date_range_start filters) = Some d ->
                    exists c, UseTickets.Row.created_at row = Some c
                              /\ date_leb d c = true)
      /\ (forall d, or_none (SearchFilters.date_range_end filters) = Some d ->
                    exists c, UseTickets.Row.created_at row = Some c
                              /\ date_leb c d = true).
Proof.
  unfold Backend.select, UseTickets.searchTickets_query, when.
  rewrite in_map_iff.
  assert (Hrow : forall row,
            In row (filter
                      (fun row =>
                         forallb (fun f => Backend.holds fold_case date_leb f row)
                           (match selected (SearchFilters.status filters) with
                            | Some a => [UseTickets.in_status a]
                            | None => []
                            end
                            ++ match selected (SearchFilters.severity filters) with
                               | Some a => [UseTickets.in_severity a]
                               | None => []
                               end
                            ++ match or_none (SearchFilters.search_query filters) with
                               | Some a =>
                                   [UseTickets.or_ (UseTickets.or_expression (trim a))]
                               | None => []
                               end
                            ++ match or_none (SearchFilters.date_range_start filters)
                               with
                               | Some a => [UseTickets.gte_created_at a]
                               | None => []
                               end
                            ++ match or_none (SearchFilters.date_range_end filters)
                               with
                               | Some a => [UseTickets.lte_created_at a]
                               | None => []
                               end)) table)
            <-> In row table
                /\ (forall l, selected (SearchFilters.status filters) = Some l ->
                      exists s, UseTickets.Row.status row = Some s /\ In s l)
                /\ (forall l, selected (SearchFilters.severity filters) = Some l ->
                      exists s, UseTickets.Row.severity row = Some s /\ In s l)
                /\ (forall q, or_none (SearchFilters.search_query filters) = Some q ->
                      Backend.or_holds fold_case
                        (UseTickets.or_expression (trim q)) row = true)
                /\ (forall d,
                      or_none (SearchFilters.date_range_start filters) = Some d ->
                      exists c, UseTickets.Row.created_at row = Some c
                                /\ date_leb d c = true)
                /\ (forall d,
                      or_none (SearchFilters.date_range_end filters) = Some d ->
                      exists c, UseTickets.Row.created_at row = Some c
                                /\ date_leb c d = true)).
  { intros row.
    rewrite filter_In, !forallb_app, !andb_true_iff, !forallb_option.
    cbn [Backend.holds].
    split; intros (Hin & H1 & H2 & H3 & H4 & H5); (split; [exact Hin|]);
      repeat apply conj.
    - intros l Hl. specialize (H1 l Hl).
      destruct (UseTickets.Row.status row) as [s|]; [|discriminate].
      exists s. split; [reflexivity|now apply existsb_status].
    - intros l Hl. specialize (H2 l Hl).
      destruct (UseTickets.Row.severity row) as [s|]; [|discriminate].
      exists s. split; [reflexivity|now apply existsb_severity].
    - exact H3.
    - intros d Hd. specialize (H4 d Hd).
      destruct (UseTickets.Row.created_at row) as [c|]; [|discriminate]. eauto.
    - intros d Hd. specialize (H5 d Hd).
      destruct (UseTickets.Row.created_at row) as [c|]; [|discriminate]. eauto.
    - intros l Hl. destruct (H1 l Hl) as [s [-> Hs]]. now apply existsb_status.
    - intros l Hl. destruct (H2 l Hl) as [s [-> Hs]]. now apply existsb_severity.
    - exact H3.
    - intros d Hd. destruct (H4 d Hd) as [c [-> Hc]]. exact Hc.
    - intros d Hd. destruct (H5 d Hd) as [c [-> Hc]]. exact Hc. }
  split.
  - intros [row [<- Hin]]. exists row. split; [reflexivity|]. now apply Hrow.
  - intros (row & -> & H). exists row. split; [reflexivity|]. now apply Hrow.
Qed.

Lemma filter_by_tags_In (filters : SearchFilters.t) (l : list Ticket.t)
    (t : Ticket.t) :
  In t (UseTickets.filter_by_tags filters l) <-> In t l /\ tags_match filters t.
Proof.
  unfold UseTickets.filter_by_tags, tags_match.
  rewrite (filter_option _
             (fun tags ticket => some_tag tags (Ticket.category_tags ticket))).
  rewrite (filter_option _
             (fun tags ticket => some_tag tags (Ticket.product_tags ticket))).
  split.
  - intros [[Hin Hp] Hc]. split; [exact Hin|]. split.
    + intros tags Ht. now apply some_tag_any, Hp.
    + intros tags Ht. now apply some_tag_any, Hc.
  - intros (Hin & Hp & Hc). repeat apply conj.
    + exact Hin.
    + intros tags Ht. now apply some_tag_any, Hp.
    + intros tags Ht. now apply some_tag_any, Hc.
Qed.

(** Whatever the backend answers, the hook keeps the transformed rows that
    pass the two tag criteria. *)
Lemma hook_searchTickets_client
    (select : UseTickets.Query -> result (list UseTickets.Row.t))
    (clock : Clock) (filters : SearchFilters.t) (st : UseTickets.State)
    (rows : list UseTickets.Row.t) :
  select (UseTickets.searchTickets_query filters) = Ok rows ->
  let out := UseTickets.searchTickets select clock filters st in
  snd out = Ok tt
  /\ UseTickets.error (fst out) = None
  /\ forall t,
       In t (UseTickets.tickets (fst out))
       <-> (exists row, In row rows /\ UseTickets.transform clock row = Ok t)
           /\ tags_match filters t.
Proof.
  intros Hsel. unfold UseTickets.searchTickets. rewrite Hsel. cbn [bind].
  destruct (mapM_transform clock rows) as [ts [-> Hts]].
  cbn [bind fst snd UseTickets.setLoading UseTickets.setTickets UseTickets.setError
       UseTickets.tickets UseTickets.error].
  split; [reflexivity|split; [reflexivity|]].
  intros t. now rewrite filter_by_tags_In, Hts.
Qed.

Lemma hook_searchTickets_In (table : list UseTickets.Row.t) (clock : Clock)
    (filters : SearchFilters.t) (st : UseTickets.State) :
  (forall q, or_none (SearchFilters.search_query filters) = Some q ->
             searchable (trim q)) ->
  let out :=
    UseTickets.searchTickets
      (fun q => Ok (Backend.select fold_case date_leb table q)) clock filters st in
  snd out = Ok tt
  /\ UseTickets.error (fst out) = None
  /\ forall t,
       In t (UseTickets.tickets (fst out))
       <-> exists row,
             In row table
             /\ UseTickets.transform clock (Backend.received row) = Ok t
             /\ hook_match date_leb fold_case filters row t.
Proof.
  intros Hq.
  destruct (hook_searchTickets_client
              (fun q => Ok (Backend.select fold_case date_leb table q))
              clock filters st _ eq_refl) as (H1 & H2 & H3).
  split; [exact H1|split; [exact H2|]].
  intros t. rewrite H3. unfold hook_match. split.
  - intros [[answer [Hanswer Ht]] Htags].
    apply select_In in Hanswer as (row & -> & Hin & Ha & Hb & Hc & Hd & He).
    exists row. repeat apply conj; try assumption; try apply Htags.
    intros q Hq'. apply or_expression_holds; [now apply Hq|now apply Hc].
  - intros (row & Hin & Ht & Ha & Hb & Hc & Hd & He & Htags).
    split; [|exact Htags].
    exists (Backend.received row). split; [|exact Ht]. apply select_In.
    exists row. repeat apply conj; try assumption; try reflexivity.
    intros q Hq'. apply or_expression_holds; [now apply Hq|now apply Hc].
Qed.

End Hook.

(** C2, as stated, fails on the Notion adapter: with the statuses [In Dev]
    and [Resolved] selected, a [Resolved] ticket that meets every criterion
    of the filter set (status and severity in the selected sets, a selected
    product and category tag, the search text in its description, its date
    inside the range) is not returned, because only the first selected
    status is sent to the database. *)
Lemma notion_search_uses_first_status_only :
  let clock := mkClock (u16 "2024-05-20T10:00:00.000Z") in
  let credentials := NotionClient.mkCredentials (u16 "secret") (u16 "db") in
  let page :=
    Notion.Page.mk (u16 "page-1") (Some (u16 "TKT-1")) (Some Resolved)
      (Some (u16 "2024-05-02")) (Some (u16 "2024-05-03")) None
      (Some (u16 "Refund not received")) (Some (u16 "0xabc")) None
      (Some [u16 "Cash"]) (Some [u16 "Bug"]) (Some SEV_2)
      (u16 "2024-05-02T09:00:00.000Z") (u16 "2024-05-03T09:00:00.000Z") in
  let filters :=
    SearchFilters.mk (Some (u16 "refund")) (Some [In_Dev; Resolved]) (Some [SEV_2])
      (Some [u16 "Cash"]) (Some [u16 "Bug"])
      (Some (u16 "2024-05-01")) (Some (u16 "2024-05-31")) in
  let t := Notion.notionPageToTicket clock page in
  claimed_match Backend.ascii_lower Backend.iso_leb filters t
  /\ Notion.searchTickets Backend.ascii_lower
       (fun c => Ok (Backend.query Backend.iso_leb [page] c)) credentials clock
       filters
     = Ok [].
Proof.
  intros clock credentials page filters t. split; [|reflexivity].
  unfold claimed_match. repeat apply conj.
  - right. now left.
  - now left.
  - exists (u16 "Cash"). split; now left.
  - exists (u16 "Bug"). split; now left.
  - intros q Hq. injection Hq as <-.
    exists (u16 "Refund not received"). split; [now left|].
    exists [], (u16 " not received"). reflexivity.
  - intros d Hd. injection Hd as <-. reflexivity.
  - intros d Hd. injection Hd as <-. reflexivity.
Qed.

(** C2, amended: [searchTickets] returns exactly the fetched tickets that
    satisfy the conjunction of the criteria that are selected; an absent or
    empty criterion does not constrain.

    The ticket hook keeps, of the rows the backend answers with, those that
    pass the two tag criteria (some selected tag appears in the ticket's
    list): these are the only criteria evaluated on the client. Status,
    severity, search text and dates are conditions of the query. For a
    search text that, trimmed, has no reserved character (quote, percent,
    parenthesis, star, comma, backslash, underscore) and, when it is
    numeric, writes a [bigint], the database keeps a stored row when its
    status and its severity are members of the selected sets, the trimmed
    text occurs, the letter case aside, in the issue description, the core
    team comment or the contact column, or is numeric and writes the
    ticket id, and the creation date lies within the inclusive bounds.

    The Notion adapter, with both credentials configured, returns the
    pages whose status and severity equal the first selected value only,
    whose creation date lies within the inclusive bounds (evaluated by the
    database), and in which the search text (a case-insensitive substring
    of one of four text fields) and the tag criteria hold (evaluated on the
    client); without the database id or the token it throws an [Error]
    before any query. *)
Theorem searchTickets_composition
    (toLowerCase : jsstring -> jsstring)
    (date_leb : jsstring -> jsstring -> bool)
    (fold_case : N -> N) :
  (forall select clock filters st rows,
     select (UseTickets.searchTickets_query filters) = Ok rows ->
     let out := UseTickets.searchTickets select clock filters st in
     snd out = Ok tt
     /\ forall t,
          In t (UseTickets.tickets (fst out))
          <-> (exists row, In row rows /\ UseTickets.transform clock row = Ok t)
              /\ tags_match filters t)
  /\ (forall table clock filters st,
     (forall q, or_none (SearchFilters.search_query filters) = Some q ->
                searchable (trim q)) ->
     let out :=
       UseTickets.searchTickets
         (fun q => Ok (Backend.select fold_case date_leb table q)) clock filters st in
     snd out = Ok tt
     /\ forall t,
          In t (UseTickets.tickets (fst out))
          <-> exists row,
                In row table
                /\ UseTickets.transform clock (Backend.received row) = Ok t
                /\ hook_match date_leb fold_case filters row t)
  /\ (forall credentials pages clock filters,
        NotionClient.token credentials <> [] ->
        NotionClient.databaseId credentials <> [] ->
        exists results,
          Notion.searchTickets toLowerCase
            (fun c => Ok (Backend.query date_leb pages c)) credentials clock filters
          = Ok results
          /\ forall t,
               In t results
               <-> exists page,
                     In page pages /\ t = Notion.notionPageToTicket clock page
                     /\ notion_match toLowerCase date_leb filters page t)
  /\ (forall credentials databases_query clock filters,
        NotionClient.token credentials = []
        \/ NotionClient.databaseId credentials = [] ->
        exists e,
          Notion.searchTickets toLowerCase databases_query credentials clock filters
          = Throw e
          /\ instanceof_Error e = true).
Proof.
  split; [|split; [|split]].
  - intros select clock filters st rows Hsel.
    destruct (hook_searchTickets_client select clock filters st rows Hsel)
      as (H1 & _ & H2).
    split; assumption.
  - intros table clock filters st Hq.
    destruct (hook_searchTickets_In date_leb fold_case table clock filters st Hq)
      as (H1 & _ & H2).
    split; assumption.
  - intros credentials pages clock filters Ht Hd.
    now apply notion_searchTickets_In.
  - intros credentials databases_query clock filters H.
    eexists. split; [now apply notion_searchTickets_unconfigured|reflexivity].
Qed.

(** A search for the text [DECLINED] with the product tag [Cash] over a
    table of three stored rows: the first is kept, the second has another
    tag, the third does not hold the text. *)
Lemma searchTickets_composition_witness :
  let clock := mkClock (u16 "2024-05-20T10:00:00.000Z") in
  let row id description product :=
    UseTickets.Row.mk id (Some In_Dev) (Some description) None None
      (JStr (JSON_stringify [product])) JNull (Some SEV_3) None
      (Some (u16 "2024-05-02T09:00:00.000Z")) in
  let table :=
    [row 11%Z (u16 "Card declined") (u16 "Cash");
     row 12%Z (u16 "card declined") (u16 "Liquid");
     row 13%Z (u16 "refund missing") (u16 "Cash")] in
  let filters :=
    SearchFilters.mk (Some (u16 " DECLINED ")) None None (Some [u16 "Cash"]) None
      None None in
  let fold_case := fun c => if (65 <=? c) && (c <=? 90) then c + 32 else c in
  let out :=
    UseTickets.searchTickets
      (fun q => Ok (Backend.select fold_case Backend.iso_leb table q))
      clock filters (UseTickets.mkState [] false None) in
  searchable (u16 "DECLINED")
  /\ map Ticket.id (UseTickets.tickets (fst out)) = [u16 "11"]
  /\ forall t,
       In t (UseTickets.tickets (fst out))
       <-> exists r,
             In r table
             /\ UseTickets.transform clock (Backend.received r) = Ok t
             /\ hook_match Backend.iso_leb fold_case filters r t.
Proof.
  intros clock row table filters fold_case out.
  assert (Hs : searchable (u16 "DECLINED")).
  { split; [repeat constructor|discriminate]. }
  split; [exact Hs|]. split; [now vm_compute|].
  refine (proj2 (proj1 (proj2 (searchTickets_composition Backend.ascii_lower
                                 Backend.iso_leb fold_case))
                   table clock filters (UseTickets.mkState [] false None) _)).
  intros q Hq. injection Hq as <-. exact Hs.
Defined.

End SearchFacts.

(** * Further properties of the ticket hook *)

Module HookFacts.
Import JS JSNum Types Spec Props JSFacts JSONFacts CodecFacts WriteFacts StateFacts
  SearchFacts.

Lemma decoded_clean (stored : JSValue) : clean_tags (decoded stored).
Proof.
  unfold clean_tags.
  destruct stored as [| |b|n|s|items|ms]; try constructor.
  - destruct s as [|c s]; [constructor|]. cbn [decoded].
    destruct (JSON_parse (c :: s)) as [v|e].
    + destruct v; try constructor.
      * destruct (nonempty (trim s0)) eqn:E; [|constructor].
        now apply trimmed_singleton.
      * apply filter_nonblank_strings.
    + destruct (nonempty (trim (c :: s))) eqn:E; [|constructor].
      now apply trimmed_singleton.
  - apply filter_nonblank_strings.
Qed.

Lemma clean_nonblank (l : list JSValue) :
  clean_tags l -> filter nonblank l = l.
Proof.
  induction 1 as [|x l [s [-> Hs]] _ IH]; [reflexivity|].
  cbn [filter nonblank]. rewrite (proj2 (nonempty_trim s) Hs), IH. reflexivity.
Qed.

(** Decoding is idempotent: the list the decoder returned, stored again as
    an array (a legacy value), decodes to itself. *)
Theorem safeJsonParse_idempotent (stored : JSValue) (tags : list JSValue) :
  UseTickets.safeJsonParse stored = Ok tags ->
  UseTickets.safeJsonParse (JArr tags) = Ok tags.
Proof.
  rewrite safeJsonParse_decoded. intros H. injection H as <-.
  rewrite safeJsonParse_decoded. cbn [decoded].
  now rewrite clean_nonblank by apply decoded_clean.
Qed.

Lemma safeJsonParse_idempotent_witness :
  UseTickets.safeJsonParse (JStr (u16 " Cash ")) = Ok [JStr (u16 "Cash")]
  /\ UseTickets.safeJsonParse (JArr [JStr (u16 "Cash")]) = Ok [JStr (u16 "Cash")].
Proof.
  split; [reflexivity|].
  exact (safeJsonParse_idempotent (JStr (u16 " Cash ")) [JStr (u16 "Cash")] eq_refl).
Defined.

Lemma transform_tags (clock : Clock) (row : UseTickets.Row.t) (t : Ticket.t) :
  UseTickets.transform clock row = Ok t ->
  Ticket.product_tags t = decoded (UseTickets.Row.product row)
  /\ Ticket.category_tags t = decoded (UseTickets.Row.category row)
  /\ Ticket.id t = toString (Int (UseTickets.Row.ticket_id row))
  /\ Ticket.ticket_id t = toString (Int (UseTickets.Row.ticket_id row)).
Proof.
  unfold UseTickets.transform. rewrite !safeJsonParse_decoded. cbn [bind].
  intros H. injection H as <-. repeat split.
Qed.

Lemma transform_clean (clock : Clock) (row : UseTickets.Row.t) (t : Ticket.t) :
  UseTickets.transform clock row = Ok t ->
  clean_tags (Ticket.product_tags t) /\ clean_tags (Ticket.category_tags t).
Proof.
  intros H. apply transform_tags in H as (-> & -> & _).
  split; apply decoded_clean.
Qed.

Lemma merge_row_facts (data : UseTickets.Row.t) (ticket : Ticket.t) :
  exists t',
    UseTickets.merge_row data ticket = Ok t'
    /\ Ticket.product_tags t' = decoded (UseTickets.Row.product data)
    /\ Ticket.category_tags t' = decoded (UseTickets.Row.category data)
    /\ Ticket.id t' = toString (Int (UseTickets.Row.ticket_id data))
    /\ Ticket.date_created t' = Ticket.date_created ticket
    /\ Ticket.date_resolved t' = or_none (UseTickets.Row.date_of_resolved data)
    /\ Ticket.status t'
       = match UseTickets.Row.status data with
         | Some s => s
         | None => Ticket.status ticket
         end.
Proof.
  unfold UseTickets.merge_row. rewrite !safeJsonParse_decoded. cbn [bind].
  eexists. split; [reflexivity|]. repeat split.
Qed.

Lemma mapM_merge (data : UseTickets.Row.t) (id : jsstring) (l : list Ticket.t) :
  exists next,
    UseTickets.mapM
      (fun ticket =>
         if str_eqb (Ticket.id ticket) id then UseTickets.merge_row data ticket
         else Ok ticket) l = Ok next
    /\ Forall2
         (fun old new =>
            (Ticket.id old <> id -> new = old)
            /\ (Ticket.id old = id -> UseTickets.merge_row data old = Ok new))
         l next.
Proof.
  induction l as [|t l [next [Hn IH]]].
  - exists []. split; [reflexivity|constructor].
  - cbn [UseTickets.mapM].
    destruct (str_eqb (Ticket.id t) id) eqn:E.
    + destruct (merge_row_facts data t) as [t' [Ht' _]].
      exists (t' :: next). rewrite Ht'. cbn [bind]. rewrite Hn.
      split; [reflexivity|]. constructor; [|exact IH].
      apply str_eqb_eq in E. split; [congruence|auto].
    + exists (t :: next). cbn [bind]. rewrite Hn.
      split; [reflexivity|]. constructor; [|exact IH].
      split; [reflexivity|]. intros H. apply str_eqb_eq in H. congruence.
Qed.

(** The local list after a successful [updateTicket]: the same number of
    tickets in the same order; a ticket with another id is untouched; the
    ticket with the given id takes the id of the returned row and the
    resolution date of the returned row, keeps its creation date, and keeps
    its status when the returned row has none. *)
Theorem updateTicket_local
    (update : UseTickets.UpdatePayload.t -> number -> result UseTickets.Row.t)
    (clock : Clock) (id : jsstring) (updates : TicketUpdates.t)
    (st : UseTickets.State) (data : UseTickets.Row.t) :
  update (UseTickets.updateTicket_payload clock updates) (parseInt id) = Ok data ->
  let out := UseTickets.updateTicket update clock id updates st in
  snd out = Ok tt
  /\ UseTickets.error (fst out) = None
  /\ Forall2
       (fun old new =>
          (Ticket.id old <> id -> new = old)
          /\ (Ticket.id old = id ->
              Ticket.id new = toString (Int (UseTickets.Row.ticket_id data))
              /\ Ticket.date_created new = Ticket.date_created old
              /\ Ticket.date_resolved new
                 = or_none (UseTickets.Row.date_of_resolved data)
              /\ Ticket.status new
                 = match UseTickets.Row.status data with
                   | Some s => s
                   | None => Ticket.status old
                   end))
       (UseTickets.tickets st) (UseTickets.tickets (fst out)).
Proof.
  intros Hup. unfold UseTickets.updateTicket. rewrite Hup. cbn [bind].
  cbn [UseTickets.setError UseTickets.tickets].
  destruct (mapM_merge data id (UseTickets.tickets st)) as [next [-> Hnext]].
  cbn [fst snd UseTickets.setTickets UseTickets.tickets UseTickets.error].
  split; [reflexivity|split; [reflexivity|]].
  eapply Forall2_impl; [|exact Hnext].
  intros old new [H1 H2]. split; [exact H1|].
  intros Hid. specialize (H2 Hid).
  destruct (merge_row_facts data old) as (t' & Ht' & _ & _ & Hi & Hc & Hr & Hs).
  rewrite Ht' in H2. injection H2 as <-. auto.
Qed.

Lemma updateTicket_local_witness :
  let clock := mkClock (u16 "2024-05-20T10:00:00.000Z") in
  let ticket id :=
    Ticket.mk id id In_Dev (u16 "2024-05-01") None [] [] [] [] [] SEV_3 [] [] in
  let st := UseTickets.mkState [ticket (u16 "11"); ticket (u16 "12")] false None in
  let data :=
    UseTickets.Row.mk 12 (Some Resolved) None None None JNull JNull None
      (Some (u16 "2024-05-20")) None in
  let updates := TicketUpdates.mk None (Some Resolved) None None None None None None in
  let out :=
    UseTickets.updateTicket (fun _ _ => Ok data) clock (u16 "12") updates st in
  snd out = Ok tt /\ UseTickets.error (fst out) = None.
Proof.
  intros clock ticket st data updates out.
  destruct (updateTicket_local (fun _ _ => Ok data) clock (u16 "12") updates st data
              eq_refl) as (H1 & H2 & _).
  split; [exact H1|exact H2].
Defined.

End HookFacts.

(** * Invariants and frames of the ticket hook *)

Module InvariantFacts.
Import JS JSNum Types Spec Props JSFacts JSONFacts CodecFacts WriteFacts StateFacts
  SearchFacts HookFacts.

Lemma mapM_transform_clean (clock : Clock) (rows : list UseTickets.Row.t)
    (ts : list Ticket.t) :
  UseTickets.mapM (UseTickets.transform clock) rows = Ok ts ->
  Forall (fun t => clean_tags (Ticket.product_tags t)
                   /\ clean_tags (Ticket.category_tags t)) ts.
Proof.
  intros H. destruct (mapM_transform clock rows) as [ts' [Hts' Hin]].
  rewrite Hts' in H. injection H as <-.
  apply Forall_forall. intros t Ht. apply Hin in Ht as [row [_ Hrow]].
  now apply transform_clean in Hrow.
Qed.

Lemma Forall_filter {A} (P : A -> Prop) (f : A -> bool) (l : list A) :
  Forall P l -> Forall P (filter f l).
Proof.
  intros H. apply Forall_forall. intros x Hx. apply filter_In in Hx as [Hx _].
  revert x Hx. now apply Forall_forall.
Qed.

Lemma filter_by_tags_incl (filters : SearchFilters.t) (l : list Ticket.t)
    (P : Ticket.t -> Prop) :
  Forall P l -> Forall P (UseTickets.filter_by_tags filters l).
Proof.
  intros H. unfold UseTickets.filter_by_tags.
  destruct (selected (SearchFilters.product_tags filters));
    destruct (selected (SearchFilters.category_tags filters));
    repeat apply Forall_filter; exact H.
Qed.

(** The hook keeps its tag lists clean. If every tag held in the local list
    is a string with a non-whitespace character, the same holds after any
    operation of the hook (fetch, search, create, update, delete, bulk
    delete, bulk status update), whatever the backend answers, whether the
    operation succeeds or fails. *)
Theorem tags_invariant_kept (clock : Clock) (st : UseTickets.State) :
  tags_invariant st ->
  (forall select, tags_invariant (fst (UseTickets.fetchTickets select clock st)))
  /\ (forall select filters,
        tags_invariant (fst (UseTickets.searchTickets select clock filters st)))
  /\ (forall insert data,
        tags_invariant (fst (UseTickets.createTicket insert clock data st)))
  /\ (forall update id updates,
        tags_invariant (fst (UseTickets.updateTicket update clock id updates st)))
  /\ (forall delete id, tags_invariant (fst (UseTickets.deleteTicket delete id st)))
  /\ (forall delete_in ids,
        tags_invariant (fst (UseTickets.bulkDeleteTickets delete_in ids st)))
  /\ (forall update_in ids status,
        tags_invariant
          (fst (UseTickets.bulkUpdateTicketStatus update_in clock ids status st))).
Proof.
  unfold tags_invariant. intros Hst. repeat apply conj.
  - intros select. unfold UseTickets.fetchTickets.
    destruct (select []) as [rows|e]; cbn [bind]; [|exact Hst].
    destruct (UseTickets.mapM (UseTickets.transform clock) rows) as [ts|e] eqn:E;
      [|exact Hst].
    now apply mapM_transform_clean in E.
  - intros select filters. unfold UseTickets.searchTickets.
    destruct (select (UseTickets.searchTickets_query filters)) as [rows|e];
      cbn [bind]; [|exact Hst].
    destruct (UseTickets.mapM (UseTickets.transform clock) rows) as [ts|e] eqn:E;
      cbn [bind]; [|exact Hst].
    apply mapM_transform_clean in E.
    cbn [fst UseTickets.setLoading UseTickets.setTickets UseTickets.tickets].
    now apply filter_by_tags_incl.
  - intros insert data. unfold UseTickets.createTicket.
    destruct (UseTickets.createTicket_payload clock data) as [body|e];
      cbn [bind]; [|exact Hst].
    destruct (insert body) as [row|e]; cbn [bind]; [|exact Hst].
    destruct (UseTickets.transform clock row) as [t|e] eqn:E; [|exact Hst].
    cbn [fst UseTickets.setTickets UseTickets.setError UseTickets.tickets].
    constructor; [now apply transform_clean in E|exact Hst].
  - intros update id updates. unfold UseTickets.updateTicket.
    destruct (update (UseTickets.updateTicket_payload clock updates) (parseInt id))
      as [data|e]; cbn [bind]; [|exact Hst].
    cbn [UseTickets.setError UseTickets.tickets].
    destruct (mapM_merge data id (UseTickets.tickets st)) as [next [-> Hnext]].
    cbn [fst UseTickets.setTickets UseTickets.tickets].
    clear -Hst Hnext. induction Hnext as [|old new l l' [H1 H2] _ IH];
      [constructor|].
    inversion Hst as [|? ? Hold Hrest]; subst.
    constructor; [|now apply IH].
    destruct (str_eqb (Ticket.id old) id) eqn:E.
    + apply str_eqb_eq in E. specialize (H2 E).
      destruct (merge_row_facts data old) as (t' & Ht' & Hp & Hc & _).
      rewrite Ht' in H2. injection H2 as <-. rewrite Hp, Hc.
      split; apply decoded_clean.
    + rewrite H1; [exact Hold|]. intros H. apply str_eqb_eq in H. congruence.
  - intros delete id. unfold UseTickets.deleteTicket.
    destruct (delete (parseInt id)); [|exact Hst].
    now apply Forall_filter.
  - intros delete_in ids. unfold UseTickets.bulkDeleteTickets.
    destruct (delete_in (map parseInt ids)); [|exact Hst].
    now apply Forall_filter.
  - intros update_in ids status. unfold UseTickets.bulkUpdateTicketStatus.
    destruct (update_in _ _); [|exact Hst].
    cbn [fst UseTickets.setTickets UseTickets.setError UseTickets.tickets].
    apply Forall_forall. intros t Ht. apply in_map_iff in Ht as [t0 [<- Ht0]].
    rewrite Forall_forall in Hst. specialize (Hst t0 Ht0).
    now destruct (includes ids (Ticket.id t0)).
Qed.

(** The empty list satisfies the invariant and a fetch keeps it. *)
Lemma tags_invariant_kept_witness :
  let clock := mkClock (u16 "2024-05-20T10:00:00.000Z") in
  let st := UseTickets.mkState [] false None in
  let row :=
    UseTickets.Row.mk 7 None None None None (JStr (u16 "Cash, Liquid")) JNull
      None None None in
  tags_invariant st
  /\ tags_invariant (fst (UseTickets.fetchTickets (fun _ => Ok [row]) clock st)).
Proof.
  intros clock st row.
  assert (H : tags_invariant st) by constructor.
  split; [exact H|].
  exact (proj1 (tags_invariant_kept clock st H) (fun _ => Ok [row])).
Defined.

(** [deleteTicket] removes exactly the ticket with the given id. When the
    backend delete succeeds the local list is the previous one without the
    tickets of that id, the others unchanged and in order; it is the list
    [bulkDeleteTickets] leaves for the one-element id list. *)
Theorem deleteTicket_exact
    (delete : number -> result unit) (delete_in : list number -> result unit)
    (id : jsstring) (st : UseTickets.State) (u u' : unit) :
  delete (parseInt id) = Ok u ->
  delete_in [parseInt id] = Ok u' ->
  let out := UseTickets.deleteTicket delete id st in
  snd out = Ok tt
  /\ UseTickets.error (fst out) = None
  /\ removed [id] (UseTickets.tickets st) (UseTickets.tickets (fst out))
  /\ (forall t, In t (UseTickets.tickets (fst out)) -> Ticket.id t <> id)
  /\ fst out = fst (UseTickets.bulkDeleteTickets delete_in [id] st).
Proof.
  intros Hd Hb. unfold UseTickets.deleteTicket, UseTickets.bulkDeleteTickets.
  cbn [map]. rewrite Hd, Hb.
  cbn [fst snd UseTickets.setTickets UseTickets.setError UseTickets.tickets
       UseTickets.error].
  assert (E : filter (fun ticket => negb (str_eqb (Ticket.id ticket) id))
                (UseTickets.tickets st)
              = filter (fun ticket => negb (includes [id] (Ticket.id ticket)))
                  (UseTickets.tickets st)).
  { apply filter_ext. intros t. unfold includes. cbn [existsb].
    now rewrite orb_false_r. }
  repeat apply conj; try reflexivity.
  - pose proof (removed_filter [id] (UseTickets.tickets st)) as R.
    rewrite <- E in R. exact R.
  - intros t Ht. apply filter_In in Ht as [_ Ht].
    apply negb_true_iff in Ht. intros H. rewrite H, str_eqb_refl in Ht.
    discriminate.
  - unfold UseTickets.setTickets. f_equal. exact E.
Qed.

Lemma deleteTicket_exact_witness :
  let ticket id :=
    Ticket.mk id id In_Dev [] None [] [] [] [] [] SEV_3 [] [] in
  let st := UseTickets.mkState [ticket (u16 "11"); ticket (u16 "12")] false None in
  let out := UseTickets.deleteTicket (fun _ => Ok tt) (u16 "11") st in
  snd out = Ok tt /\ UseTickets.tickets (fst out) = [ticket (u16 "12")].
Proof.
  intros ticket st out.
  destruct (deleteTicket_exact (fun _ => Ok tt) (fun _ => Ok tt) (u16 "11") st tt tt
              eq_refl eq_refl) as (H & _).
  split; [exact H|reflexivity].
Defined.

(** The local list after a successful [bulkUpdateTicketStatus]: as many
    tickets as before, in the same order; a ticket that is not selected is
    untouched; a selected ticket has the new status, a resolution date
    exactly when that status is [Resolved], and every other field as
    before. *)
Theorem bulkUpdateTicketStatus_local
    (update_in : UseTickets.BulkPayload.t -> list number -> result unit)
    (clock : Clock) (ids : list jsstring) (status : TicketStatus)
    (st : UseTickets.State) (u : unit) :
  update_in (UseTickets.bulkUpdateTicketStatus_payload clock status)
            (map parseInt ids) = Ok u ->
  let out := UseTickets.bulkUpdateTicketStatus update_in clock ids status st in
  snd out = Ok tt
  /\ Forall2
       (fun old new =>
          (~ In (Ticket.id old) ids -> new = old)
          /\ (In (Ticket.id old) ids ->
              Ticket.status new = status
              /\ (Ticket.date_resolved new <> None <-> status = Resolved)
              /\ same_but_status old new))
       (UseTickets.tickets st) (UseTickets.tickets (fst out)).
Proof.
  intros Hup. unfold UseTickets.bulkUpdateTicketStatus. rewrite Hup.
  cbn [fst snd UseTickets.setTickets UseTickets.setError UseTickets.tickets].
  split; [reflexivity|].
  induction (UseTickets.tickets st) as [|t l IH]; [constructor|].
  cbn [map]. constructor; [|exact IH].
  destruct (includes ids (Ticket.id t)) eqn:E.
  - apply includes_In in E. split; [tauto|]. intros _.
    cbn [UseTickets.set_status Ticket.status Ticket.date_resolved].
    split; [reflexivity|]. split; [apply resolved_date|].
    unfold same_but_status. repeat split.
  - split; [reflexivity|]. intros H. apply includes_In in H. congruence.
Qed.

Lemma bulkUpdateTicketStatus_local_witness :
  let clock := mkClock (u16 "2024-05-20T10:00:00.000Z") in
  let ticket id :=
    Ticket.mk id id In_Dev [] None [] [] [] [] [] SEV_3 [] [] in
  let st := UseTickets.mkState [ticket (u16 "11"); ticket (u16 "12")] false None in
  let out :=
    UseTickets.bulkUpdateTicketStatus (fun _ _ => Ok tt) clock [u16 "12"] Resolved st in
  snd out = Ok tt
  /\ map Ticket.date_resolved (UseTickets.tickets (fst out))
     = [None; Some (u16 "2024-05-20")].
Proof.
  intros clock ticket st out.
  destruct (bulkUpdateTicketStatus_local (fun _ _ => Ok tt) clock [u16 "12"] Resolved
              st tt eq_refl) as (H & _).
  split; [exact H|reflexivity].
Defined.

(** A search with no criterion selected is a fetch: it sends the same
    unfiltered query, and when the backend answers with rows, or fails with
    an [Error], it leaves the hook in the same state as [fetchTickets] (for
    a failure that is not an [Error] the two fixed error texts differ). *)
Theorem search_without_criteria_is_fetch
    (select : UseTickets.Query -> result (list UseTickets.Row.t))
    (clock : Clock) (filters : SearchFilters.t) (st : UseTickets.State) :
  no_criteria filters ->
  (forall e, select [] = Throw e -> instanceof_Error e = true) ->
  UseTickets.searchTickets_query filters = []
  /\ UseTickets.searchTickets select clock filters st
     = UseTickets.fetchTickets select clock st.
Proof.
  intros (Hq & Hs & Hv & Hp & Hc & Hd & He) Herr.
  assert (Hquery : UseTickets.searchTickets_query filters = []).
  { unfold UseTickets.searchTickets_query. now rewrite Hq, Hs, Hv, Hd, He. }
  split; [exact Hquery|].
  unfold UseTickets.searchTickets, UseTickets.fetchTickets. rewrite Hquery.
  destruct (select []) as [rows|e]; cbn [bind];
    [|unfold UseTickets.error_text; now rewrite (Herr e eq_refl)].
  destruct (mapM_transform clock rows) as [ts [-> _]]. cbn [bind].
  unfold UseTickets.filter_by_tags. now rewrite Hp, Hc.
Qed.

(** The filter object with an empty status list and an empty search text. *)
Lemma search_without_criteria_is_fetch_witness :
  let clock := mkClock (u16 "2024-05-20T10:00:00.000Z") in
  let filters := SearchFilters.mk (Some []) (Some []) None None None None None in
  let st := UseTickets.mkState [] false None in
  no_criteria filters
  /\ UseTickets.searchTickets (fun _ => Ok []) clock filters st
     = UseTickets.fetchTickets (fun _ => Ok []) clock st.
Proof.
  intros clock filters st.
  assert (H : no_criteria filters) by (repeat split).
  split; [exact H|].
  refine (proj2 (search_without_criteria_is_fetch (fun _ => Ok []) clock filters st
                   H _)).
  intros e He. discriminate He.
Defined.

(** [createTicket] refuses a missing or blank ticket id before it calls the
    backend: for every backend, the operation throws the [Error] with the
    message that the id is required, sets that message as the error string
    and leaves the list as it was. *)
Theorem createTicket_requires_id
    (insert : UseTickets.InsertPayload.t -> result UseTickets.Row.t)
    (clock : Clock) (data : TicketFormData.t) (st : UseTickets.State) :
  (forall raw, TicketFormData.ticket_id data = Some raw -> ~ has_non_ws raw) ->
  let out := UseTickets.createTicket insert clock data st in
  snd out = Throw (mkError true (u16 "Ticket ID is required and cannot be empty"))
  /\ UseTickets.error (fst out)
     = Some (u16 "Ticket ID is required and cannot be empty")
  /\ UseTickets.tickets (fst out) = UseTickets.tickets st.
Proof.
  intros Hid. unfold UseTickets.createTicket, UseTickets.createTicket_payload.
  destruct (TicketFormData.ticket_id data) as [raw|]; [|repeat split].
  assert (E : nonempty (trim raw) = false).
  { destruct (nonempty (trim raw)) eqn:E; [|reflexivity].
    apply nonempty_trim in E. now apply Hid in E. }
  rewrite E, orb_true_r. repeat split.
Qed.

Lemma createTicket_requires_id_witness :
  let clock := mkClock (u16 "2024-05-20T10:00:00.000Z") in
  let data := TicketFormData.mk (Some (u16 "   ")) In_Dev [] [] [] [] [] SEV_3 in
  let st := UseTickets.mkState [] false None in
  let row := UseTickets.Row.mk 7 None None None None JNull JNull None None None in
  (forall raw, TicketFormData.ticket_id data = Some raw -> ~ has_non_ws raw)
  /\ UseTickets.tickets (fst (UseTickets.createTicket (fun _ => Ok row) clock data st))
     = [].
Proof.
  intros clock data st row.
  assert (H : forall raw, TicketFormData.ticket_id data = Some raw -> ~ has_non_ws raw).
  { intros raw Hraw. injection Hraw as <-. intros [c [Hin Hc]].
    simpl in Hin. destruct Hin as [<-|[<-|[<-|[]]]]; discriminate. }
  split; [exact H|].
  exact (proj2 (proj2 (createTicket_requires_id (fun _ => Ok row) clock data st H))).
Defined.

End InvariantFacts.

(** * Numeric ticket ids *)

Module NumberFacts.
Import JS JSNum Types Spec Props JSFacts CodecFacts IdFacts HookFacts.

Lemma fold_hash_range (s : jsstring) (h : Z) :
  (- 2 ^ 31 <= h < 2 ^ 31)%Z ->
  (- 2 ^ 31 <= fold_left UseTickets.hash_step s h < 2 ^ 31)%Z.
Proof.
  revert h. induction s as [|c s IH]; intros h Hh; [exact Hh|].
  cbn [fold_left]. apply IH. rewrite hash_step_spec. apply wrap32_range.
Qed.

(** The surrogate id of a non-numeric identifier is never negative and at
    most 2^31 (the absolute value of a 32-bit integer). *)
Theorem surrogate_id_range (t : jsstring) :
  UseTickets.isNumeric t = false ->
  exists z, UseTickets.numeric_ticket_id t = Int z /\ (0 <= z <= 2 ^ 31)%Z.
Proof.
  intros H. unfold UseTickets.numeric_ticket_id. rewrite H.
  eexists. split; [reflexivity|].
  pose proof (fold_hash_range t 0 ltac:(lia)) as R.
  unfold Math_abs. lia.
Qed.

Lemma surrogate_id_range_witness :
  UseTickets.isNumeric (u16 "TKT-7") = false
  /\ exists z, UseTickets.numeric_ticket_id (u16 "TKT-7") = Int z
               /\ (0 <= z <= 2 ^ 31)%Z.
Proof.
  split; [reflexivity|].
  exact (surrogate_id_range (u16 "TKT-7") eq_refl).
Defined.

Lemma is_digit_bounds (c : N) : is_digit c = true <-> 48 <= c <= 57.
Proof.
  unfold is_digit. rewrite andb_true_iff, !N.leb_le. tauto.
Qed.

Lemma is_digit_cases (c : N) :
  is_digit c = true ->
  c = 48 \/ c = 49 \/ c = 50 \/ c = 51 \/ c = 52 \/ c = 53 \/ c = 54
  \/ c = 55 \/ c = 56 \/ c = 57.
Proof. rewrite is_digit_bounds. lia. Qed.

Lemma digit_not_ws (c : N) : is_digit c = true -> is_ws c = false.
Proof.
  intros H. apply is_digit_cases in H.
  repeat (destruct H as [->|H]; [reflexivity|]). now subst.
Qed.

Lemma digit_value (c : N) :
  is_digit c = true -> hex_val c = Some (c - 48).
Proof. intros H. unfold hex_val. now rewrite H. Qed.

Lemma digits_value_snoc (ds : jsstring) (c : N) :
  is_digit c = true ->
  digits_value 10 (ds ++ [c]) = (digits_value 10 ds * 10 + Z.of_N (c - 48))%Z.
Proof.
  intros H. unfold digits_value. rewrite fold_left_app. cbn [fold_left].
  now rewrite digit_value.
Qed.

(** The digits [toString] writes for a natural number. *)
Lemma N_digits_spec (fuel : nat) :
  forall n acc,
  n < 10 ^ N.of_nat (S fuel) ->
  exists d,
    N_digits (S fuel) n acc = d ++ acc
    /\ d <> []
    /\ Forall (fun c => is_digit c = true) d
    /\ digits_value 10 d = Z.of_N n.
Proof.
  induction fuel as [|fuel IH]; intros n acc Hn.
  - assert (Hd : is_digit (48 + n mod 10) = true).
    { apply is_digit_bounds. zify. Z.to_euclidean_division_equations. lia. }
    change (10 ^ N.of_nat 1) with 10 in Hn.
    exists [48 + n mod 10]. repeat split.
    + cbn [N_digits]. now destruct (n / 10 =? 0).
    + discriminate.
    + now repeat constructor.
    + unfold digits_value. cbn [fold_left]. rewrite digit_value by exact Hd.
      rewrite N.mod_small by exact Hn. lia.
  - assert (Hd : is_digit (48 + n mod 10) = true).
    { apply is_digit_bounds. zify. Z.to_euclidean_division_equations. lia. }
    change (N_digits (S (S fuel)) n acc)
      with (if n / 10 =? 0 then (48 + n mod 10) :: acc
            else N_digits (S fuel) (n / 10) ((48 + n mod 10) :: acc)).
    destruct (n / 10 =? 0) eqn:E.
    + apply N.eqb_eq in E.
      exists [48 + n mod 10]. repeat split.
      * discriminate.
      * now repeat constructor.
      * unfold digits_value. cbn [fold_left]. rewrite digit_value by exact Hd.
        zify. Z.to_euclidean_division_equations. lia.
    + assert (Hq : n / 10 < 10 ^ N.of_nat (S fuel)).
      { apply N.Div0.div_lt_upper_bound.
        rewrite (Nat2N.inj_succ (S fuel)), N.pow_succ_r in Hn by lia. exact Hn. }
      destruct (IH (n / 10) ((48 + n mod 10) :: acc) Hq) as (d & Hd1 & Hd2 & Hd3 & Hd4).
      exists (d ++ [48 + n mod 10]). repeat split.
      * rewrite Hd1, <- app_assoc. reflexivity.
      * now destruct d.
      * apply Forall_app. split; [exact Hd3|now repeat constructor].
      * rewrite digits_value_snoc, Hd4 by exact Hd.
        zify. Z.to_euclidean_division_equations. lia.
Qed.

Lemma log2_fuel (m : N) : m < 10 ^ N.of_nat (S (N.to_nat (N.log2 m))).
Proof.
  rewrite Nat2N.inj_succ, N2Nat.id.
  destruct (N.eq_dec m 0) as [->|Hm]; [reflexivity|].
  pose proof (N.log2_spec m ltac:(lia)) as [_ H].
  eapply N.lt_le_trans; [exact H|].
  apply N.pow_le_mono_l. lia.
Qed.

Lemma N_digits_toString (m : N) :
  exists d,
    decimal m = d
    /\ d <> []
    /\ Forall (fun c => is_digit c = true) d
    /\ digits_value 10 d = Z.of_N m.
Proof.
  unfold decimal.
  destruct (N_digits_spec _ m [] (log2_fuel m)) as (d & H1 & H2 & H3 & H4).
  exists d. rewrite H1, app_nil_r. auto.
Qed.

Lemma take_while_digits (d : jsstring) :
  Forall (fun c => is_digit c = true) d -> take_while is_digit d = d.
Proof.
  induction 1 as [|c d Hc _ IH]; [reflexivity|].
  cbn [take_while]. now rewrite Hc, IH.
Qed.

Lemma span_all_digits (d : jsstring) :
  Forall (fun c => is_digit c = true) d -> span_digits d = (d, []).
Proof.
  induction 1 as [|c d Hc _ IH]; [reflexivity|].
  cbn [span_digits]. now rewrite Hc, IH.
Qed.

Lemma trimStart_non_ws_head (c : N) (s : jsstring) :
  is_ws c = false -> trimStart (c :: s) = c :: s.
Proof. intros H. cbn [trimStart]. now rewrite H. Qed.

Lemma trim_no_ws (s : jsstring) :
  Forall (fun c => is_ws c = false) s -> trim s = s.
Proof.
  intros H. unfold trim, trimEnd.
  assert (Hs : trimStart s = s).
  { destruct H as [|c s Hc _]; [reflexivity|now apply trimStart_non_ws_head]. }
  rewrite Hs.
  assert (Hr : Forall (fun c => is_ws c = false) (rev s)) by now apply Forall_rev.
  assert (Hrs : trimStart (rev s) = rev s).
  { destruct Hr as [|c r Hc _]; [reflexivity|now apply trimStart_non_ws_head]. }
  rewrite Hrs. apply rev_involutive.
Qed.

Lemma decimal_recognised (d : jsstring) :
  d <> [] -> Forall (fun c => is_digit c = true) d ->
  strip_sign d = d /\ str_unsigned_decimal d = Some [].
Proof.
  intros Hne Hd. destruct d as [|c d]; [congruence|].
  inversion Hd as [|? ? Hc Hrest]; subst.
  pose proof (is_digit_cases c Hc) as Hcases.
  split.
  - repeat (destruct Hcases as [->|Hcases]; [reflexivity|]). now subst.
  - unfold str_unsigned_decimal.
    assert (Hp : strip_prefix (u16 "Infinity") (c :: d) = None).
    { repeat (destruct Hcases as [->|Hcases]; [reflexivity|]). now subst. }
    rewrite Hp, (span_all_digits (c :: d) Hd). reflexivity.
Qed.

(** Up to 2^53 the Number value of an integer is the integer. *)
Lemma to_number_safe (z : Z) : (Z.abs z < 2 ^ 53)%Z -> to_number z = Int z.
Proof.
  intros H. unfold to_number, round_to_double.
  rewrite (proj2 (Z.ltb_lt _ _) H).
  assert (H' : (2 ^ 53 < 2 ^ 1024)%Z) by now vm_compute.
  rewrite (proj2 (Z.leb_gt _ _)) by lia.
  f_equal. destruct (z <? 0)%Z eqn:E;
    [apply Z.ltb_lt in E|apply Z.ltb_ge in E]; lia.
Qed.

Lemma parseInt_digits (d : jsstring) :
  d <> [] -> Forall (fun c => is_digit c = true) d ->
  parseInt d = to_number (digits_value 10 d)
  /\ parseInt (45 :: d) = to_number (- digits_value 10 d).
Proof.
  intros Hne Hd. destruct d as [|c d]; [congruence|].
  inversion Hd as [|? ? Hc Hrest]; subst.
  assert (Hsign : strip_sign (c :: d) = c :: d) by now apply decimal_recognised.
  assert (Hneg : (c =? 45) = false).
  { apply N.eqb_neq. apply is_digit_bounds in Hc. lia. }
  assert (Hx : forall x r, d = x :: r -> (x =? 120) || (x =? 88) = false).
  { intros x r ->. inversion Hrest as [|? ? Hx _]; subst.
    apply is_digit_bounds in Hx.
    replace (x =? 120) with false by (symmetry; apply N.eqb_neq; lia).
    replace (x =? 88) with false by (symmetry; apply N.eqb_neq; lia).
    reflexivity. }
  pose proof (take_while_digits (c :: d) Hd) as Htake.
  split.
  - unfold parseInt. cbv zeta.
    rewrite trimStart_non_ws_head by now apply digit_not_ws.
    rewrite Hsign. cbv beta iota. rewrite Hneg.
    destruct d as [|x r].
    + cbv beta iota. change (10 =? 16)%Z with false. cbv iota.
      now rewrite Htake.
    + rewrite (Hx x r eq_refl), andb_false_r. cbv beta iota.
      change (10 =? 16)%Z with false. cbv iota. now rewrite Htake.
  - unfold parseInt. cbv zeta.
    rewrite trimStart_non_ws_head by reflexivity.
    change (strip_sign (45 :: c :: d)) with (c :: d).
    cbv beta iota. change (45 =? 45) with true.
    destruct d as [|x r].
    + cbv beta iota. change (10 =? 16)%Z with false. cbv iota.
      now rewrite Htake.
    + rewrite (Hx x r eq_refl), andb_false_r. cbv beta iota.
      change (10 =? 16)%Z with false. cbv iota. now rewrite Htake.
Qed.

Lemma isNumeric_digits (d : jsstring) :
  d <> [] -> Forall (fun c => is_digit c = true) d ->
  trim d = d /\ UseTickets.isNumeric d = true
  /\ trim (45 :: d) = 45 :: d /\ UseTickets.isNumeric (45 :: d) = true.
Proof.
  intros Hne Hd.
  assert (Hws : Forall (fun c => is_ws c = false) d).
  { eapply Forall_impl; [|exact Hd]. apply digit_not_ws. }
  assert (Ht : trim d = d) by now apply trim_no_ws.
  assert (Htm : trim (45 :: d) = 45 :: d).
  { apply trim_no_ws. now constructor. }
  destruct (decimal_recognised d Hne Hd) as [Hs Hu].
  destruct d as [|c d]; [congruence|].
  inversion Hws as [|? ? Hc _]; subst.
  repeat split; try assumption.
  - unfold UseTickets.isNumeric, Number_isNaN, parseFloat_isNaN.
    rewrite Ht, trimStart_non_ws_head, Hs, Hu by exact Hc.
    now rewrite orb_true_r.
  - unfold UseTickets.isNumeric, Number_isNaN, parseFloat_isNaN.
    rewrite Htm, trimStart_non_ws_head by reflexivity.
    cbn [strip_sign N.eqb Pos.eqb orb]. rewrite Hu.
    now rewrite orb_true_r.
Qed.

Lemma integer_text_facts (z : Z) :
  (Z.abs z < 2 ^ 53)%Z ->
  parseInt (toString (Int z)) = Int z
  /\ UseTickets.isNumeric (toString (Int z)) = true
  /\ trim (toString (Int z)) = toString (Int z)
  /\ toString (Int z) <> [].
Proof.
  intros Hsafe. cbn [toString]. rewrite (proj2 (Z.ltb_lt _ _) Hsafe).
  destruct (N_digits_toString (Z.abs_N z)) as (d & -> & Hne & Hd & Hv).
  destruct (parseInt_digits d Hne Hd) as [Hp Hn].
  destruct (isNumeric_digits d Hne Hd) as (Ht & Hnum & Htm & Hnumm).
  destruct (z <? 0)%Z eqn:E.
  - apply Z.ltb_lt in E.
    assert (Hz : parseInt (45 :: d) = Int z).
    { rewrite Hn, Hv. replace (- Z.of_N (Z.abs_N z))%Z with z by lia.
      now apply to_number_safe. }
    repeat split; try assumption; try discriminate.
  - apply Z.ltb_ge in E.
    assert (Hz : parseInt d = Int z).
    { rewrite Hp, Hv. replace (Z.of_N (Z.abs_N z)) with z by lia.
      now apply to_number_safe. }
    repeat split; try assumption.
Qed.

(** The text of a safe integer reads back as that integer. For every
    integer below 2^53 in absolute value (the integers a Number holds
    exactly), [parseInt] inverts [toString], the text is numeric and
    already trimmed, and the numeric ticket id derived from it is the
    integer itself (no hashing). *)
Theorem integer_text_round_trip (z : Z) :
  (Z.abs z < 2 ^ 53)%Z ->
  let s := toString (Int z) in
  parseInt s = Int z
  /\ UseTickets.isNumeric s = true
  /\ trim s = s
  /\ s <> []
  /\ UseTickets.numeric_ticket_id (trim s) = Int z.
Proof.
  intros Hsafe. cbv zeta.
  destruct (integer_text_facts z Hsafe) as (Hp & Hn & Htrim & Hne).
  repeat split; try assumption.
  unfold UseTickets.numeric_ticket_id. now rewrite Htrim, Hn.
Qed.

(** The largest safe integer; one step further, 2^53 + 1 is not a Number
    and its digits read as 2^53, and from 10^21 on the text is in exponent
    notation, of which [parseInt] reads the first digits only. *)
Lemma integer_text_round_trip_witness :
  (Z.abs 9007199254740991 < 2 ^ 53)%Z
  /\ parseInt (toString (Int 9007199254740991)) = Int 9007199254740991
  /\ parseInt (u16 "9007199254740993") = Int 9007199254740992
  /\ toString (Int (10 ^ 21)) = u16 "1e+21"
  /\ parseInt (u16 "1e+21") = Int 1.
Proof.
  split; [now vm_compute|].
  split; [exact (proj1 (integer_text_round_trip 9007199254740991
                          ltac:(now vm_compute)))|].
  repeat split; now vm_compute.
Defined.

(** Editing a fetched ticket addresses and keeps its row. For a row whose
    [ticket_id] is below 2^53 in absolute value (so that the client holds
    the stored id exactly), the id the hook holds for the row parses back
    to the row's [ticket_id] (the value of the [eq] filter of update and
    delete), and an update that passes the ticket's own id text on sends
    that same [ticket_id]. *)
Theorem edit_keeps_ticket_id (clock : Clock) (row : UseTickets.Row.t)
    (t : Ticket.t) (updates : TicketUpdates.t) :
  (Z.abs (UseTickets.Row.ticket_id row) < 2 ^ 53)%Z ->
  UseTickets.transform clock row = Ok t ->
  TicketUpdates.ticket_id updates = Some (Ticket.ticket_id t) ->
  parseInt (Ticket.id t) = Int (UseTickets.Row.ticket_id row)
  /\ UseTickets.UpdatePayload.ticket_id (UseTickets.updateTicket_payload clock updates)
     = Val (Int (UseTickets.Row.ticket_id row)).
Proof.
  intros Hsafe Ht Hu. apply transform_tags in Ht as (_ & _ & Hid & Htid).
  destruct (integer_text_facts (UseTickets.Row.ticket_id row) Hsafe)
    as (Hp & Hn & Htrim & Hne).
  split; [now rewrite Hid|].
  unfold UseTickets.updateTicket_payload.
  cbn [UseTickets.UpdatePayload.ticket_id]. rewrite Hu, Htid.
  unfold UseTickets.numeric_ticket_id. rewrite Htrim, Hn, Hp.
  now rewrite (proj2 (nonempty_true _) Hne).
Qed.

Lemma edit_keeps_ticket_id_witness :
  let clock := mkClock (u16 "2024-05-20T10:00:00.000Z") in
  let row :=
    UseTickets.Row.mk 4711 (Some In_Dev) None None None JNull JNull None None None in
  let t :=
    Ticket.mk (u16 "4711") (u16 "4711") In_Dev (u16 "2024-05-20T10:00:00.000Z")
      None [] [] [] [] [] SEV_3 (u16 "2024-05-20T10:00:00.000Z")
      (u16 "2024-05-20T10:00:00.000Z") in
  let updates :=
    TicketUpdates.mk (Some (u16 "4711")) (Some In_QA) None None None None None None in
  UseTickets.transform clock row = Ok t
  /\ UseTickets.UpdatePayload.ticket_id (UseTickets.updateTicket_payload clock updates)
     = Val (Int 4711).
Proof.
  intros clock row t updates. split; [reflexivity|].
  exact (proj2 (edit_keeps_ticket_id clock row t updates ltac:(now vm_compute)
                  eq_refl eq_refl)).
Defined.

End NumberFacts.

(** * Sorting, sets and trimming *)

Module OrderFacts.
Import JS JSNum Types Spec Props JSFacts.

Lemma str_leb_total (a b : jsstring) : str_leb a b = true \/ str_leb b a = true.
Proof.
  revert b. induction a as [|x a IH]; intros [|y b]; simpl; auto.
  destruct (N.lt_trichotomy x y) as [H|[H|H]].
  - left. apply orb_true_iff. left. now apply N.ltb_lt.
  - subst. rewrite N.eqb_refl, N.ltb_irrefl. simpl. apply IH.
  - right. apply orb_true_iff. left. now apply N.ltb_lt.
Qed.

Lemma str_leb_trans (a b c : jsstring) :
  str_leb a b = true -> str_leb b c = true -> str_leb a c = true.
Proof.
  revert b c. induction a as [|x a IH]; intros [|y b] [|z c]; simpl;
    try reflexivity; try discriminate.
  rewrite !orb_true_iff, !andb_true_iff, !N.ltb_lt, !N.eqb_eq.
  intros [H1|[H1 H1']] [H2|[H2 H2']].
  - left. lia.
  - left. lia.
  - left. lia.
  - right. split; [lia|]. eapply IH; eauto.
Qed.

Lemma insert_sorted_perm (x : jsstring) (l : list jsstring) :
  Permutation (insert_sorted x l) (x :: l).
Proof.
  induction l as [|y l IH]; [reflexivity|].
  cbn [insert_sorted]. destruct (str_leb x y); [reflexivity|].
  rewrite IH. apply perm_swap.
Qed.

Lemma Array_sort_perm (l : list jsstring) : Permutation (Array_sort l) l.
Proof.
  induction l as [|x l IH]; [reflexivity|].
  cbn [Array_sort fold_right]. fold (Array_sort l).
  rewrite insert_sorted_perm. now constructor.
Qed.

Lemma insert_sorted_ascending (x : jsstring) (l : list jsstring) :
  ascending l -> ascending (insert_sorted x l).
Proof.
  unfold ascending. induction 1 as [|y l Hl IH Hy].
  - repeat constructor.
  - cbn [insert_sorted]. destruct (str_leb x y) eqn:E.
    + constructor; [now constructor|].
      constructor; [exact E|].
      eapply Forall_impl; [|exact Hy]. intros z Hz. eapply str_leb_trans; eauto.
    + constructor; [exact IH|].
      assert (Hyx : str_leb y x = true).
      { destruct (str_leb_total x y) as [H|H]; congruence. }
      apply Forall_forall. intros z Hz.
      apply (Permutation_in _ (insert_sorted_perm x l)) in Hz.
      destruct Hz as [<-|Hz]; [exact Hyx|].
      revert z Hz. now apply Forall_forall.
Qed.

Lemma Array_sort_ascending (l : list jsstring) : ascending (Array_sort l).
Proof.
  induction l as [|x l IH]; [constructor|].
  cbn [Array_sort fold_right]. fold (Array_sort l).
  now apply insert_sorted_ascending.
Qed.

Lemma Set_add_In (s : list jsstring) (x y : jsstring) :
  In y (UseTickets.Set_add s x) <-> In y s \/ y = x.
Proof.
  unfold UseTickets.Set_add. destruct (includes s x) eqn:E.
  - split; [tauto|]. intros [H | ->]; [exact H|].
    unfold includes in E. apply existsb_exists in E as [z [Hz Hxz]].
    apply str_eqb_eq in Hxz. now subst.
  - rewrite in_app_iff. simpl. split; intros [H|H]; auto.
    + destruct H as [<-|[]]. now right.
Qed.

Lemma Set_add_NoDup (s : list jsstring) (x : jsstring) :
  NoDup s -> NoDup (UseTickets.Set_add s x).
Proof.
  intros H. unfold UseTickets.Set_add. destruct (includes s x) eqn:E; [exact H|].
  apply NoDup_app; [exact H|repeat constructor; intros []|].
  intros y Hy [Hxy|[]]. subst y.
  assert (Hin : includes s x = true).
  { unfold includes. apply existsb_exists. exists x. split; [exact Hy|].
    apply str_eqb_refl. }
  congruence.
Qed.

Lemma trimStart_fixed (s : jsstring) :
  (forall c r, s = c :: r -> is_ws c = false) -> trimStart s = s.
Proof.
  destruct s as [|c r]; [reflexivity|]. intros H.
  cbn [trimStart]. now rewrite (H c r eq_refl).
Qed.

Lemma trimStart_split (s : jsstring) :
  exists p, s = p ++ trimStart s.
Proof.
  induction s as [|c s [p IH]]; [now exists []|].
  cbn [trimStart]. destruct (is_ws c).
  - exists (c :: p). simpl. now rewrite <- IH.
  - now exists [].
Qed.

Lemma trimStart_idempotent (s : jsstring) : trimStart (trimStart s) = trimStart s.
Proof.
  apply trimStart_fixed. intros c r H. eapply trimStart_head; eauto.
Qed.

Lemma trim_ends (s : jsstring) :
  trimStart (trim s) = trim s /\ trimStart (rev (trim s)) = rev (trim s).
Proof.
  unfold trim, trimEnd. split.
  - destruct (trimStart s) as [|a A] eqn:EA; [reflexivity|].
    pose proof (trimStart_head _ _ _ EA) as Ha.
    destruct (trimStart_split (rev (a :: A))) as [p Hp].
    destruct (rev (trimStart (rev (a :: A)))) as [|x X] eqn:E; [reflexivity|].
    apply trimStart_fixed. intros c r Hc. injection Hc as <- _.
    apply (f_equal (@rev N)) in Hp.
    rewrite rev_involutive, rev_app_distr, E in Hp.
    simpl in Hp. now injection Hp as <- _.
  - rewrite rev_involutive. apply trimStart_idempotent.
Qed.

(** [trim] leaves a trimmed string as it is. *)
Lemma trim_idempotent (s : jsstring) : trim (trim s) = trim s.
Proof.
  destruct (trim_ends s) as [H1 H2].
  unfold trim at 1. unfold trimEnd. rewrite H1, H2. apply rev_involutive.
Qed.

Lemma trim_trimmed_tag (s : jsstring) : has_non_ws s -> trimmed_tag (trim s).
Proof.
  intros H. split; [now apply trim_non_ws|apply trim_idempotent].
Qed.

End OrderFacts.

(** * Suggestion lists *)

Module SuggestionFacts.
Import JS JSNum Types Spec Props JSFacts OrderFacts.

Lemma add_tag_string (acc : list jsstring) (s : jsstring) :
  UseTickets.add_tag acc (JStr s)
  = Ok (if nonempty (trim s) then UseTickets.Set_add acc (trim s) else acc).
Proof.
  unfold UseTickets.add_tag. destruct s as [|c s]; [reflexivity|].
  cbn [truthy method_trim bind]. now destruct (nonempty (trim (c :: s))).
Qed.

Lemma forEach_add_tag (tags : list JSValue) :
  clean_tags tags ->
  forall acc,
  exists acc',
    UseTickets.forEachM UseTickets.add_tag tags acc = Ok acc'
    /\ (NoDup acc -> NoDup acc')
    /\ (forall x, In x acc' <-> In x acc \/ exists s, In (JStr s) tags /\ x = trim s).
Proof.
  induction 1 as [|v tags [s [-> Hs]] _ IH]; intros acc.
  - exists acc. split; [reflexivity|]. split; [auto|].
    intros x. split; [auto|]. intros [H|[s [[] _]]]. exact H.
  - cbn [UseTickets.forEachM]. rewrite add_tag_string.
    rewrite (proj2 (nonempty_trim s) Hs). cbn [bind].
    destruct (IH (UseTickets.Set_add acc (trim s))) as (acc' & Hacc' & Hnd & Hin).
    exists acc'. split; [exact Hacc'|]. split.
    + intros H. now apply Hnd, Set_add_NoDup.
    + intros x. rewrite Hin, Set_add_In. split.
      * intros [[H|H]|[s' [H1 H2]]]; [now left| |].
        -- right. exists s. split; [now left|exact H].
        -- right. exists s'. split; [now right|exact H2].
      * intros [H|[s' [[H1|H1] H2]]]; [now left; left| |].
        -- injection H1 as <-. left. now right.
        -- right. now exists s'.
Qed.

Lemma forEach_tickets (product : bool) (tickets : list Ticket.t) :
  Forall (fun t => clean_tags (Ticket.product_tags t)
                   /\ clean_tags (Ticket.category_tags t)) tickets ->
  forall acc,
  exists acc',
    UseTickets.forEachM
      (fun acc ticket =>
         UseTickets.forEachM UseTickets.add_tag
           (if product then Ticket.product_tags ticket
            else Ticket.category_tags ticket) acc) tickets acc = Ok acc'
    /\ (NoDup acc -> NoDup acc')
    /\ (forall x,
          In x acc'
          <-> In x acc
              \/ exists t s,
                   In t tickets
                   /\ In (JStr s) (if product then Ticket.product_tags t
                                   else Ticket.category_tags t)
                   /\ x = trim s).
Proof.
  induction 1 as [|t tickets [Hp Hc] _ IH]; intros acc.
  - exists acc. split; [reflexivity|]. split; [auto|].
    intros x. split; [auto|]. intros [H|(t & s & [] & _)]. exact H.
  - cbn [UseTickets.forEachM].
    assert (Hclean : clean_tags (if product then Ticket.product_tags t
                                 else Ticket.category_tags t))
      by now destruct product.
    destruct (forEach_add_tag _ Hclean acc) as (acc1 & -> & Hnd1 & Hin1).
    cbn [bind].
    destruct (IH acc1) as (acc' & Hacc' & Hnd & Hin).
    exists acc'. split; [exact Hacc'|]. split; [auto|].
    intros x. rewrite Hin, Hin1. split.
    + intros [[H|[s [H1 H2]]]|(t' & s & H1 & H2 & H3)].
      * now left.
      * right. exists t, s. split; [now left|auto].
      * right. exists t', s. split; [now right|auto].
    + intros [H|(t' & s & [<-|H1] & H2 & H3)].
      * now left; left.
      * left. right. now exists s.
      * right. now exists t', s.
Qed.

(** The tag suggestions computed from the tickets in memory: under the
    invariant of the hook the computation does not throw, and the list is
    in ascending order, without duplicates, made of trimmed non-empty tags,
    and holds exactly the trimmed tags of the tickets. *)
Theorem tag_suggestions (product : bool) (st : UseTickets.State) :
  tags_invariant st ->
  exists l,
    UseTickets.getUniqueTagsFromMemory product st = Ok l
    /\ ascending l
    /\ NoDup l
    /\ Forall trimmed_tag l
    /\ (forall x,
          In x l
          <-> exists t s,
                In t (UseTickets.tickets st)
                /\ In (JStr s) (if product then Ticket.product_tags t
                                else Ticket.category_tags t)
                /\ x = trim s).
Proof.
  intros Hinv. unfold UseTickets.getUniqueTagsFromMemory.
  destruct (forEach_tickets product _ Hinv []) as (acc & -> & Hnd & Hin).
  cbn [bind]. eexists. split; [reflexivity|].
  pose proof (Array_sort_perm acc) as Hperm.
  assert (Hmem : forall x,
            In x (Array_sort acc)
            <-> exists t s,
                  In t (UseTickets.tickets st)
                  /\ In (JStr s) (if product then Ticket.product_tags t
                                  else Ticket.category_tags t)
                  /\ x = trim s).
  { intros x. split.
    - intros H. apply (Permutation_in _ Hperm) in H.
      apply Hin in H as [[]|H]. exact H.
    - intros H. apply (Permutation_in _ (Permutation_sym Hperm)).
      apply Hin. now right. }
  repeat apply conj.
  - apply Array_sort_ascending.
  - apply (Permutation_NoDup (Permutation_sym Hperm)). apply Hnd. constructor.
  - apply Forall_forall. intros x Hx. apply Hmem in Hx as (t & s & Ht & Hs & ->).
    apply trim_trimmed_tag.
    unfold tags_invariant in Hinv. rewrite Forall_forall in Hinv.
    destruct (Hinv t Ht) as [Hp Hc].
    assert (Hclean : clean_tags (if product then Ticket.product_tags t
                                 else Ticket.category_tags t))
      by now destruct product.
    unfold clean_tags in Hclean. rewrite Forall_forall in Hclean.
    destruct (Hclean _ Hs) as [s' [E Hs']]. now injection E as <-.
  - exact Hmem.
Qed.

Lemma tag_suggestions_witness :
  let ticket id tags :=
    Ticket.mk id id In_Dev [] None [] [] [] (map JStr tags) [] SEV_3 [] [] in
  let st :=
    UseTickets.mkState
      [ticket (u16 "11") [u16 "Liquid"; u16 "Cash"]; ticket (u16 "12") [u16 "Cash"]]
      false None in
  tags_invariant st
  /\ exists l, UseTickets.getUniqueTagsFromMemory true st = Ok l /\ NoDup l.
Proof.
  intros ticket st.
  assert (H : tags_invariant st).
  { repeat constructor; eexists; (split; [reflexivity|]);
      eexists; (split; [left; reflexivity|reflexivity]). }
  split; [exact H|].
  destruct (tag_suggestions true st H) as (l & Hl & _ & Hnd & _).
  exists l. split; [exact Hl|exact Hnd].
Defined.

Lemma fold_products (items : list Feedback.t) :
  forall acc,
  let acc' :=
    fold_left
      (fun uniqueProducts item =>
         if nonempty (Feedback.product item)
            && nonempty (trim (Feedback.product item))
         then UseTickets.Set_add uniqueProducts (trim (Feedback.product item))
         else uniqueProducts) items acc in
  (NoDup acc -> NoDup acc')
  /\ (forall x,
        In x acc'
        <-> In x acc
            \/ exists item,
                 In item items /\ has_non_ws (Feedback.product item)
                 /\ x = trim (Feedback.product item)).
Proof.
  induction items as [|item items IH]; intros acc; cbn zeta.
  - split; [auto|]. intros x. split; [auto|]. intros [H|(i & [] & _)]. exact H.
  - cbn [fold_left].
    destruct (nonempty (Feedback.product item)
              && nonempty (trim (Feedback.product item))) eqn:E.
    + apply andb_true_iff in E as [_ E]. apply nonempty_trim in E.
      destruct (IH (UseTickets.Set_add acc (trim (Feedback.product item))))
        as [Hnd Hin].
      split; [intros H; now apply Hnd, Set_add_NoDup|].
      intros x. rewrite Hin, Set_add_In. split.
      * intros [[H|H]|(i & H1 & H2 & H3)]; [now left| |].
        -- right. exists item. split; [now left|auto].
        -- right. exists i. split; [now right|auto].
      * intros [H|(i & [<-|H1] & H2 & H3)]; [now left; left| |].
        -- left. now right.
        -- right. now exists i.
    + assert (Hblank : ~ has_non_ws (Feedback.product item)).
      { intros H. pose proof (proj2 (nonempty_trim _) H) as Ht.
        rewrite Ht, andb_true_r in E.
        destruct H as [c [Hc _]]. destruct (Feedback.product item); [destruct Hc|].
        discriminate. }
      destruct (IH acc) as [Hnd Hin]. split; [exact Hnd|].
      intros x. rewrite Hin. split.
      * intros [H|(i & H1 & H2 & H3)]; [now left|].
        right. exists i. split; [now right|auto].
      * intros [H|(i & [<-|H1] & H2 & H3)]; [now left|tauto|].
        right. now exists i.
Qed.

(** The product suggestions computed from the feedback in memory are in
    ascending order, without duplicates, made of trimmed non-empty names,
    and hold exactly the trimmed product names of the items whose product
    is not blank. *)
Theorem product_suggestions (st : UseFeedback.State) :
  let l := FeedbackMemory.getUniqueProductsFromMemory st in
  ascending l
  /\ NoDup l
  /\ Forall trimmed_tag l
  /\ (forall x,
        In x l
        <-> exists item,
              In item (UseFeedback.feedback st)
              /\ has_non_ws (Feedback.product item)
              /\ x = trim (Feedback.product item)).
Proof.
  cbn zeta. unfold FeedbackMemory.getUniqueProductsFromMemory.
  destruct (fold_products (UseFeedback.feedback st) []) as [Hnd Hin].
  cbn zeta in Hnd, Hin.
  set (acc := fold_left _ (UseFeedback.feedback st) []) in *.
  pose proof (Array_sort_perm acc) as Hperm.
  assert (Hmem : forall x,
            In x (Array_sort acc)
            <-> exists item,
                  In item (UseFeedback.feedback st)
                  /\ has_non_ws (Feedback.product item)
                  /\ x = trim (Feedback.product item)).
  { intros x. split.
    - intros H. apply (Permutation_in _ Hperm) in H.
      apply Hin in H as [[]|H]. exact H.
    - intros H. apply (Permutation_in _ (Permutation_sym Hperm)).
      apply Hin. now right. }
  repeat apply conj.
  - apply Array_sort_ascending.
  - apply (Permutation_NoDup (Permutation_sym Hperm)). apply Hnd. constructor.
  - apply Forall_forall. intros x Hx. apply Hmem in Hx as (i & _ & Hi & ->).
    now apply trim_trimmed_tag.
  - exact Hmem.
Qed.

End SuggestionFacts.

(** * The forms *)

Module FormFacts.
Import JS JSNum Types Spec Props JSFacts JSONFacts CodecFacts StateFacts OrderFacts.








Lemma blank_check (s : jsstring) :
  negb (nonempty s) || negb (nonempty (trim s)) = false <-> has_non_ws s.
Proof.
  rewrite orb_false_iff, !negb_false_iff. split.
  - intros [_ H]. now apply nonempty_trim.
  - intros H. split; [|now apply nonempty_trim].
    destruct H as [c [Hc _]]. now destruct s.
Qed.

(** The ticket form lets a ticket through exactly when its id, its
    description and its contact information each have a character that is
    not whitespace; the data then reaches [onSave] unchanged, and the hook
    does not refuse it: [createTicket] builds its insert. *)
Theorem ticket_form_accepts (clock : Clock) (formData : TicketFormData.t) :
  (TicketForm.validateForm formData = true
   <-> (exists raw, TicketFormData.ticket_id formData = Some raw /\ has_non_ws raw)
       /\ has_non_ws (TicketFormData.issue_description formData)
       /\ has_non_ws (TicketFormData.contact_info formData))
  /\ (TicketForm.handleSubmit formData
      = if TicketForm.validateForm formData then Some formData else None)
  /\ (TicketForm.validateForm formData = true ->
      exists body, UseTickets.createTicket_payload clock formData = Ok body).
Proof.
  assert (Hv : TicketForm.validateForm formData = true
               <-> (exists raw, TicketFormData.ticket_id formData = Some raw
                                /\ has_non_ws raw)
                   /\ has_non_ws (TicketFormData.issue_description formData)
                   /\ has_non_ws (TicketFormData.contact_info formData)).
  { unfold TicketForm.validateForm, TicketForm.validation_errors, Forms.error_entry.
    pose proof (blank_check (TicketFormData.issue_description formData)) as Hd.
    pose proof (blank_check (TicketFormData.contact_info formData)) as Hc.
    destruct (TicketFormData.ticket_id formData) as [raw|].
    - pose proof (blank_check raw) as Hr. revert Hr Hd Hc.
      destruct (negb (nonempty raw) || negb (nonempty (trim raw)));
        destruct (negb (nonempty (TicketFormData.issue_description formData))
                  || negb (nonempty (trim (TicketFormData.issue_description formData))));
        destruct (negb (nonempty (TicketFormData.contact_info formData))
                  || negb (nonempty (trim (TicketFormData.contact_info formData))));
        intros Hr Hd Hc; cbn [app];
        (split; [intros H; try discriminate H; clear H
                |intros ([r [Hr' Hb]] & Hb2 & Hb3)]).
      all: try (injection Hr' as <-; apply Hr in Hb; apply Hd in Hb2;
                apply Hc in Hb3; try discriminate; reflexivity).
      split; [exists raw; split; [reflexivity|now apply Hr]|].
      split; [now apply Hd|now apply Hc].
    - cbn [app]. split; [discriminate|]. intros ([r [Hr _]] & _). discriminate. }
  split; [exact Hv|]. split.
  - unfold TicketForm.handleSubmit. now destruct (TicketForm.validateForm formData).
  - intros H. apply Hv in H as ([raw [Hraw Hws]] & _).
    unfold UseTickets.createTicket_payload. rewrite Hraw.
    rewrite (proj2 (blank_check raw) Hws). eexists. reflexivity.
Qed.

Lemma ticket_form_accepts_witness :
  let clock := mkClock (u16 "2024-05-20T10:00:00.000Z") in
  let formData :=
    TicketFormData.mk (Some (u16 "41")) In_Dev [] (u16 "login fails")
      (u16 "0xabc") [] [] SEV_3 in
  TicketForm.validateForm formData = true
  /\ exists body, UseTickets.createTicket_payload clock formData = Ok body.
Proof.
  intros clock formData. split; [reflexivity|].
  exact (proj2 (proj2 (ticket_form_accepts clock formData)) eq_refl).
Defined.

(** The shipping-date effect of the feedback form and the insert. When
    [shipped] is true and no date is given, the effect fills in the current
    date, running it again changes nothing, and the row [createFeedback]
    inserts for the form after the effect carries that date. *)
Theorem shipped_effect_then_create (clock : Clock) (formData : FeedbackFormData.t) :
  FeedbackFormData.shipped formData = Some true ->
  or_none (FeedbackFormData.shipping_date formData) = None ->
  today clock <> [] ->
  let formData' := UseFeedback.shipped_effect clock formData in
  FeedbackFormData.shipping_date formData' = Some (today clock)
  /\ UseFeedback.shipped_effect clock formData' = formData'
  /\ UseFeedback.Payload.shipping_date
       (UseFeedback.createFeedback_payload clock formData')
     = Val (today clock).
Proof.
  intros Hs Hd Ht. cbn zeta.
  unfold UseFeedback.shipped_effect. rewrite Hs, Hd.
  cbn [FeedbackFormData.shipping_date FeedbackFormData.shipped].
  destruct (today clock) as [|c r] eqn:E; [congruence|].
  repeat split.
Qed.

Lemma shipped_effect_then_create_witness :
  let clock := mkClock (u16 "2024-05-20T10:00:00.000Z") in
  let formData :=
    FeedbackFormData.mk None (Some (u16 "2024-05-01")) (Some Discord) None None
      None (Some true) (Some []) in
  FeedbackFormData.shipped formData = Some true
  /\ UseFeedback.Payload.shipping_date
       (UseFeedback.createFeedback_payload clock
          (UseFeedback.shipped_effect clock formData))
     = Val (u16 "2024-05-20").
Proof.
  intros clock formData. split; [reflexivity|].
  refine (proj2 (proj2 (shipped_effect_then_create clock formData eq_refl eq_refl _))).
  discriminate.
Defined.

End FormFacts.

(** * The ticket gallery *)

Module GalleryFacts.
Import JS JSNum Types Spec Props JSFacts StateFacts OrderFacts.
Local Open Scope Z_scope.

(** Page [p + 1] is the [p]-th block of twelve. *)
Lemma page_chunk {A} (processed : list A) (p : nat) :
  TicketGallery.currentTickets processed (Z.of_nat (S p))
  = firstn 12 (skipn (12 * p) processed).
Proof.
  unfold TicketGallery.currentTickets, TicketGallery.Array_slice,
    TicketGallery.relative_index, TicketGallery.ITEMS_PER_PAGE.
  cbv zeta.
  replace (Z.of_nat (S p) - 1) with (Z.of_nat p) by lia.
  destruct (Z.of_nat p * 12 <? 0) eqn:E1; [apply Z.ltb_lt in E1; lia|].
  destruct (Z.of_nat p * 12 + 12 <? 0) eqn:E2; [apply Z.ltb_lt in E2; lia|].
  destruct (le_lt_dec (List.length processed) (12 * p)) as [H|H].
  - replace (Z.to_nat (Z.min (Z.of_nat p * 12) (Z.of_nat (List.length processed))))
      with (List.length processed) by lia.
    rewrite skipn_all, firstn_nil.
    rewrite (skipn_all2 processed) by exact H.
    now rewrite firstn_nil.
  - replace (Z.to_nat (Z.min (Z.of_nat p * 12) (Z.of_nat (List.length processed))))
      with (12 * p)%nat by lia.
    pose proof (length_skipn (12 * p) processed) as Hs.
    replace (Z.to_nat
               (Z.min (Z.of_nat p * 12 + 12) (Z.of_nat (List.length processed))
                - Z.min (Z.of_nat p * 12) (Z.of_nat (List.length processed))))
      with (Nat.min 12 (List.length (skipn (12 * p) processed))) by lia.
    now rewrite <- firstn_firstn, firstn_all.
Qed.

Lemma chunks_concat {A} (n : nat) :
  forall l : list A,
  (List.length l <= 12 * n)%nat ->
  List.concat (map (fun i => firstn 12 (skipn (12 * i) l)) (seq 0 n)) = l.
Proof.
  induction n as [|n IH]; intros l H.
  - destruct l; [reflexivity|simpl in H; lia].
  - cbn [seq map List.concat]. rewrite <- seq_shift, map_map.
    rewrite (map_ext _ (fun i => firstn 12 (skipn (12 * i) (skipn 12 l)))).
    + rewrite IH by (rewrite length_skipn; lia).
      change (12 * 0)%nat with 0%nat. cbn [skipn].
      apply firstn_skipn.
    + intros i. rewrite skipn_skipn. f_equal. f_equal. lia.
Qed.

Lemma pages_cover {A} (processed : list A) :
  (List.length processed
   <= 12 * Z.to_nat (TicketGallery.totalPages processed))%nat.
Proof.
  unfold TicketGallery.totalPages, TicketGallery.ITEMS_PER_PAGE.
  zify. Z.to_euclidean_division_equations. lia.
Qed.

Lemma page_length {A} (processed : list A) (p : nat) :
  List.length (TicketGallery.currentTickets processed (Z.of_nat (S p)))
  = Nat.min 12 (List.length processed - 12 * p).
Proof. now rewrite page_chunk, length_firstn, length_skipn. Qed.

Lemma filter_all {A} (f : A -> bool) (l : list A) :
  (forall x, In x l -> f x = true) -> filter f l = l.
Proof.
  induction l as [|x l IH]; intros H; [reflexivity|].
  cbn [filter]. rewrite (H x) by now left.
  f_equal. apply IH. intros y Hy. apply H. now right.
Qed.

Lemma fold_Set_add_In (arr : list jsstring) :
  forall acc x,
  In x (fold_left UseTickets.Set_add arr acc) <-> In x acc \/ In x arr.
Proof.
  induction arr as [|a arr IH]; intros acc x; cbn [fold_left].
  - simpl. tauto.
  - rewrite IH, Set_add_In. simpl. intuition congruence.
Qed.

Lemma fold_Set_add_NoDup (arr : list jsstring) :
  forall acc, NoDup acc -> NoDup (fold_left UseTickets.Set_add arr acc).
Proof.
  induction arr as [|a arr IH]; intros acc H; cbn [fold_left]; [exact H|].
  apply IH. now apply Set_add_NoDup.
Qed.

(** The pages partition the list. The pages 1 to [totalPages], one after
    the other, are the sorted list: no ticket is shown twice and none is
    left out. Every page but the last holds twelve tickets, the last one
    between one and twelve, and a page after the last is empty. *)
Theorem pages_partition {A} (processed : list A) :
  let total := TicketGallery.totalPages processed in
  List.concat (map (TicketGallery.currentTickets processed)
              (map Z.of_nat (seq 1 (Z.to_nat total))))
  = processed
  /\ (forall p, 1 <= p < total ->
        List.length (TicketGallery.currentTickets processed p) = 12%nat)
  /\ (forall p, p = total -> 1 <= p ->
        (1 <= List.length (TicketGallery.currentTickets processed p) <= 12)%nat)
  /\ (forall p, total < p -> 1 <= p ->
        TicketGallery.currentTickets processed p = []).
Proof.
  cbv zeta. split; [|split; [|split]].
  - rewrite <- seq_shift, !map_map.
    rewrite (map_ext _ (fun i => firstn 12 (skipn (12 * i) processed)))
      by (intros i; apply page_chunk).
    apply chunks_concat, pages_cover.
  - intros p Hp. replace p with (Z.of_nat (S (Z.to_nat (p - 1)))) by lia.
    rewrite page_length. revert Hp.
    unfold TicketGallery.totalPages, TicketGallery.ITEMS_PER_PAGE.
    zify. Z.to_euclidean_division_equations. lia.
  - intros p Hp H1. replace p with (Z.of_nat (S (Z.to_nat (p - 1)))) by lia.
    rewrite page_length. revert Hp.
    unfold TicketGallery.totalPages, TicketGallery.ITEMS_PER_PAGE.
    zify. Z.to_euclidean_division_equations. lia.
  - intros p Hp H1. replace p with (Z.of_nat (S (Z.to_nat (p - 1)))) by lia.
    apply length_zero_iff_nil. rewrite page_length. revert Hp.
    unfold TicketGallery.totalPages, TicketGallery.ITEMS_PER_PAGE.
    zify. Z.to_euclidean_division_equations. lia.
Qed.



(** The selection is a set. Ticking or unticking a ticket keeps the
    selection free of duplicates; ticking adds exactly that id, unticking
    removes exactly that id; and ticking a ticket that was not selected and
    unticking it again gives the selection back. *)
Theorem selection_toggle (selectedTickets : list jsstring) (id : jsstring)
    (selected : bool) :
  NoDup selectedTickets ->
  let newSelection := TicketGallery.handleSelectTicket selectedTickets id selected in
  NoDup newSelection
  /\ (forall x,
        In x newSelection
        <-> if selected then In x selectedTickets \/ x = id
            else In x selectedTickets /\ x <> id)
  /\ (~ In id selectedTickets ->
      TicketGallery.handleSelectTicket
        (TicketGallery.handleSelectTicket selectedTickets id true) id false
      = selectedTickets).
Proof.
  intros Hn. cbv zeta. unfold TicketGallery.handleSelectTicket.
  split; [|split].
  - destruct selected; [now apply Set_add_NoDup|now apply NoDup_filter].
  - intros x. destruct selected; [apply Set_add_In|].
    rewrite filter_In, negb_true_iff.
    split; intros [H1 H2]; (split; [exact H1|]).
    + intros ->. now rewrite str_eqb_refl in H2.
    + destruct (str_eqb x id) eqn:E; [|reflexivity].
      apply str_eqb_eq in E. contradiction.
  - intros Hid. unfold UseTickets.Set_add.
    destruct (includes selectedTickets id) eqn:E;
      [apply includes_In in E; contradiction|].
    rewrite filter_app. cbn [filter]. rewrite str_eqb_refl. cbn [negb].
    rewrite app_nil_r. apply filter_all.
    intros x Hx. destruct (str_eqb x id) eqn:E'; [|reflexivity].
    apply str_eqb_eq in E'. subst x. contradiction.
Qed.

Lemma selection_toggle_witness :
  let selectedTickets := [u16 "7"; u16 "12"] in
  NoDup selectedTickets
  /\ TicketGallery.handleSelectTicket selectedTickets (u16 "12") false = [u16 "7"]
  /\ NoDup (TicketGallery.handleSelectTicket selectedTickets (u16 "12") false).
Proof.
  intros selectedTickets.
  assert (H : NoDup selectedTickets).
  { repeat constructor; simpl; intuition discriminate. }
  split; [exact H|]. split; [reflexivity|].
  exact (proj1 (selection_toggle selectedTickets (u16 "12") false H)).
Defined.

(** Select all, then delete. Ticking the box of the page selects exactly
    the ids of the tickets of the page, each once, and the box shows as
    ticked when the page is not empty. When the backend then accepts the
    bulk delete, the selection is cleared, no error is shown, and the list
    of the hook holds exactly the previous tickets whose id is not the id
    of a ticket of the page. *)
Theorem select_all_then_delete (delete_in : list number -> result unit)
    (page : list Ticket.t) (st : UseTickets.State) (u : unit) :
  let selection := TicketGallery.handleSelectAll page true in
  delete_in (map parseInt selection) = Ok u ->
  NoDup selection
  /\ (forall id, In id selection <-> exists t, In t page /\ Ticket.id t = id)
  /\ TicketGallery.allCurrentSelected page selection
     = negb (Nat.eqb (List.length page) 0)
  /\ let out := TicketGallery.handleBulkDelete delete_in selection st in
     snd out = []
     /\ UseTickets.error (fst out) = None
     /\ (forall t,
           In t (UseTickets.tickets (fst out))
           <-> In t (UseTickets.tickets st)
               /\ forall t', In t' page -> Ticket.id t' <> Ticket.id t).
Proof.
  cbv zeta. unfold TicketGallery.handleSelectAll, TicketGallery.new_Set.
  intros Hd.
  assert (Hin : forall id,
             In id (fold_left UseTickets.Set_add (map Ticket.id page) [])
             <-> exists t, In t page /\ Ticket.id t = id).
  { intros id. rewrite fold_Set_add_In, in_map_iff. simpl.
    split; [intros [[]|[t [H1 H2]]]; now exists t
           |intros [t [H1 H2]]; right; now exists t]. }
  split; [apply fold_Set_add_NoDup; constructor|].
  split; [exact Hin|]. split; [|split; [reflexivity|split]].
  - unfold TicketGallery.allCurrentSelected.
    replace (forallb _ page) with true; [apply andb_true_r|].
    symmetry. apply forallb_forall.
    intros t Ht. apply includes_In, Hin. now exists t.
  - unfold TicketGallery.handleBulkDelete, UseTickets.bulkDeleteTickets.
    cbv zeta. now rewrite Hd.
  - intros t. unfold TicketGallery.handleBulkDelete, UseTickets.bulkDeleteTickets.
    cbv zeta. rewrite Hd. cbn [fst UseTickets.setTickets UseTickets.tickets
                               UseTickets.setError].
    rewrite filter_In, negb_true_iff.
    split; intros [H1 H2]; (split; [exact H1|]).
    + intros t' Ht' E.
      assert (In (Ticket.id t)
                 (fold_left UseTickets.Set_add (map Ticket.id page) []))
        by (apply Hin; now exists t').
      apply includes_In in H. congruence.
    + destruct (includes (fold_left UseTickets.Set_add (map Ticket.id page) [])
                         (Ticket.id t)) eqn:E; [|reflexivity].
      apply includes_In, Hin in E as [t' [Ht' E]].
      now apply H2 in Ht'.
Qed.

Lemma select_all_then_delete_witness :
  let t :=
    Ticket.mk (u16 "7") (u16 "7") In_Dev (u16 "2024-05-01") None [] [] [] [] []
      SEV_3 (u16 "2024-05-01") (u16 "2024-05-01") in
  let st := UseTickets.mkState [t] false None in
  let delete_in := fun _ : list number => Ok tt in
  TicketGallery.handleSelectAll [t] true = [u16 "7"]
  /\ UseTickets.tickets
       (fst (TicketGallery.handleBulkDelete delete_in [u16 "7"] st)) = []
  /\ NoDup (TicketGallery.handleSelectAll [t] true).
Proof.
  intros t st delete_in. split; [reflexivity|]. split; [reflexivity|].
  exact (proj1 (select_all_then_delete delete_in [t] st tt eq_refl)).
Defined.

End GalleryFacts.

(** * The search panel, the feedback form and the feedback list *)

Module PanelFacts.
Import JS JSNum Types Spec Props JSFacts StateFacts.

Lemma or_none_idempotent (x : option jsstring) : or_none (or_none x) = or_none x.
Proof. now destruct x as [[|c r]|]. Qed.

Lemma selected_idempotent {A} (o : option (list A)) :
  selected (selected o) = selected o.
Proof. now destruct o as [[|x r]|]. Qed.

Lemma first_selected {A} (o : option (list A)) :
  Notion.first (selected o) = Notion.first o.
Proof. now destruct o as [[|x r]|]. Qed.

Lemma feedback_removed_filter (ids : list jsstring) (l : list Feedback.t) :
  feedback_removed ids l
    (filter (fun item => negb (includes ids (Feedback.id item))) l).
Proof.
  induction l as [|x l IH]; [constructor|].
  cbn [filter]. destruct (includes ids (Feedback.id x)) eqn:E; cbn [negb].
  - apply feedback_removed_drop; [now apply includes_In|exact IH].
  - apply feedback_removed_keep; [|exact IH].
    intros H. apply includes_In in H. congruence.
Qed.

Lemma feedback_removed_functional (ids : list jsstring) (l l1 l2 : list Feedback.t) :
  feedback_removed ids l l1 -> feedback_removed ids l l2 -> l1 = l2.
Proof.
  intros H1. revert l2.
  induction H1 as [|x l l' Hx H1 IH|x l l' Hx H1 IH]; intros l2 H2.
  - now inversion H2.
  - inversion H2; subst; [now apply IH|contradiction].
  - inversion H2; subst; [contradiction|]. f_equal. now apply IH.
Qed.

Lemma blank_field (s : jsstring) :
  negb (nonempty s) || negb (nonempty (trim s)) = false <-> has_non_ws s.
Proof.
  rewrite orb_false_iff, !negb_false_iff. split.
  - intros [_ H]. now apply nonempty_trim.
  - intros H. split; [|now apply nonempty_trim].
    destruct H as [c [Hc _]]. now destruct s.
Qed.

(** Cleaning the filters changes no search. The filter object the panel
    sends, with empty texts and empty lists dropped, is already clean, has a
    criterion selected exactly when the panel has one, and gives the same
    search as the object of the panel, in the hook and in the Notion
    adapter. *)
Theorem cleanFilters_transparent
    (select : UseTickets.Query -> result (list UseTickets.Row.t))
    (toLowerCase : jsstring -> jsstring)
    (databases_query : list Notion.Condition -> result (list Notion.Page.t))
    (credentials : NotionClient.Credentials)
    (clock : Clock) (filters : SearchFilters.t) (st : UseTickets.State) :
  let clean := SearchPanel.cleanFilters filters in
  SearchPanel.cleanFilters clean = clean
  /\ (no_criteria clean <-> no_criteria filters)
  /\ UseTickets.searchTickets select clock clean st
     = UseTickets.searchTickets select clock filters st
  /\ Notion.searchTickets toLowerCase databases_query credentials clock clean
     = Notion.searchTickets toLowerCase databases_query credentials clock filters.
Proof.
  cbv zeta. unfold SearchPanel.cleanFilters. split; [|split; [|split]].
  - cbn [SearchFilters.search_query SearchFilters.status SearchFilters.severity
         SearchFilters.product_tags SearchFilters.category_tags
         SearchFilters.date_range_start SearchFilters.date_range_end].
    now rewrite or_none_idempotent, !selected_idempotent.
  - unfold no_criteria.
    cbn [SearchFilters.search_query SearchFilters.status SearchFilters.severity
         SearchFilters.product_tags SearchFilters.category_tags
         SearchFilters.date_range_start SearchFilters.date_range_end].
    now rewrite or_none_idempotent, !selected_idempotent.
  - unfold UseTickets.searchTickets, UseTickets.searchTickets_query,
      UseTickets.filter_by_tags.
    cbn [SearchFilters.search_query SearchFilters.status SearchFilters.severity
         SearchFilters.product_tags SearchFilters.category_tags
         SearchFilters.date_range_start SearchFilters.date_range_end].
    now rewrite or_none_idempotent, !selected_idempotent.
  - unfold Notion.searchTickets, Notion.searchTickets_filter,
      Notion.client_filters.
    cbn [SearchFilters.search_query SearchFilters.status SearchFilters.severity
         SearchFilters.product_tags SearchFilters.category_tags
         SearchFilters.date_range_start SearchFilters.date_range_end].
    now rewrite or_none_idempotent, !selected_idempotent, !first_selected.
Qed.

(** The feedback form lets feedback through exactly when a platform is
    chosen, the date of the feedback is not empty and, for Intercom, the
    ticket id has a character that is not whitespace. The data then reaches
    [onSave] unchanged, and the row [createFeedback] inserts for it carries
    the platform and the date of the form (never the current time) and, for
    Intercom, the number read from the ticket id. *)
Theorem feedback_form_accepts (clock : Clock) (formData : FeedbackFormData.t) :
  (FeedbackForm.validateForm formData = true
   <-> (exists p, FeedbackFormData.platform formData = Some p
                  /\ (p = Intercom ->
                      exists raw, FeedbackFormData.ticket_id formData = Some raw
                                  /\ has_non_ws raw))
       /\ (exists d, FeedbackFormData.created_at formData = Some d /\ d <> []))
  /\ (FeedbackForm.handleSubmit formData
      = if FeedbackForm.validateForm formData then Some formData else None)
  /\ (FeedbackForm.validateForm formData = true ->
      let body := UseFeedback.createFeedback_payload clock formData in
      (exists p, FeedbackFormData.platform formData = Some p
                 /\ UseFeedback.Payload.platform body = Val p)
      /\ (exists d, FeedbackFormData.created_at formData = Some d
                    /\ UseFeedback.Payload.created_at body = Val d)
      /\ (FeedbackFormData.platform formData = Some Intercom ->
          exists raw, FeedbackFormData.ticket_id formData = Some raw
                      /\ UseFeedback.Payload.ticket_id body = Val (parseInt raw))).
Proof.
  assert (Hv : FeedbackForm.validateForm formData = true
               <-> (exists p, FeedbackFormData.platform formData = Some p
                              /\ (p = Intercom ->
                                  exists raw,
                                    FeedbackFormData.ticket_id formData = Some raw
                                    /\ has_non_ws raw))
                   /\ (exists d, FeedbackFormData.created_at formData = Some d
                                 /\ d <> [])).
  { unfold FeedbackForm.validateForm, FeedbackForm.validation_errors,
      Forms.error_entry.
    destruct (FeedbackFormData.platform formData) as [p|].
    2:{ cbn [app]. split; [discriminate|]. intros [[p [Hp _]] _]. discriminate. }
    assert (Hd : (exists d, FeedbackFormData.created_at formData = Some d /\ d <> [])
                 <-> or_none (FeedbackFormData.created_at formData) <> None).
    { destruct (FeedbackFormData.created_at formData) as [[|c r]|]; cbn [or_none].
      - split; [intros [d [H1 H2]]; congruence|congruence].
      - split; [discriminate|]. intros _. now exists (c :: r).
      - split; [intros [d [H1 _]]; discriminate|congruence]. }
    rewrite Hd. clear Hd.
    assert (Hi : (exists p0, Some p = Some p0
                             /\ (p0 = Intercom ->
                                 exists raw,
                                   FeedbackFormData.ticket_id formData = Some raw
                                   /\ has_non_ws raw))
                 <-> (p = Intercom ->
                      exists raw, FeedbackFormData.ticket_id formData = Some raw
                                  /\ has_non_ws raw)).
    { split; [intros [p0 [H1 H2]]; now injection H1 as <-|].
      intros H. now exists p. }
    rewrite Hi. clear Hi.
    destruct (or_none (FeedbackFormData.created_at formData)) as [d|].
    2:{ split; [|tauto].
        destruct p; cbn [app];
          try destruct (FeedbackFormData.ticket_id formData) as [raw|];
          try destruct (negb (nonempty raw) || negb (nonempty (trim raw)));
          discriminate. }
    destruct p; cbn [app];
      try (split; [intros _; split; [discriminate|discriminate]|reflexivity]).
    destruct (FeedbackFormData.ticket_id formData) as [raw|].
    - pose proof (blank_field raw) as Hr. revert Hr.
      destruct (negb (nonempty raw) || negb (nonempty (trim raw)));
        intros Hr; cbn [app].
      + split; [discriminate|]. intros [H _].
        destruct (H eq_refl) as [r [Hr1 Hr2]]. injection Hr1 as <-.
        apply Hr in Hr2. discriminate.
      + split; [|reflexivity]. intros _. split; [|discriminate].
        intros _. exists raw. split; [reflexivity|now apply Hr].
    - cbn [app]. split; [discriminate|]. intros [H _].
      destruct (H eq_refl) as [r [Hr1 _]]. discriminate. }
  split; [exact Hv|]. split.
  - unfold FeedbackForm.handleSubmit.
    now destruct (FeedbackForm.validateForm formData).
  - intros H. apply Hv in H as [[p [Hp Hi]] [d [Hd Hne]]]. cbv zeta.
    unfold UseFeedback.createFeedback_payload.
    cbn [UseFeedback.Payload.platform UseFeedback.Payload.created_at
         UseFeedback.Payload.ticket_id].
    split; [exists p; split; [exact Hp|now rewrite Hp]|].
    split.
    + exists d. split; [exact Hd|]. rewrite Hd.
      destruct d as [|c r]; [congruence|reflexivity].
    + intros Hp'. rewrite Hp in Hp'. injection Hp' as ->.
      destruct (Hi eq_refl) as [raw [Hraw Hws]].
      exists raw. split; [exact Hraw|]. rewrite Hraw.
      unfold UseFeedback.ticket_reference.
      destruct raw as [|c r]; [|reflexivity].
      destruct Hws as [c [[] _]].
Qed.

Lemma feedback_form_accepts_witness :
  let clock := mkClock (u16 "2024-05-20T10:00:00.000Z") in
  let formData :=
    FeedbackFormData.mk (Some (u16 "41")) (Some (u16 "2024-05-01")) (Some Intercom)
      (Some (u16 "Cash")) None None None (Some []) in
  FeedbackForm.validateForm formData = true
  /\ UseFeedback.Payload.ticket_id (UseFeedback.createFeedback_payload clock formData)
     = Val (Int 41)
  /\ exists d, FeedbackFormData.created_at formData = Some d
               /\ UseFeedback.Payload.created_at
                    (UseFeedback.createFeedback_payload clock formData) = Val d.
Proof.
  intros clock formData. split; [reflexivity|]. split; [reflexivity|].
  exact (proj1 (proj2 (proj2 (proj2 (feedback_form_accepts clock formData))
                        eq_refl))).
Defined.

(** [bulkDeleteFeedback] removes exactly the selected items. When the
    backend delete succeeds the operation completes, no error is shown, and
    the local list is the one list that is the previous list without the
    items whose id is selected, the others unchanged and in order;
    [deleteFeedback] leaves the same list for a single id. *)
Theorem bulkDeleteFeedback_exact
    (delete_in : list number -> result unit) (delete : number -> result unit)
    (ids : list jsstring) (st : UseFeedback.State) (u : unit) :
  delete_in (map parseInt ids) = Ok u ->
  let out := UseFeedback.bulkDeleteFeedback delete_in ids st in
  snd out = Ok tt
  /\ UseFeedback.error (fst out) = None
  /\ feedback_removed ids (UseFeedback.feedback st) (UseFeedback.feedback (fst out))
  /\ (forall l, feedback_removed ids (UseFeedback.feedback st) l ->
                l = UseFeedback.feedback (fst out))
  /\ (forall item, In item (UseFeedback.feedback (fst out))
                   <-> In item (UseFeedback.feedback st)
                       /\ ~ In (Feedback.id item) ids)
  /\ (forall id u', ids = [id] -> delete (parseInt id) = Ok u' ->
        fst (UseFeedback.deleteFeedback delete id st) = fst out).
Proof.
  intros Hd. cbv zeta. unfold UseFeedback.bulkDeleteFeedback. cbv zeta.
  rewrite Hd.
  cbn [fst snd UseFeedback.setFeedback UseFeedback.setError UseFeedback.error
       UseFeedback.feedback UseFeedback.loading].
  split; [reflexivity|]. split; [reflexivity|].
  split; [apply feedback_removed_filter|]. split; [|split].
  - intros l Hl. eapply feedback_removed_functional; [exact Hl|].
    apply feedback_removed_filter.
  - intros item. rewrite filter_In, negb_true_iff.
    split; intros [H1 H2]; (split; [exact H1|]).
    + intros H. apply includes_In in H. congruence.
    + destruct (includes ids (Feedback.id item)) eqn:E; [|reflexivity].
      apply includes_In in E. contradiction.
  - intros id u' -> Hdel. unfold UseFeedback.deleteFeedback. cbv zeta.
    rewrite Hdel.
    cbn [fst UseFeedback.setFeedback UseFeedback.setError UseFeedback.error
         UseFeedback.feedback UseFeedback.loading].
    assert (E : forall l : list Feedback.t,
               filter (fun item => negb (str_eqb (Feedback.id item) id)) l
               = filter (fun item => negb (includes [id] (Feedback.id item))) l).
    { intros l. apply filter_ext. intros item.
      unfold includes. cbn [existsb]. now rewrite orb_false_r. }
    unfold UseFeedback.setFeedback, UseFeedback.setError.
    cbn [UseFeedback.feedback UseFeedback.loading UseFeedback.error].
    now rewrite E.
Qed.

Lemma bulkDeleteFeedback_exact_witness :
  let item id :=
    Feedback.mk (u16 id) None (u16 "2024-05-01") Discord (u16 "Cash") [] None None
      None in
  let st := UseFeedback.mkState [item "3"%string; item "4"%string; item "5"%string] false None in
  let delete_in := fun _ : list number => Ok tt in
  let delete := fun _ : number => Ok tt in
  UseFeedback.feedback
    (fst (UseFeedback.bulkDeleteFeedback delete_in [u16 "3"; u16 "5"] st))
  = [item "4"%string]
  /\ UseFeedback.error
       (fst (UseFeedback.bulkDeleteFeedback delete_in [u16 "3"; u16 "5"] st))
     = None.
Proof.
  intros item st delete_in delete. split; [reflexivity|].
  exact (proj1 (proj2 (bulkDeleteFeedback_exact delete_in delete
                         [u16 "3"; u16 "5"] st tt eq_refl))).
Defined.

End PanelFacts.

(** * Writes of the Notion adapter *)

Module NotionFacts.
Import JS JSNum Types Spec Props JSFacts.

Lemma rethrow_Error {A} (fallback : string) (error e : JSError) :
  @NotionWrite.rethrow A fallback error = Throw e -> instanceof_Error e = true.
Proof.
  unfold NotionWrite.rethrow.
  destruct (instanceof_Error error) eqn:E; intros H; injection H as <-;
    [exact E|reflexivity].
Qed.

Lemma try_catch_rethrow {A} (m : result A) (fallback : string) (e : JSError) :
  try_catch m (NotionWrite.rethrow fallback) = Throw e ->
  instanceof_Error e = true.
Proof.
  destruct m as [a|error]; cbn [try_catch]; [discriminate|].
  apply rethrow_Error.
Qed.

(** What [createTicket] sends to Notion. With both credentials configured
    and a generated id that is not empty, the page is created with
    properties that carry the generated id, the current time as creation
    date, the status, tags and texts of the form, and a resolution date (the
    current time) exactly when the status is [Resolved]; the result is the
    converted response, and a failure of the call is thrown on as an
    [Error]. *)
Theorem notion_createTicket_sends
    (pages_create : NotionWrite.Properties.t -> result Notion.Page.t)
    (credentials : NotionWrite.Credentials) (clock : Clock)
    (generated : jsstring) (data : TicketFormData.t) :
  NotionWrite.token credentials <> [] ->
  NotionWrite.databaseId credentials <> [] ->
  generated <> [] ->
  exists properties,
    NotionWrite.ticketToNotionProperties clock (NotionWrite.as_partial data)
      (Some generated) = Ok properties
    /\ NotionWrite.Properties.Ticket_ID properties = Some generated
    /\ NotionWrite.Properties.Date_Created properties = Some (toISOString clock)
    /\ NotionWrite.Properties.Status properties = Some (TicketFormData.status data)
    /\ NotionWrite.Properties.Severity_ properties
       = Some (TicketFormData.severity data)
    /\ NotionWrite.Properties.Product_Tags properties
       = TicketFormData.product_tags data
    /\ NotionWrite.Properties.Category_Tags properties
       = TicketFormData.category_tags data
    /\ NotionWrite.Properties.Issue_Description properties
       = TicketFormData.issue_description data
    /\ (NotionWrite.Properties.Date_Resolved properties <> None
        <-> TicketFormData.status data = Resolved)
    /\ (forall d, NotionWrite.Properties.Date_Resolved properties = Some d ->
                  d = toISOString clock)
    /\ NotionWrite.createTicket pages_create credentials clock generated data
       = match pages_create properties with
         | Ok response => Ok (Notion.notionPageToTicket clock response)
         | Throw error =>
             Throw (if instanceof_Error error then error
                    else NotionWrite.new_Error
                           "Failed to create ticket in Notion. Please check your configuration.")
         end.
Proof.
  intros Ht Hd Hg.
  apply nonempty_true in Ht. apply nonempty_true in Hd.
  destruct generated as [|c r]; [congruence|].
  unfold NotionWrite.createTicket, NotionWrite.createNotionClient.
  rewrite Ht, Hd. cbn [negb bind].
  unfold NotionWrite.ticketToNotionProperties, NotionWrite.as_partial.
  cbn [TicketUpdates.product_tags TicketUpdates.category_tags
       TicketUpdates.status TicketUpdates.severity
       TicketUpdates.core_team_comments TicketUpdates.issue_description
       TicketUpdates.contact_info NotionWrite.tags_or_throw bind or_none].
  eexists. split; [reflexivity|].
  cbn [NotionWrite.Properties.Ticket_ID NotionWrite.Properties.Date_Created
       NotionWrite.Properties.Status NotionWrite.Properties.Severity_
       NotionWrite.Properties.Product_Tags NotionWrite.Properties.Category_Tags
       NotionWrite.Properties.Issue_Description
       NotionWrite.Properties.Date_Resolved].
  repeat (split; [reflexivity|]).
  split; [|split; [|split]].
  - now destruct (TicketFormData.issue_description data).
  - destruct (TicketFormData.status data); split; congruence.
  - intros d. destruct (TicketFormData.status data); congruence.
  - match goal with
    | |- context [pages_create ?p] => destruct (pages_create p) as [response|error]
    end; cbn [bind try_catch]; [reflexivity|].
    unfold NotionWrite.rethrow. now destruct (instanceof_Error error).
Qed.

Lemma notion_createTicket_sends_witness :
  let credentials := NotionWrite.mkCredentials (u16 "secret") (u16 "db") in
  let clock := mkClock (u16 "2024-05-20T10:00:00.000Z") in
  let data :=
    TicketFormData.mk None Resolved [] (u16 "login fails") (u16 "0xabc")
      [u16 "Cash"] [] SEV_2 in
  exists properties,
    NotionWrite.ticketToNotionProperties clock (NotionWrite.as_partial data)
      (Some (u16 "TKT-1-AB12")) = Ok properties
    /\ NotionWrite.Properties.Ticket_ID properties = Some (u16 "TKT-1-AB12").
Proof.
  intros credentials clock data.
  destruct (notion_createTicket_sends (fun _ => Throw SyntaxError) credentials
              clock (u16 "TKT-1-AB12") data
              ltac:(discriminate) ltac:(discriminate) ltac:(discriminate))
    as [properties [H1 [H2 _]]].
  exists properties. split; [exact H1|exact H2].
Defined.

(** An update without both tag lists never reaches Notion. [updateTicket]
    hands the partial object to [ticketToNotionProperties], which reads
    [map] of each tag list: when one is missing the operation throws an
    [Error] (the [TypeError], once the token is configured) whatever the
    Notion call would answer. *)
Theorem notion_update_needs_tags
    (pages_update pages_update' : jsstring -> NotionWrite.Properties.t
                                  -> result Notion.Page.t)
    (credentials : NotionWrite.Credentials) (clock : Clock) (id : jsstring)
    (updates : TicketUpdates.t) :
  TicketUpdates.product_tags updates = None
  \/ TicketUpdates.category_tags updates = None ->
  NotionWrite.updateTicket pages_update credentials clock id updates
  = NotionWrite.updateTicket pages_update' credentials clock id updates
  /\ exists e,
       NotionWrite.updateTicket pages_update credentials clock id updates = Throw e
       /\ instanceof_Error e = true
       /\ (NotionWrite.token credentials <> [] -> e = NotionWrite.map_of_undefined).
Proof.
  intros H. unfold NotionWrite.updateTicket, NotionWrite.createNotionClient.
  destruct (nonempty (NotionWrite.token credentials)) eqn:Et; cbn [bind try_catch].
  - assert (E : NotionWrite.ticketToNotionProperties clock updates None
                = Throw NotionWrite.map_of_undefined).
    { unfold NotionWrite.ticketToNotionProperties.
      destruct H as [H|H]; rewrite H.
      - reflexivity.
      - now destruct (TicketUpdates.product_tags updates). }
    rewrite E. cbn [bind try_catch]. split; [reflexivity|].
    exists NotionWrite.map_of_undefined. repeat split.
  - split; [reflexivity|]. eexists. split; [reflexivity|]. split; [reflexivity|].
    intros Hne. apply nonempty_true in Hne. congruence.
Qed.

Lemma notion_update_needs_tags_witness :
  let credentials := NotionWrite.mkCredentials (u16 "secret") (u16 "db") in
  let clock := mkClock (u16 "2024-05-20T10:00:00.000Z") in
  let updates :=
    TicketUpdates.mk None (Some Resolved) None None None None None None in
  let page :=
    Notion.Page.mk (u16 "p1") None None None None None None None None None None
      None [] [] in
  NotionWrite.updateTicket (fun _ _ => Ok page) credentials clock (u16 "p1") updates
  = Throw NotionWrite.map_of_undefined
  /\ NotionWrite.updateTicket (fun _ _ => Ok page) credentials clock (u16 "p1") updates
     = NotionWrite.updateTicket (fun _ _ => Throw SyntaxError) credentials clock
         (u16 "p1") updates.
Proof.
  intros credentials clock updates page. split; [reflexivity|].
  exact (proj1 (notion_update_needs_tags (fun _ _ => Ok page)
                  (fun _ _ => Throw SyntaxError) credentials clock (u16 "p1")
                  updates (or_introl eq_refl))).
Defined.

(** Whatever [createTicket] and [updateTicket] of the adapter throw is an
    [Error]: a thrown value that is no [Error] is replaced by one. *)
Theorem notion_write_throws_errors
    (pages_create : NotionWrite.Properties.t -> result Notion.Page.t)
    (pages_update : jsstring -> NotionWrite.Properties.t -> result Notion.Page.t)
    (credentials : NotionWrite.Credentials) (clock : Clock)
    (generated id : jsstring) (data : TicketFormData.t)
    (updates : TicketUpdates.t) (e : JSError) :
  NotionWrite.createTicket pages_create credentials clock generated data = Throw e
  \/ NotionWrite.updateTicket pages_update credentials clock id updates = Throw e ->
  instanceof_Error e = true.
Proof.
  intros [H|H]; eapply try_catch_rethrow; exact H.
Qed.

Lemma notion_write_throws_errors_witness :
  let credentials := NotionWrite.mkCredentials (u16 "secret") (u16 "db") in
  let clock := mkClock (u16 "2024-05-20T10:00:00.000Z") in
  let data :=
    TicketFormData.mk None In_Dev [] (u16 "login fails") (u16 "0xabc") [] [] SEV_2 in
  let thrown := mkError false (u16 "rate limited") in
  let e :=
    NotionWrite.new_Error
      "Failed to create ticket in Notion. Please check your configuration." in
  NotionWrite.createTicket (fun _ => Throw thrown) credentials clock
    (u16 "TKT-1-AB12") data = Throw e
  /\ instanceof_Error e = true.
Proof.
  intros credentials clock data thrown e.
  assert (H : NotionWrite.createTicket (fun _ => Throw thrown) credentials clock
                (u16 "TKT-1-AB12") data = Throw e) by reflexivity.
  split; [exact H|].
  exact (notion_write_throws_errors (fun _ => Throw thrown)
           (fun _ _ => Throw thrown) credentials clock (u16 "TKT-1-AB12")
           (u16 "p1") data (TicketUpdates.mk None None None None None None None None)
           e (or_introl H)).
Defined.

(** Missing credentials stop a write before any call to Notion.
    [createTicket] checks the database id first and the token second;
    [updateTicket] needs only the token. Each throws the [Error] that names
    the missing setting, whatever the Notion call would answer. *)
Theorem notion_unconfigured
    (pages_create : NotionWrite.Properties.t -> result Notion.Page.t)
    (pages_update : jsstring -> NotionWrite.Properties.t -> result Notion.Page.t)
    (credentials : NotionWrite.Credentials) (clock : Clock)
    (generated id : jsstring) (data : TicketFormData.t)
    (updates : TicketUpdates.t) :
  NotionWrite.token credentials = [] \/ NotionWrite.databaseId credentials = [] ->
  NotionWrite.createTicket pages_create credentials clock generated data
  = Throw (NotionWrite.new_Error
             (if nonempty (NotionWrite.databaseId credentials)
              then "Notion token not configured. Please configure your Notion integration token in Settings."
              else "Notion database ID not configured. Please configure your database ID in Settings."))
  /\ (NotionWrite.token credentials = [] ->
      NotionWrite.updateTicket pages_update credentials clock id updates
      = Throw (NotionWrite.new_Error
                 "Notion token not configured. Please configure your Notion integration token in Settings.")).
Proof.
  intros H. split.
  - unfold NotionWrite.createTicket, NotionWrite.createNotionClient.
    destruct (nonempty (NotionWrite.databaseId credentials)) eqn:Ed;
      cbn [negb]; [|reflexivity].
    destruct H as [H|H]; [rewrite H; reflexivity|].
    rewrite H in Ed. discriminate.
  - intros Ht. unfold NotionWrite.updateTicket, NotionWrite.createNotionClient.
    rewrite Ht. reflexivity.
Qed.

Lemma notion_unconfigured_witness :
  let credentials := NotionWrite.mkCredentials [] (u16 "db") in
  let clock := mkClock (u16 "2024-05-20T10:00:00.000Z") in
  let data :=
    TicketFormData.mk None In_Dev [] (u16 "login fails") (u16 "0xabc") [] [] SEV_2 in
  let page :=
    Notion.Page.mk (u16 "p1") None None None None None None None None None None
      None [] [] in
  NotionWrite.token credentials = []
  /\ NotionWrite.createTicket (fun _ => Ok page) credentials clock
       (u16 "TKT-1-AB12") data
     = Throw (NotionWrite.new_Error
                "Notion token not configured. Please configure your Notion integration token in Settings.").
Proof.
  intros credentials clock data page. split; [reflexivity|].
  exact (proj1 (notion_unconfigured (fun _ => Ok page) (fun _ _ => Ok page)
                  credentials clock (u16 "TKT-1-AB12") (u16 "p1") data
                  (TicketUpdates.mk None None None None None None None None)
                  (or_introl eq_refl))).
Defined.

End NotionFacts.
